(** * Multi-tool scanner: normalization and comparison engine

    A shallow embedding of the parsers (src/parsers/*.js), the result
    normalizer (src/parsers/normalizer.js) and the comparison analyzer
    (src/comparison/analyzer.js), followed by the properties of the
    specification that are settled against them.

    Conventions of the embedding.
    - JavaScript values are the JSON fragment [Js.value], with the built-in
      functions an object inherits ([Js.Native]); numbers are the integers
      (line and column numbers, counts), printed in plain decimal.
    - Strings are byte strings; [toLowerCase] and [toUpperCase] act on the
      ASCII letters, which is where every keyword of the tables lives.
    - An object literal used as a lookup table is a finite map over its own
      keys, enumerated in insertion order (none of the tables has an
      integer-like key); read by a key of the data ([Js.lookup]), it
      answers its entry or the member of [Object.prototype] the key
      names.
    - An object filled from data (the maps by tool, by repository and by
      category) is the list of its entries in insertion order; what is
      stated of such a map reads it by key or up to the order of its
      entries.
    - The maps filled from data are read over their own entries.  Where a
      key that comes from the data can name a member of [Object.prototype]
      ([Js.inherited]), the embedding raises where the code does, and a
      statement that depends on the entry is made for the other keys.
    - A value is printed by [Js.to_string], an object as the [toString]
      it inherits prints it.  An object with a member [toString] of its
      own cannot be printed (the member is no function, and the code
      raises); a statement on when a function that prints data returns
      is made for the values that can be printed ([Derived.printable]).
    - The percentage of [calculateEffectiveness] is computed on the
      primitive binary64 floats, and [toFixed(2)] on their exact value.
    - A function that can raise returns an [Js.outcome]. *)

From Stdlib Require Import ZArith List String Ascii Bool Lia Permutation.
From Stdlib Require Import DecimalString DecimalZ QArith Floats.
Import ListNotations.
Local Open Scope string_scope.
Set Warnings "-register-all".

(* ================================================================== *)
(** ** The JavaScript fragment                                         *)
(* ================================================================== *)

Module Js.

(** *** Strings *)

Definition lower_ascii (c : ascii) : ascii :=
  let n := nat_of_ascii c in
  if (65 <=? n)%nat && (n <=? 90)%nat then ascii_of_nat (n + 32) else c.

Definition upper_ascii (c : ascii) : ascii :=
  let n := nat_of_ascii c in
  if (97 <=? n)%nat && (n <=? 122)%nat then ascii_of_nat (n - 32) else c.

Fixpoint map_string (f : ascii -> ascii) (s : string) : string :=
  match s with
  | EmptyString => EmptyString
  | String c rest => String (f c) (map_string f rest)
  end.

(** [s.toLowerCase()], [s.toUpperCase()] *)
Definition toLowerCase : string -> string := map_string lower_ascii.
Definition toUpperCase : string -> string := map_string upper_ascii.

(** [s.includes(key)] *)
Fixpoint includes (s key : string) : bool :=
  if String.prefix key s then true
  else match s with
       | EmptyString => false
       | String _ rest => includes rest key
       end.

Fixpoint drop (n : nat) (s : string) : string :=
  match n, s with
  | O, _ => s
  | S _, EmptyString => EmptyString
  | S n', String _ rest => drop n' rest
  end.

(** [s.replace(pat, '')] with a string pattern: the first occurrence of
    [pat] is removed, the rest of [s] is kept. *)
Fixpoint replace_first (s pat : string) : string :=
  if String.prefix pat s then drop (String.length pat) s
  else match s with
       | EmptyString => EmptyString
       | String c rest => String c (replace_first rest pat)
       end.

Definition is_line_terminator (c : ascii) : bool :=
  (nat_of_ascii c =? 10)%nat || (nat_of_ascii c =? 13)%nat.

(** The text after the last [":"] of a line-terminator-free string, when it
    has one. *)
Fixpoint after_last_colon (s : string) : option string :=
  match s with
  | EmptyString => None
  | String c rest =>
      match after_last_colon rest with
      | Some tail => Some tail
      | None => if Ascii.eqb c ":" then Some rest else None
      end
  end.

Fixpoint first_line (s : string) : string * option (ascii * string) :=
  match s with
  | EmptyString => (EmptyString, None)
  | String c rest =>
      if is_line_terminator c then (EmptyString, Some (c, rest))
      else let '(l, k) := first_line rest in (String c l, k)
  end.

(** [s.replace(/.*:/, '')]: the dot does not cross a line terminator, so the
    leftmost match starts at the beginning of the first line that holds a
    colon and, being greedy, runs to the last colon of that line. *)
Fixpoint strip_to_last_colon_fuel (fuel : nat) (s : string) : string :=
  match fuel with
  | O => s
  | S fuel' =>
      let '(l, k) := first_line s in
      match after_last_colon l with
      | Some tail =>
          match k with
          | None => tail
          | Some (c, rest) => tail ++ String c rest
          end
      | None =>
          match k with
          | None => l
          | Some (c, rest) => l ++ String c (strip_to_last_colon_fuel fuel' rest)
          end
      end
  end.

Definition strip_to_last_colon (s : string) : string :=
  strip_to_last_colon_fuel (S (String.length s)) s.

(** Decimal text of an integer, as [String(n)] prints it. *)
Definition string_of_Z (n : Z) : string :=
  NilZero.string_of_int (Z.to_int n).

(** *** Values *)

(** The values of JSON, and [Native name]: a built-in function, which an
    object literal answers under the name of a member of
    [Object.prototype] and which prints as
    [function name() { [native code] }]. *)
Inductive value : Type :=
| Undefined
| Null
| Boolean (b : bool)
| Num (n : Z)
| Str (s : string)
| Arr (items : list value)
| Obj (fields : list (string * value))
| Native (name : string).

Definition nullish (v : value) : bool :=
  match v with
  | Undefined | Null => true
  | _ => false
  end.

Definition truthy (v : value) : bool :=
  match v with
  | Undefined | Null => false
  | Boolean b => b
  | Num n => negb (n =? 0)%Z
  | Str s => negb (s =? "")
  | Arr _ | Obj _ | Native _ => true
  end.

(** [a || b] *)
Definition or_else (a b : value) : value := if truthy a then a else b.

(** [String(v)], also the conversion of a property key and of the left
    operand of [v + '/']. *)
Fixpoint to_string (v : value) : string :=
  match v with
  | Undefined => "undefined"
  | Null => "null"
  | Boolean true => "true"
  | Boolean false => "false"
  | Num n => string_of_Z n
  | Str s => s
  | Arr items =>
      (fix elements (l : list value) : string :=
         match l with
         | [] => ""
         | x :: rest =>
             let piece := match x with
                          | Undefined | Null => ""
                          | _ => to_string x
                          end in
             match rest with
             | [] => piece
             | _ :: _ => piece ++ "," ++ elements rest
             end
         end) items
  | Obj _ => "[object Object]"
  | Native name => "function " ++ name ++ "() { [native code] }"
  end.

(** One element of [Array.prototype.join]: [undefined] and [null] print as
    the empty string. *)
Definition join_piece (v : value) : string :=
  if nullish v then "" else to_string v.

(** [items.join(sep)] *)
Definition join (sep : string) (items : list value) : string :=
  String.concat sep (map join_piece items).

(** [a === b] against a string literal. *)
Definition is_str (v : value) (s : string) : bool :=
  match v with
  | Str s' => (s' =? s)
  | _ => false
  end.

Fixpoint assoc {A : Type} (k : string) (m : list (string * A)) : option A :=
  match m with
  | [] => None
  | (k', a) :: rest => if (k' =? k) then Some a else assoc k rest
  end.

(** [v.k] on a value that is neither [undefined] nor [null]: an own property
    of an object, [undefined] otherwise (no field name read by the sources is
    a member of a primitive, of an array or of a function). *)
Definition prop (v : value) (k : string) : value :=
  match v with
  | Obj fields => match assoc k fields with Some x => x | None => Undefined end
  | _ => Undefined
  end.

(** [v?.k] *)
Definition opt (v : value) (k : string) : value :=
  if nullish v then Undefined else prop v k.

(** *** Raising *)

Inductive outcome (A : Type) : Type :=
| Returns (a : A)
| Throws (error : string).
Arguments Returns {A} a.
Arguments Throws {A} error.

Definition bind {A B : Type} (m : outcome A) (k : A -> outcome B) : outcome B :=
  match m with
  | Returns a => k a
  | Throws e => Throws e
  end.

Definition TypeError : string := "TypeError".

(** [v.k] *)
Definition get (v : value) (k : string) : outcome value :=
  if nullish v then Throws TypeError else Returns (prop v k).

(** [v.toLowerCase()], [v.toUpperCase()]: only a string has the method. *)
Definition lower (v : value) : outcome string :=
  match v with
  | Str s => Returns (toLowerCase s)
  | _ => Throws TypeError
  end.

Definition upper (v : value) : outcome string :=
  match v with
  | Str s => Returns (toUpperCase s)
  | _ => Throws TypeError
  end.

(** [items.map(f)] for an [f] that can raise. *)
Fixpoint map_outcome {A B : Type} (f : A -> outcome B) (l : list A)
  : outcome (list B) :=
  match l with
  | [] => Returns []
  | x :: rest =>
      bind (f x) (fun y => bind (map_outcome f rest) (fun ys => Returns (y :: ys)))
  end.

(** The receiver of [.map] and [.forEach] must be an array. *)
Definition as_array (v : value) : outcome (list value) :=
  match v with
  | Arr items => Returns items
  | _ => Throws TypeError
  end.

(** The first keyword of an ordered table that occurs in one of the texts:
    [for (const [key, value] of Object.entries(table)) if (...includes(key))
    return value]. *)
Fixpoint first_match (table : list (string * string)) (texts : list string)
  : option string :=
  match table with
  | [] => None
  | (key, category) :: rest =>
      if existsb (fun t => includes t key) texts then Some category
      else first_match rest texts
  end.

(** The names every object inherits from [Object.prototype]: under one of
    them, [obj[k]] answers the inherited member when [obj] has no own
    entry. *)
Definition inherited : list string :=
  [ "constructor"; "__defineGetter__"; "__defineSetter__"; "hasOwnProperty";
    "__lookupGetter__"; "__lookupSetter__"; "isPrototypeOf";
    "propertyIsEnumerable"; "toString"; "valueOf"; "__proto__";
    "toLocaleString" ].

(** A key under which an object answers from its own entries only. *)
Definition own_key (k : string) : bool :=
  negb (existsb (String.eqb k) inherited).

(** The member of [Object.prototype] a key names: [constructor] is the
    function [Object], [__proto__] the prototype itself, an object without
    an entry to enumerate, and every other one a function of that name. *)
Definition prototype_member (k : string) : value :=
  if k =? "constructor" then Native "Object"
  else if k =? "__proto__" then Obj []
  else if own_key k then Undefined
  else Native k.

(** [table[key]] on a table of strings: the entry of the table, or the
    member of [Object.prototype] the key names. *)
Definition lookup (table : list (string * string)) (key : value) : value :=
  match assoc (to_string key) table with
  | Some s => Str s
  | None => prototype_member (to_string key)
  end.

(** [counts[category] = (counts[category] || 0) + 1], for a category that
    names no member of [Object.prototype]: the count of an own entry, and a
    new entry for a category met for the first time. *)
Fixpoint bump (category : string) (counts : list (string * nat))
  : list (string * nat) :=
  match counts with
  | [] => [(category, 1%nat)]
  | (c, n) :: rest =>
      if c =? category then (c, S n) :: rest
      else (c, n) :: bump category rest
  end.

(** [v?.[0]] *)
Definition opt_first (v : value) : value :=
  match v with
  | Arr (x :: _) => x
  | Str (String c _) => Str (String c EmptyString)
  | Obj _ => prop v "0"
  | _ => Undefined
  end.

(** [v.replace(pat, '')]: only a string has the method. *)
Definition replace_in (v : value) (pat : string) : outcome value :=
  match v with
  | Str s => Returns (Str (replace_first s pat))
  | _ => Throws TypeError
  end.

(** [items.filter(f => f.severity === level).length] and the category
    counts, as every parser computes them. *)
Definition count_where {A : Type} (p : A -> bool) (l : list A) : nat :=
  List.length (filter p l).

(** [obj[k] = a]: the entry of an own key is replaced where it stands, a new
    key comes last. *)
Fixpoint store {A : Type} (k : string) (a : A) (m : list (string * A))
  : list (string * A) :=
  match m with
  | [] => [(k, a)]
  | (k', a') :: rest =>
      if k' =? k then (k', a) :: rest else (k', a') :: store k a rest
  end.

(** [if (!obj[k]) obj[k] = []; obj[k].push(a)] *)
Fixpoint push {A : Type} (k : string) (a : A) (m : list (string * list A))
  : list (string * list A) :=
  match m with
  | [] => [(k, [a])]
  | (k', l) :: rest =>
      if k' =? k then (k', (l ++ [a])%list) :: rest else (k', l) :: push k a rest
  end.

(** [counts[k] = (counts[k] || 0) + n] *)
Fixpoint add_count (k : string) (n : nat) (counts : list (string * nat))
  : list (string * nat) :=
  match counts with
  | [] => [(k, n)]
  | (k', c) :: rest =>
      if k' =? k then (k', (c + n)%nat) :: rest else (k', c) :: add_count k n rest
  end.

(** [items.filter(p)] for a [p] that can raise. *)
Fixpoint filter_outcome {A : Type} (p : A -> outcome bool) (l : list A)
  : outcome (list A) :=
  match l with
  | [] => Returns []
  | x :: rest =>
      bind (p x) (fun keep =>
      bind (filter_outcome p rest) (fun kept =>
      Returns (if keep then x :: kept else kept)))
  end.

(** [s.startsWith(p)] *)
Definition startsWith (s p : string) : bool := String.prefix p s.

(** The decimal text of a count, as a template literal prints it. *)
Definition string_of_nat (n : nat) : string := string_of_Z (Z.of_nat n).

End Js.

Notation "x <- m ;; k" := (Js.bind m (fun x => k))
  (at level 61, m at next level, right associativity).

(* ================================================================== *)
(** ** Records shared by the parsers, the normalizer and the analyzer  *)
(* ================================================================== *)

Module Location.
Record t : Type := mk {
  path : Js.value;
  start_line : Js.value;
  end_line : Js.value;
  start_column : Js.value;
  end_column : Js.value }.
End Location.

(** A finding as a parser emits it.  A field a parser does not set reads as
    [undefined]; [fix_] is the field [fix]. *)
Module Finding.
Record t : Type := mk {
  rule_id : Js.value;
  rule_description : Js.value;
  severity : Js.value;
  category : Js.value;
  message : Js.value;
  location : Location.t;
  code_snippet : Js.value;
  confidence : Js.value;
  cwe : Js.value;
  owasp : Js.value;
  references : Js.value;
  fix_ : Js.value;
  effort : Js.value;
  status : Js.value }.
End Finding.

Module Metadata.
Record t : Type := mk {
  confidence : Js.value;
  cwe : Js.value;
  owasp : Js.value;
  references : Js.value;
  code_snippet : Js.value }.
Definition absent : t := mk Js.Undefined Js.Undefined Js.Undefined Js.Undefined Js.Undefined.
End Metadata.

(** An alert of the Alert schema, as the normalizer builds it and as the
    analyzer reads it. *)
Module Alert.
Record t : Type := mk {
  tool_name : Js.value;
  rule_id : Js.value;
  rule_description : Js.value;
  severity : Js.value;
  security_severity : Js.value;
  state : Js.value;
  location : Location.t;
  message : Js.value;
  category : Js.value;
  metadata : Metadata.t;
  fingerprint : Js.value }.
End Alert.

(* ================================================================== *)
(** ** src/parsers/normalizer.js                                       *)
(* ================================================================== *)

Module ResultNormalizer.
Import Js.

Definition severityMap : list (string * string) :=
  [ ("critical", "error"); ("high", "error");
    ("medium", "warning"); ("low", "note") ].

Definition mapSeverityToCodeQL (severity : value) : value :=
  or_else (lookup severityMap severity) (Str "warning").

Definition normalizeAlert (finding : Finding.t) (toolName : value) : Alert.t :=
  {| Alert.tool_name := toolName;
     Alert.rule_id := Finding.rule_id finding;
     Alert.rule_description :=
       or_else (Finding.rule_description finding) (Finding.message finding);
     Alert.severity := mapSeverityToCodeQL (Finding.severity finding);
     Alert.security_severity := Finding.severity finding;
     Alert.state := Str "open";
     Alert.location :=
       (let l := Finding.location finding in
        Location.mk (Location.path l) (Location.start_line l)
          (Location.end_line l) (Location.start_column l)
          (Location.end_column l));
     Alert.message := Finding.message finding;
     Alert.category := or_else (Finding.category finding) (Str "Other");
     Alert.metadata :=
       {| Metadata.confidence := Finding.confidence finding;
          Metadata.cwe := Finding.cwe finding;
          Metadata.owasp := Finding.owasp finding;
          Metadata.references := Finding.references finding;
          Metadata.code_snippet := Finding.code_snippet finding |};
     Alert.fingerprint := Undefined |}.

Definition createFingerprint (alert : Alert.t) : string :=
  let components :=
    [ Alert.rule_id alert;
      Location.path (Alert.location alert);
      Location.start_line (Alert.location alert);
      Alert.category alert ] in
  join "::" components.

End ResultNormalizer.

(* ================================================================== *)
(** ** src/comparison/analyzer.js                                      *)
(* ================================================================== *)

Module ComparisonAnalyzer.
Import Js.

(** [toolResults]: the entries of the object, tool name first, in the order
    [Object.entries] lists them. *)
Definition toolResults : Type := list (string * list Alert.t).

Record group : Type := mkGroup {
  fingerprint : string;
  alert : Alert.t;
  detectedBy : list string }.

Record overlapData : Type := mkOverlap {
  overlap : list group;
  unique : list group;
  total : nat }.

(** The [fingerprints] object: its values in insertion order. *)
Fixpoint has_group (fp : string) (fingerprints : list group) : bool :=
  match fingerprints with
  | [] => false
  | g :: rest => (fingerprint g =? fp) || has_group fp rest
  end.

(** [if (!fingerprints[fp]) fingerprints[fp] = {fingerprint, alert, detectedBy: []}] *)
Definition ensure_group (fp : string) (a : Alert.t) (fingerprints : list group)
  : list group :=
  if has_group fp fingerprints then fingerprints
  else fingerprints ++ [mkGroup fp a []].

(** [fingerprints[fp].detectedBy.push(toolName)] *)
Fixpoint push_detectedBy (fp toolName : string) (fingerprints : list group)
  : list group :=
  match fingerprints with
  | [] => []
  | g :: rest =>
      if fingerprint g =? fp
      then mkGroup (fingerprint g) (alert g) (detectedBy g ++ [toolName]) :: rest
      else g :: push_detectedBy fp toolName rest
  end.

Definition record_alert (toolName : string) (fingerprints : list group)
  (a : Alert.t) : list group :=
  let fp := ResultNormalizer.createFingerprint a in
  push_detectedBy fp toolName (ensure_group fp a fingerprints).

Definition group_by_fingerprint (results : toolResults) : list group :=
  fold_left
    (fun fingerprints entry =>
       fold_left (record_alert (fst entry)) (snd entry) fingerprints)
    results [].

Definition findOverlap (results : toolResults) : overlapData :=
  let fingerprints := group_by_fingerprint results in
  {| overlap := filter (fun f => (1 <? List.length (detectedBy f))%nat) fingerprints;
     unique := filter (fun f => (List.length (detectedBy f) =? 1)%nat) fingerprints;
     total := List.length fingerprints |}.

(** *** Numbers of [calculateEffectiveness] *)

(** A count as a double (exact below 2^53). *)
Definition number_of_nat (n : nat) : float :=
  PrimFloat.of_uint63 (Uint63.of_Z (Z.of_nat n)).

(** The integer nearest to [100 * m * 2^e], the larger one on a tie. *)
Definition nearest_hundredth (m e : Z) : Z :=
  if (0 <=? e)%Z then 100 * m * 2 ^ e
  else (200 * m + 2 ^ (- e)) / 2 ^ (1 - e).

Fixpoint zeros (n : nat) : string :=
  match n with
  | O => ""
  | S n' => String "0" (zeros n')
  end.

Fixpoint take (n : nat) (s : string) : string :=
  match n, s with
  | O, _ => ""
  | S _, EmptyString => ""
  | S n', String c rest => String c (take n' rest)
  end.

(** The decimal digits of [n], with zeros in front up to three digits. *)
Definition padded (n : Z) : string :=
  let m := string_of_Z n in
  if (String.length m <=? 2)%nat then zeros (3 - String.length m) ++ m else m.

(** The digits of [n] hundredths with the point before the last two. *)
Definition fixed2_digits (n : Z) : string :=
  let m := padded n in
  let k := String.length m in
  take (k - 2) m ++ "." ++ drop (k - 2) m.

(** [x.toFixed(2)] for a double below 10^21. *)
Definition toFixed2 (x : float) : string :=
  match Prim2SF x with
  | S754_nan => "NaN"
  | S754_infinity false => "Infinity"
  | S754_infinity true => "-Infinity"
  | S754_zero _ => "0.00"
  | S754_finite sign m e =>
      (if sign then "-" else "") ++ fixed2_digits (nearest_hundredth (Zpos m) e)
  end.

Record metrics : Type := mkMetrics {
  total_detections : nat;
  unique_detections : nat;
  shared_detections : nat;
  uniqueness_rate : value }.

(** [u.detectedBy[0] === toolName] *)
Definition first_is (toolName : string) (u : group) : bool :=
  match detectedBy u with
  | t :: _ => (t =? toolName)
  | [] => false
  end.

(** [o.detectedBy.includes(toolName)] *)
Definition detected_by (toolName : string) (o : group) : bool :=
  existsb (fun t => (t =? toolName)) (detectedBy o).

Definition tool_metrics (data : overlapData) (toolName : string)
  (alerts : list Alert.t) : metrics :=
  let totalDetections := List.length alerts in
  let uniqueDetections := List.length (filter (first_is toolName) (unique data)) in
  let sharedDetections := List.length (filter (detected_by toolName) (overlap data)) in
  {| total_detections := totalDetections;
     unique_detections := uniqueDetections;
     shared_detections := sharedDetections;
     uniqueness_rate :=
       if (0 <? totalDetections)%nat
       then Str (toFixed2 (number_of_nat uniqueDetections
                           / number_of_nat totalDetections * 100)%float)
       else Num 0 |}.

Definition calculateEffectiveness (results : toolResults) (data : overlapData)
  : list (string * metrics) :=
  map (fun entry => (fst entry, tool_metrics data (fst entry) (snd entry))) results.

Record severity_counts : Type := mkCounts {
  critical : nat;
  high : nat;
  medium : nat;
  low : nat }.

Definition count_severity (level : string) (alerts : list Alert.t) : nat :=
  List.length (filter (fun a => is_str (Alert.security_severity a) level) alerts).

Definition analyzeBySeverity (results : toolResults)
  : list (string * severity_counts) :=
  map (fun entry =>
         (fst entry,
          {| critical := count_severity "critical" (snd entry);
             high := count_severity "high" (snd entry);
             medium := count_severity "medium" (snd entry);
             low := count_severity "low" (snd entry) |}))
      results.

(** [alert.category || 'Other'], as a property key *)
Definition category_key (a : Alert.t) : string :=
  to_string (or_else (Alert.category a) (Str "Other")).

Definition count_categories (alerts : list Alert.t) : list (string * nat) :=
  fold_left (fun counts a => bump (category_key a) counts) alerts [].

Definition analyzeByCategory (results : toolResults)
  : list (string * list (string * nat)) :=
  map (fun entry => (fst entry, count_categories (snd entry))) results.

(** [alert.rule_id?.toLowerCase() || ''] *)
Definition lowered_rule_id (a : Alert.t) : outcome string :=
  if nullish (Alert.rule_id a) then Returns ""
  else lower (Alert.rule_id a).

Definition extractCategory (a : Alert.t) : outcome value :=
  if truthy (Alert.category a) then Returns (Alert.category a)
  else
    ruleId <- lowered_rule_id a ;;
    if includes ruleId "xss" then Returns (Str "XSS")
    else if includes ruleId "sql" then Returns (Str "SQL Injection")
    else if includes ruleId "command" then Returns (Str "Command Injection")
    else if includes ruleId "path" then Returns (Str "Path Traversal")
    else if includes ruleId "csrf" then Returns (Str "CSRF")
    else if includes ruleId "ssrf" then Returns (Str "SSRF")
    else Returns (Str "Other").

Record report : Type := mkReport {
  tools : list string;
  common_findings : nat;
  unique_findings : nat;
  total_unique_issues : nat;
  effectiveness : list (string * metrics);
  by_severity : list (string * severity_counts);
  by_category : list (string * list (string * nat));
  detailed_overlap : list group;
  detailed_unique : list group }.

(** The object [compareRepository] builds for one stored alert. *)
Definition comparable (a : Alert.t) : outcome Alert.t :=
  c <- extractCategory a ;;
  Returns {| Alert.tool_name := Undefined;
             Alert.rule_id := Alert.rule_id a;
             Alert.rule_description := Undefined;
             Alert.severity := Undefined;
             Alert.security_severity := Alert.security_severity a;
             Alert.state := Undefined;
             Alert.location := Alert.location a;
             Alert.message := Undefined;
             Alert.category := c;
             Alert.metadata := Metadata.absent;
             Alert.fingerprint := Str (ResultNormalizer.createFingerprint a) |}.

(** [compareRepository] once the storage has answered with [results]. *)
Definition compareRepository (results : toolResults) : outcome report :=
  normalizedResults <-
    map_outcome
      (fun entry =>
         alerts <- map_outcome comparable (snd entry) ;;
         Returns (fst entry, alerts))
      results ;;
  let data := findOverlap normalizedResults in
  Returns {| tools := map fst results;
             common_findings := List.length (overlap data);
             unique_findings := List.length (unique data);
             total_unique_issues := total data;
             effectiveness := calculateEffectiveness normalizedResults data;
             by_severity := analyzeBySeverity normalizedResults;
             by_category := analyzeByCategory normalizedResults;
             detailed_overlap := overlap data;
             detailed_unique := unique data |}.

End ComparisonAnalyzer.

(* ================================================================== *)
(** ** The parsers                                                     *)
(* ================================================================== *)

(** What [parse] returns.  The failure object carries only [success],
    [error] and [findings]; its other fields read as [undefined]. *)
Module Parsed.
Record stats : Type := mkStats {
  total_findings : nat;
  critical : nat;
  high : nat;
  medium : nat;
  low : nat;
  by_category : list (string * nat) }.

Record t : Type := mk {
  tool_name : Js.value;
  tool_version : Js.value;
  repository : Js.value;
  repository_path : Js.value;
  scan_date : Js.value;
  scan_duration_ms : Js.value;
  findings : list Finding.t;
  stats_of : option stats;
  success : bool;
  error : Js.value }.

Import Js.

Definition failure (scanOutput : value) : t :=
  {| tool_name := Undefined; tool_version := Undefined;
     repository := Undefined; repository_path := Undefined;
     scan_date := Undefined; scan_duration_ms := Undefined;
     findings := []; stats_of := None;
     success := false; error := prop scanOutput "error" |}.

Definition statistics (found : list Finding.t) : stats :=
  {| total_findings := List.length found;
     critical := count_where (fun f => is_str (Finding.severity f) "critical") found;
     high := count_where (fun f => is_str (Finding.severity f) "high") found;
     medium := count_where (fun f => is_str (Finding.severity f) "medium") found;
     low := count_where (fun f => is_str (Finding.severity f) "low") found;
     by_category :=
       fold_left (fun counts f => bump (to_string (Finding.category f)) counts)
                 found [] |}.

Definition completed (scanOutput : value) (found : list Finding.t) : t :=
  {| tool_name := prop scanOutput "tool_name";
     tool_version := prop scanOutput "tool_version";
     repository := prop scanOutput "repository";
     repository_path := prop scanOutput "repository_path";
     scan_date := prop scanOutput "scan_date";
     scan_duration_ms := prop scanOutput "scan_duration_ms";
     findings := found; stats_of := Some (statistics found);
     success := true; error := Undefined |}.

(** The category of a table scan: [return value] inside the loop, [return
    'Other'] after it. *)
Definition scan (table : list (string * string)) (texts : list string) : value :=
  match first_match table texts with
  | Some c => Str c
  | None => Str "Other"
  end.

End Parsed.

(** *** src/parsers/semgrep-parser.js *)

Module SemgrepParser.
Import Js.

Definition severityMap : list (string * string) :=
  [ ("ERROR", "critical"); ("WARNING", "high"); ("INFO", "medium") ].

(** [severityMap[semgrepSeverity?.toUpperCase()] || 'medium'] *)
Definition normalizeSeverity (semgrepSeverity : value) : outcome value :=
  key <- (if nullish semgrepSeverity then Returns Undefined
          else s <- upper semgrepSeverity ;; Returns (Str s)) ;;
  Returns (or_else (lookup severityMap key) (Str "medium")).

Definition categories : list (string * string) :=
  [ ("xss", "XSS");
    ("sql-injection", "SQL Injection");
    ("sqli", "SQL Injection");
    ("command-injection", "Command Injection");
    ("path-traversal", "Path Traversal");
    ("ssrf", "SSRF");
    ("csrf", "CSRF");
    ("hardcoded", "Hardcoded Credentials");
    ("deserialization", "Insecure Deserialization");
    ("auth", "Auth Flaws");
    ("crypto", "Cryptography");
    ("regex", "ReDoS") ].

Definition extractCategory (ruleId : value) : outcome value :=
  lowerRuleId <- lower ruleId ;;
  Returns (Parsed.scan categories [lowerRuleId]).

Definition parseResult (result : value) : outcome Finding.t :=
  rule_id <- get result "check_id" ;;
  let extra := prop result "extra" in
  let metadata := opt extra "metadata" in
  let rule_description :=
    or_else (or_else (opt extra "message") (opt metadata "shortDescription")) Null in
  severity <- normalizeSeverity (opt extra "severity") ;;
  category <- extractCategory rule_id ;;
  Returns
    {| Finding.rule_id := rule_id;
       Finding.rule_description := rule_description;
       Finding.severity := severity;
       Finding.category := category;
       Finding.message := or_else (opt extra "message") (Str "Security issue detected");
       Finding.location :=
         {| Location.path := prop result "path";
            Location.start_line := or_else (opt (prop result "start") "line") Null;
            Location.end_line := or_else (opt (prop result "end") "line") Null;
            Location.start_column := or_else (opt (prop result "start") "col") Null;
            Location.end_column := or_else (opt (prop result "end") "col") Null |};
       Finding.code_snippet := or_else (opt extra "lines") Null;
       Finding.confidence := or_else (opt metadata "confidence") (Str "MEDIUM");
       Finding.cwe := or_else (opt metadata "cwe") (Arr []);
       Finding.owasp := or_else (opt metadata "owasp") (Arr []);
       Finding.references := or_else (opt metadata "references") (Arr []);
       Finding.fix_ := Undefined;
       Finding.effort := Undefined;
       Finding.status := Undefined |}.

Definition parse (scanOutput : value) : outcome Parsed.t :=
  success <- get scanOutput "success" ;;
  if negb (truthy success) then Returns (Parsed.failure scanOutput)
  else
    let rawResults :=
      or_else (opt (prop scanOutput "raw_output") "results") (Arr []) in
    items <- as_array rawResults ;;
    findings <- map_outcome parseResult items ;;
    Returns (Parsed.completed scanOutput findings).

Definition parseMultiple (scanOutputs : list value) : outcome (list Parsed.t) :=
  map_outcome parse scanOutputs.

End SemgrepParser.

(** *** src/parsers/snyk-parser.js *)

Module SnykParser.
Import Js.

Definition severityMap : list (string * string) :=
  [ ("error", "high"); ("warning", "medium"); ("note", "low");
    ("high", "high"); ("medium", "medium"); ("low", "low") ].

(** [severityMap[snykSeverity?.toLowerCase()] || 'medium'] *)
Definition normalizeSeverity (snykSeverity : value) : outcome value :=
  key <- (if nullish snykSeverity then Returns Undefined
          else s <- lower snykSeverity ;; Returns (Str s)) ;;
  Returns (or_else (lookup severityMap key) (Str "medium")).

Definition categories : list (string * string) :=
  [ ("sql", "SQL Injection");
    ("xss", "XSS");
    ("injection", "Code Injection");
    ("command", "Command Injection");
    ("path", "Path Traversal");
    ("traversal", "Path Traversal");
    ("ssrf", "SSRF");
    ("csrf", "CSRF");
    ("hardcoded", "Hardcoded Credentials");
    ("password", "Hardcoded Credentials");
    ("secret", "Hardcoded Credentials");
    ("deserialization", "Insecure Deserialization");
    ("crypto", "Cryptography");
    ("auth", "Auth Flaws");
    ("session", "Session Management");
    ("redirect", "Open Redirect") ].

Definition extractCategory (ruleId message : value) : outcome value :=
  lowerRuleId <- lower ruleId ;;
  lowerMessage <- lower message ;;
  Returns (Parsed.scan categories [lowerRuleId; lowerMessage]).

Definition parseResult (result repositoryPath : value) : outcome Finding.t :=
  ruleId <- get result "ruleId" ;;
  let rule := or_else ruleId (Str "unknown") in
  let message :=
    or_else (opt (prop result "message") "text") (Str "Security issue detected") in
  let level := or_else (prop result "level") (Str "warning") in
  let location := opt (opt_first (prop result "locations")) "physicalLocation" in
  let filePath := or_else (opt (opt location "artifactLocation") "uri") (Str "") in
  let region := opt location "region" in
  severity <- normalizeSeverity level ;;
  category <- extractCategory rule message ;;
  path <- replace_in filePath (to_string repositoryPath ++ "/") ;;
  Returns
    {| Finding.rule_id := rule;
       Finding.rule_description := message;
       Finding.severity := severity;
       Finding.category := category;
       Finding.message := message;
       Finding.location :=
         {| Location.path := path;
            Location.start_line := or_else (opt region "startLine") Null;
            Location.end_line :=
              or_else (or_else (opt region "endLine") (opt region "startLine")) Null;
            Location.start_column := or_else (opt region "startColumn") Null;
            Location.end_column := or_else (opt region "endColumn") Null |};
       Finding.code_snippet := or_else (opt (opt region "snippet") "text") Null;
       Finding.confidence := Str "HIGH";
       Finding.cwe := or_else (opt (prop result "properties") "cwe") (Arr []);
       Finding.owasp := Undefined;
       Finding.references :=
         or_else (opt (prop result "properties") "references") (Arr []);
       Finding.fix_ := Undefined;
       Finding.effort := Undefined;
       Finding.status := Undefined |}.

Definition parse (scanOutput : value) : outcome Parsed.t :=
  success <- get scanOutput "success" ;;
  if negb (truthy success) then Returns (Parsed.failure scanOutput)
  else
    let rawResults :=
      or_else
        (opt (opt_first (opt (prop scanOutput "raw_output") "runs")) "results")
        (Arr []) in
    items <- as_array rawResults ;;
    findings <-
      map_outcome
        (fun result => parseResult result (prop scanOutput "repository_path"))
        items ;;
    Returns (Parsed.completed scanOutput findings).

Definition parseMultiple (scanOutputs : list value) : outcome (list Parsed.t) :=
  map_outcome parse scanOutputs.

End SnykParser.

(** *** src/parsers/eslint-parser.js *)

Module ESLintParser.
Import Js.

Definition criticalRules : list string :=
  [ "security/detect-eval-with-expression";
    "security/detect-unsafe-regex";
    "security/detect-buffer-noassert";
    "security/detect-pseudoRandomBytes";
    "no-unsanitized/method";
    "no-unsanitized/property" ].

Definition normalizeSeverity (eslintSeverity ruleId : value) : value :=
  if existsb (is_str ruleId) criticalRules then Str "high"
  else match eslintSeverity with
       | Num 2 => Str "high"
       | _ => Str "medium"
       end.

Definition categoryMap : list (string * string) :=
  [ ("eval", "Code Injection");
    ("child-process", "Command Injection");
    ("regex", "ReDoS");
    ("csrf", "CSRF");
    ("timing", "Timing Attack");
    ("crypto", "Cryptography");
    ("unsanitized", "XSS");
    ("object-injection", "Injection");
    ("require", "Path Traversal") ].

(** The loop lowers [ruleId] on its first turn, and the table is not empty. *)
Definition extractCategory (ruleId : value) : outcome value :=
  lowered <- lower ruleId ;;
  Returns (Parsed.scan categoryMap [lowered]).

Definition descriptions : list (string * string) :=
  [ ("security/detect-object-injection",
     "Bracket object notation with user input is potentially unsafe");
    ("security/detect-non-literal-regexp",
     "RegExp constructed from non-literal input");
    ("security/detect-unsafe-regex",
     "Potentially unsafe regular expression (ReDoS)");
    ("security/detect-buffer-noassert",
     "Buffer allocation without proper assertion");
    ("security/detect-child-process", "Child process execution detected");
    ("security/detect-disable-mustache-escape", "Mustache escaping disabled");
    ("security/detect-eval-with-expression", "Eval with expression detected");
    ("security/detect-no-csrf-before-method-override",
     "CSRF middleware not before method override");
    ("security/detect-non-literal-fs-filename", "Non-literal filesystem path");
    ("security/detect-non-literal-require", "Non-literal require statement");
    ("security/detect-possible-timing-attacks",
     "Possible timing attack vulnerability");
    ("security/detect-pseudoRandomBytes",
     "Use of pseudo-random bytes for security");
    ("no-unsanitized/method", "Unsanitized method call (potential XSS)");
    ("no-unsanitized/property",
     "Unsanitized property assignment (potential XSS)") ].

Definition getRuleDescription (ruleId : value) : value :=
  or_else (lookup descriptions ruleId) ruleId.

Definition parseMessage (message filePath : value) : outcome Finding.t :=
  ruleId <- get message "ruleId" ;;
  category <- extractCategory ruleId ;;
  Returns
    {| Finding.rule_id := ruleId;
       Finding.rule_description := getRuleDescription ruleId;
       Finding.severity := normalizeSeverity (prop message "severity") ruleId;
       Finding.category := category;
       Finding.message := prop message "message";
       Finding.location :=
         {| Location.path := filePath;
            Location.start_line := prop message "line";
            Location.end_line :=
              or_else (prop message "endLine") (prop message "line");
            Location.start_column := prop message "column";
            Location.end_column :=
              or_else (prop message "endColumn") (prop message "column") |};
       Finding.code_snippet := Null;
       Finding.confidence := Str "HIGH";
       Finding.cwe := Undefined;
       Finding.owasp := Undefined;
       Finding.references := Undefined;
       Finding.fix_ := if truthy (prop message "fix") then Str "available" else Null;
       Finding.effort := Undefined;
       Finding.status := Undefined |}.

(** One turn of [rawResults.forEach]: the findings of one file. *)
Definition parseFile (scanOutput fileResult : value) : outcome (list Finding.t) :=
  filePath <- get fileResult "filePath" ;;
  relativePath <-
    replace_in filePath (to_string (prop scanOutput "repository_path") ++ "/") ;;
  messages <- as_array (prop fileResult "messages") ;;
  map_outcome (fun message => parseMessage message relativePath) messages.

Definition parse (scanOutput : value) : outcome Parsed.t :=
  success <- get scanOutput "success" ;;
  if negb (truthy success) then Returns (Parsed.failure scanOutput)
  else
    let rawResults := or_else (prop scanOutput "raw_output") (Arr []) in
    items <- as_array rawResults ;;
    perFile <- map_outcome (parseFile scanOutput) items ;;
    Returns (Parsed.completed scanOutput (List.concat perFile)).

Definition parseMultiple (scanOutputs : list value) : outcome (list Parsed.t) :=
  map_outcome parse scanOutputs.

End ESLintParser.

(** *** src/parsers/sonarqube-parser.js *)

Module SonarQubeParser.
Import Js.

Definition severityMap : list (string * string) :=
  [ ("BLOCKER", "critical"); ("CRITICAL", "critical"); ("MAJOR", "high");
    ("MINOR", "medium"); ("INFO", "low") ].

(** [severityMap[sonarSeverity?.toUpperCase()] || 'medium'] *)
Definition normalizeSeverity (sonarSeverity : value) : outcome value :=
  key <- (if nullish sonarSeverity then Returns Undefined
          else s <- upper sonarSeverity ;; Returns (Str s)) ;;
  Returns (or_else (lookup severityMap key) (Str "medium")).

Definition categories : list (string * string) :=
  [ ("sql", "SQL Injection");
    ("xss", "XSS");
    ("injection", "Code Injection");
    ("command", "Command Injection");
    ("path", "Path Traversal");
    ("traversal", "Path Traversal");
    ("ssrf", "SSRF");
    ("csrf", "CSRF");
    ("password", "Hardcoded Credentials");
    ("secret", "Hardcoded Credentials");
    ("hardcoded", "Hardcoded Credentials");
    ("deserialization", "Insecure Deserialization");
    ("crypto", "Cryptography");
    ("auth", "Auth Flaws");
    ("session", "Session Management");
    ("redirect", "Open Redirect");
    ("xxe", "XXE");
    ("ldap", "LDAP Injection") ].

Definition extractCategory (rule message : value) : outcome value :=
  lowerRule <- lower rule ;;
  lowerMessage <- lower message ;;
  Returns (Parsed.scan categories [lowerRule; lowerMessage]).

(** [issue.component?.replace(/.*:/, '')] *)
Definition component_path (component : value) : outcome value :=
  match component with
  | Undefined | Null => Returns Undefined
  | Str s => Returns (Str (strip_to_last_colon s))
  | _ => Throws TypeError
  end.

Definition parseIssue (issue : value) : outcome Finding.t :=
  ruleField <- get issue "rule" ;;
  let rule := or_else ruleField (Str "unknown") in
  let message := or_else (prop issue "message") (Str "Security issue detected") in
  let severity := or_else (prop issue "severity") (Str "MAJOR") in
  normalized <- normalizeSeverity severity ;;
  category <- extractCategory rule message ;;
  path <- component_path (prop issue "component") ;;
  let textRange := prop issue "textRange" in
  Returns
    {| Finding.rule_id := rule;
       Finding.rule_description := message;
       Finding.severity := normalized;
       Finding.category := category;
       Finding.message := message;
       Finding.location :=
         {| Location.path := or_else path (Str "");
            Location.start_line :=
              or_else (or_else (prop issue "line") (opt textRange "startLine")) Null;
            Location.end_line :=
              or_else (or_else (opt textRange "endLine") (prop issue "line")) Null;
            Location.start_column := or_else (opt textRange "startOffset") Null;
            Location.end_column := or_else (opt textRange "endOffset") Null |};
       Finding.code_snippet := Null;
       Finding.confidence :=
         if is_str (prop issue "type") "VULNERABILITY" then Str "HIGH"
         else Str "MEDIUM";
       Finding.cwe := Undefined;
       Finding.owasp := Undefined;
       Finding.references := Undefined;
       Finding.fix_ := Undefined;
       Finding.effort := or_else (prop issue "effort") Null;
       Finding.status := or_else (prop issue "status") (Str "OPEN") |}.

Definition parse (scanOutput : value) : outcome Parsed.t :=
  success <- get scanOutput "success" ;;
  if negb (truthy success) then Returns (Parsed.failure scanOutput)
  else
    let rawIssues :=
      or_else (opt (prop scanOutput "raw_output") "issues") (Arr []) in
    items <- as_array rawIssues ;;
    findings <- map_outcome parseIssue items ;;
    Returns (Parsed.completed scanOutput findings).

Definition parseMultiple (scanOutputs : list value) : outcome (list Parsed.t) :=
  map_outcome parse scanOutputs.

End SonarQubeParser.

(* ================================================================== *)
(** ** src/parsers/normalizer.js, over parsed results                  *)
(* ================================================================== *)

(** An analysis of the Analysis schema, and the functions of
    [ResultNormalizer] that work on whole parsed results. *)
Module Analysis.
Import Js.

Record t : Type := mk {
  tool_name : value;
  tool_version : value;
  repository : value;
  scan_date : value;
  scan_duration_ms : value;
  results_count : nat;
  stats : option Parsed.stats;
  alerts : list Alert.t }.

(** [results_count] is [parsedResult.stats?.total_findings || 0]. *)
Definition normalizeAnalysis (parsedResult : Parsed.t) : t :=
  {| tool_name := Parsed.tool_name parsedResult;
     tool_version := Parsed.tool_version parsedResult;
     repository := Parsed.repository parsedResult;
     scan_date := Parsed.scan_date parsedResult;
     scan_duration_ms := Parsed.scan_duration_ms parsedResult;
     results_count :=
       match Parsed.stats_of parsedResult with
       | Some s => Parsed.total_findings s
       | None => 0%nat
       end;
     stats := Parsed.stats_of parsedResult;
     alerts :=
       map (fun finding =>
              ResultNormalizer.normalizeAlert finding (Parsed.tool_name parsedResult))
           (Parsed.findings parsedResult) |}.

Definition normalizeMultiple (parsedResults : list Parsed.t) : list t :=
  map normalizeAnalysis parsedResults.

(** [{...alert, fingerprint: this.createFingerprint(alert)}] *)
Definition fingerprinted (alert : Alert.t) : Alert.t :=
  {| Alert.tool_name := Alert.tool_name alert;
     Alert.rule_id := Alert.rule_id alert;
     Alert.rule_description := Alert.rule_description alert;
     Alert.severity := Alert.severity alert;
     Alert.security_severity := Alert.security_severity alert;
     Alert.state := Alert.state alert;
     Alert.location := Alert.location alert;
     Alert.message := Alert.message alert;
     Alert.category := Alert.category alert;
     Alert.metadata := Alert.metadata alert;
     Alert.fingerprint := Str (ResultNormalizer.createFingerprint alert) |}.

(** One turn of the [forEach] of [compareFindings]. *)
Definition file_result (findingsByRepo : list (string * list (string * list Alert.t)))
  (result : t) : list (string * list (string * list Alert.t)) :=
  let repoName := to_string (repository result) in
  let byTool :=
    match assoc repoName findingsByRepo with
    | Some tools => tools
    | None => []
    end in
  store repoName
    (store (to_string (tool_name result)) (map fingerprinted (alerts result)) byTool)
    findingsByRepo.

(** [findingsByRepo]: repository name, then tool name, then the alerts. *)
Definition compareFindings (normalizedResults : list t)
  : list (string * list (string * list Alert.t)) :=
  fold_left file_result normalizedResults [].

End Analysis.

(* ================================================================== *)
(** ** src/scanners/eslint-scanner.js                                  *)
(* ================================================================== *)

(** The part of [scan] that follows the answer of [eslint.lintFiles]. *)
Module ESLintScanner.
Import Js.

(** [msg.ruleId && (msg.ruleId.startsWith('security/') ||
    msg.ruleId.startsWith('no-unsanitized/'))]: only a string has
    [startsWith]. *)
Definition is_security (msg : value) : outcome bool :=
  ruleId <- get msg "ruleId" ;;
  if truthy ruleId then
    match ruleId with
    | Str s => Returns (startsWith s "security/" || startsWith s "no-unsanitized/")
    | _ => Throws TypeError
    end
  else Returns false.

(** [{...result, messages: result.messages.filter(...)}]: only an object
    holds an array under [messages]. *)
Definition security_result (result : value) : outcome value :=
  messages <- get result "messages" ;;
  items <- as_array messages ;;
  kept <- filter_outcome is_security items ;;
  match result with
  | Obj fields => Returns (Obj (store "messages" (Arr kept) fields))
  | _ => Throws TypeError
  end.

(** [result.messages.length > 0] *)
Definition has_messages (result : value) : bool :=
  match prop result "messages" with
  | Arr (_ :: _) => true
  | _ => false
  end.

Definition securityResults (results : list value) : outcome (list value) :=
  mapped <- map_outcome security_result results ;;
  Returns (filter has_messages mapped).

(** [r.messages.length] *)
Definition messages_length (r : value) : nat :=
  match prop r "messages" with
  | Arr items => List.length items
  | _ => 0%nat
  end.

(** [securityResults.reduce((sum, r) => sum + r.messages.length, 0)] *)
Definition totalIssues (securityResults : list value) : nat :=
  fold_left (fun sum r => (sum + messages_length r)%nat) securityResults 0%nat.

End ESLintScanner.

(* ================================================================== *)
(** ** src/database/storage.js                                         *)
(* ================================================================== *)

Module ResultStorage.
Import Js.

(** An Alert document as [Alert.find(...).populate('analysis')] answers it:
    the alert, and the analysis it points to. *)
Record document : Type := mkDocument {
  analysis : value;
  alert : Alert.t }.

(** The [forEach] of [getToolComparison], from the documents left to file.
    Under a name [byTool] inherits, [byTool[toolName]] is the inherited
    member: no list is made, and the member has no [push]. *)
Fixpoint file_alerts (alerts : list document)
  (byTool : ComparisonAnalyzer.toolResults)
  : outcome ComparisonAnalyzer.toolResults :=
  match alerts with
  | [] => Returns byTool
  | doc :: rest =>
      toolName <- get (analysis doc) "tool_name" ;;
      if own_key (to_string toolName)
      then file_alerts rest (push (to_string toolName) (alert doc) byTool)
      else Throws TypeError
  end.

(** [getToolComparison] once the database has answered with [alerts]. *)
Definition getToolComparison (alerts : list document)
  : outcome ComparisonAnalyzer.toolResults :=
  file_alerts alerts [].

End ResultStorage.

(* ================================================================== *)
(** ** src/index.js                                                    *)
(* ================================================================== *)

Module MultiToolScanner.
Import Js.

Record allResults : Type := mkResults {
  semgrep : list Parsed.t;
  snyk : list Parsed.t;
  normalized : list Analysis.t;
  stored : list value }.

(** [scanAll] once the two scanners have answered with [semgrepResults] and
    [snykResults]; [storage] is the [storeMultiple] of the storage, when
    there is one. *)
Definition scanAll (storage : option (list Analysis.t -> list value))
  (semgrepResults snykResults : list value) : outcome allResults :=
  semgrepParsed <- SemgrepParser.parseMultiple semgrepResults ;;
  snykParsed <- SnykParser.parseMultiple snykResults ;;
  let normalizedSemgrep := Analysis.normalizeMultiple semgrepParsed in
  let normalizedSnyk := Analysis.normalizeMultiple snykParsed in
  let normalized := (normalizedSemgrep ++ normalizedSnyk)%list in
  Returns {| semgrep := semgrepParsed;
             snyk := snykParsed;
             normalized := normalized;
             stored := match storage with
                       | Some storeMultiple => storeMultiple normalized
                       | None => []
                       end |}.

(** [r.stats?.total_findings || 0] *)
Definition total_findings (r : Parsed.t) : nat :=
  match Parsed.stats_of r with
  | Some s => Parsed.total_findings s
  | None => 0%nat
  end.

(** The numbers [printSummary] computes, under the names of its locals. *)
Definition semgrepFindings (results : allResults) : nat :=
  fold_left (fun sum r => (sum + total_findings r)%nat) (semgrep results) 0%nat.

Definition snykFindings (results : allResults) : nat :=
  fold_left (fun sum r => (sum + total_findings r)%nat) (snyk results) 0%nat.

Definition allAlerts (results : allResults) : list Alert.t :=
  flat_map Analysis.alerts (normalized results).

Definition bySeverity (results : allResults) : ComparisonAnalyzer.severity_counts :=
  {| ComparisonAnalyzer.critical :=
       ComparisonAnalyzer.count_severity "critical" (allAlerts results);
     ComparisonAnalyzer.high :=
       ComparisonAnalyzer.count_severity "high" (allAlerts results);
     ComparisonAnalyzer.medium :=
       ComparisonAnalyzer.count_severity "medium" (allAlerts results);
     ComparisonAnalyzer.low :=
       ComparisonAnalyzer.count_severity "low" (allAlerts results) |}.

Definition byTool (results : allResults) : list (string * nat) :=
  fold_left
    (fun counts result =>
       add_count (to_string (Analysis.tool_name result))
                 (List.length (Analysis.alerts result)) counts)
    (normalized results) [].

Definition newline : string := String "010" EmptyString.

(** The lines [printSummary] logs, one per call of [console.log]. *)
Definition printSummary (results : allResults) : list string :=
  [ newline ++ "=== Scan Summary ===";
    newline ++ "Semgrep:     " ++ string_of_nat (semgrepFindings results) ++ " findings";
    "Snyk Code:   " ++ string_of_nat (snykFindings results) ++ " findings";
    "Total:       "
      ++ string_of_nat (semgrepFindings results + snykFindings results)
      ++ " findings";
    newline ++ "By Severity:";
    "  Critical: " ++ string_of_nat (ComparisonAnalyzer.critical (bySeverity results));
    "  High:     " ++ string_of_nat (ComparisonAnalyzer.high (bySeverity results));
    "  Medium:   " ++ string_of_nat (ComparisonAnalyzer.medium (bySeverity results));
    "  Low:      " ++ string_of_nat (ComparisonAnalyzer.low (bySeverity results));
    newline ++ "By Tool:" ]
  ++ map (fun entry => "  " ++ fst entry ++ ": " ++ string_of_nat (snd entry))
         (byTool results).

End MultiToolScanner.

(* ================================================================== *)
(** ** Doubles                                                         *)
(* ================================================================== *)

(** Predicates on the binary64 values [calculateEffectiveness] computes
    with, stated on the specification of the primitive floats. *)
Module Binary64.
Local Open Scope Z_scope.

Definition inexact (mrs : shr_record) : bool := shr_r mrs || shr_s mrs.

(** The mantissa of a shifted record at exponent [e] does not exceed
    [K * 2^k], strictly when bits were lost. *)
Definition under (K k : Z) (mrs : shr_record) (e : Z) : Prop :=
  0 <= shr_m mrs
  /\ shr_m mrs <= K * 2 ^ (k - e)
  /\ (inexact mrs = true -> shr_m mrs < K * 2 ^ (k - e)).

(** A double that holds the integer [n] exactly, normalised to 53 bits. *)
Definition holds (n : Z) (f : spec_float) : Prop :=
  match f with
  | S754_zero _ => n = 0
  | S754_finite false m e =>
      -52 <= e <= 0 /\ Zpos m = n * 2 ^ (- e) /\ Zpos (digits2_pos m) = 53
  | _ => False
  end.

(** A double that is zero or positive and at most [K * 2^k]. *)
Definition below (K k : Z) (f : spec_float) : Prop :=
  match f with
  | S754_zero _ => True
  | S754_finite false m e => e <= k /\ Zpos m <= K * 2 ^ (k - e)
  | _ => False
  end.

End Binary64.

(* ================================================================== *)
(** ** The specification in its own words                             *)
(* ================================================================== *)

Module Spec.
Import Js.

(** The category vocabulary of the data model. *)
Definition vocabulary : list string :=
  [ "XSS"; "SQL Injection"; "Command Injection"; "Path Traversal"; "SSRF";
    "CSRF"; "Hardcoded Credentials"; "Insecure Deserialization";
    "Cryptography"; "Auth Flaws"; "Session Management"; "Open Redirect";
    "ReDoS"; "Other" ].

(** The categories the tables of the parsers name beyond it. *)
Definition tool_specific : list string :=
  [ "Code Injection"; "Timing Attack"; "Injection"; "XXE"; "LDAP Injection" ].

(** The keywords of [ComparisonAnalyzer.extractCategory], in the order of its tests. *)
Definition analyzer_keywords : list (string * string) :=
  [ ("xss", "XSS"); ("sql", "SQL Injection"); ("command", "Command Injection");
    ("path", "Path Traversal"); ("csrf", "CSRF"); ("ssrf", "SSRF") ].

(** The classifier as the specification words it: the keywords are matched
    against the concatenation of the rule id and the message. *)
Definition classifyCategory (table : list (string * string))
  (ruleId message : string) (existingCategory : value) : value :=
  if truthy existingCategory then existingCategory
  else Parsed.scan table [toLowerCase (ruleId ++ message)].

(** The fingerprint as the specification words it, with [sentinel] for a
    null start line. *)
Definition fingerprint (sentinel : string) (a : Alert.t) : string :=
  let line := Location.start_line (Alert.location a) in
  String.concat "::"
    [ to_string (Alert.rule_id a);
      to_string (Location.path (Alert.location a));
      if nullish line then sentinel else to_string line;
      to_string (Alert.category a) ].

(** The exact percentage of the specification. *)
Definition uniqueness_rate (unique_detections total_detections : nat) : Q :=
  if (0 <? total_detections)%nat
  then inject_Z (Z.of_nat unique_detections)
       / inject_Z (Z.of_nat total_detections) * 100
  else 0.

Fixpoint split_at_point (s : string) : string * string :=
  match s with
  | EmptyString => (EmptyString, EmptyString)
  | String c rest =>
      if Ascii.eqb c "." then (EmptyString, rest)
      else let '(whole, fraction) := split_at_point rest in
           (String c whole, fraction)
  end.

(** The number an unsigned decimal text such as ["33.33"] reads as. *)
Definition number_of_text (s : string) : option Q :=
  let '(whole, fraction) := split_at_point s in
  match NilZero.uint_of_string (whole ++ fraction) with
  | Some digits =>
      Some (Z.of_uint digits # Pos.of_nat (10 ^ String.length fraction))
  | None => None
  end.

(** The number a stored rate stands for. *)
Definition number_of (rate : value) : option Q :=
  match rate with
  | Num n => Some (inject_Z n)
  | Str s => number_of_text s
  | _ => None
  end.


(** The same tools with the same findings, the tools and the findings of
    each tool in any order. *)
Definition same_findings (r1 r2 : ComparisonAnalyzer.toolResults) : Prop :=
  exists r,
    Permutation r1 r
    /\ Forall2 (fun e1 e2 => fst e1 = fst e2 /\ Permutation (snd e1) (snd e2)) r r2.


Definition is_string (v : value) : bool :=
  match v with
  | Str _ => true
  | _ => false
  end.

(** A Semgrep result with the fields the scanner always delivers: a record
    whose [check_id] is a string and whose [extra.severity], when present,
    is a string.  Every other field may be absent. *)
Definition semgrep_shaped (result : value) : bool :=
  negb (nullish result)
  && is_string (prop result "check_id")
  && (let severity := opt (prop result "extra") "severity" in
      nullish severity || is_string severity).


Inductive adapter : Type := Semgrep | Snyk | ESLint | SonarQube.

Definition adapt (tool : adapter) (scanOutput : value) : outcome Parsed.t :=
  match tool with
  | Semgrep => SemgrepParser.parse scanOutput
  | Snyk => SnykParser.parse scanOutput
  | ESLint => ESLintParser.parse scanOutput
  | SonarQube => SonarQubeParser.parse scanOutput
  end.

(** The categories the table of an adapter can answer. *)
Definition emitted (tool : adapter) : list string :=
  match tool with
  | Semgrep => map snd SemgrepParser.categories ++ ["Other"]
  | Snyk => map snd SnykParser.categories ++ ["Other"]
  | ESLint => map snd ESLintParser.categoryMap ++ ["Other"]
  | SonarQube => map snd SonarQubeParser.categories ++ ["Other"]
  end.

End Spec.

(* ================================================================== *)
(** ** The index of findOverlap, seen from its reports                *)
(* ================================================================== *)

Module Index.
Import Js.

(** Every report of the input, tool name first, in the order [findOverlap]
    walks them. *)
Definition reports (results : ComparisonAnalyzer.toolResults) : list (string * Alert.t) :=
  flat_map (fun entry => map (pair (fst entry)) (snd entry)) results.

(** The reports that carry a fingerprint, and the tools that made them. *)
Definition reports_of (fp : string) (l : list (string * Alert.t))
  : list (string * Alert.t) :=
  filter (fun p => ResultNormalizer.createFingerprint (snd p) =? fp) l.

Definition detectors (fp : string) (l : list (string * Alert.t)) : list string :=
  map fst (reports_of fp l).

(** [fingerprints[fp]] *)
Definition find_group (fp : string) (fingerprints : list ComparisonAnalyzer.group)
  : option ComparisonAnalyzer.group :=
  find (fun g => ComparisonAnalyzer.fingerprint g =? fp) fingerprints.

Definition keys (fingerprints : list ComparisonAnalyzer.group) : list string :=
  map ComparisonAnalyzer.fingerprint fingerprints.

(** A group after one more [push] on its [detectedBy]. *)
Definition add_detector (toolName : string) (g : ComparisonAnalyzer.group) :
  ComparisonAnalyzer.group :=
  ComparisonAnalyzer.mkGroup (ComparisonAnalyzer.fingerprint g) (ComparisonAnalyzer.alert g)
    (ComparisonAnalyzer.detectedBy g ++ [toolName]).

(** The index after the reports [l] are recorded into [gs]. *)
Definition fold_reports (l : list (string * Alert.t)) (gs : list ComparisonAnalyzer.group)
  : list ComparisonAnalyzer.group :=
  fold_left (fun gs p => ComparisonAnalyzer.record_alert (fst p) gs (snd p)) l gs.

End Index.

(* ================================================================== *)
(** ** Sample inputs                                                  *)
(* ================================================================== *)

Module Sample.
Import Js.

(** An alert with the four identity fields set. *)
Definition identity_alert (rule path line category message : value) : Alert.t :=
  {| Alert.tool_name := Undefined;
     Alert.rule_id := rule;
     Alert.rule_description := Undefined;
     Alert.severity := Undefined;
     Alert.security_severity := Undefined;
     Alert.state := Undefined;
     Alert.location := Location.mk path line Undefined Undefined Undefined;
     Alert.message := message;
     Alert.category := category;
     Alert.metadata := Metadata.absent;
     Alert.fingerprint := Undefined |}.

Definition xss_alert : Alert.t :=
  identity_alert (Str "xss-1") (Str "index.js") (Num 15) (Str "XSS") Undefined.

Definition sqli_alert : Alert.t :=
  identity_alert (Str "sqli-2") (Str "db.js") (Num 40) (Str "SQL Injection")
    Undefined.

Definition null_line_alert : Alert.t :=
  identity_alert (Str "r") (Str "p") Null (Str "c") Undefined.

Definition empty_line_alert : Alert.t :=
  identity_alert (Str "r") (Str "p") (Str "") (Str "c") Undefined.

Definition uncategorised_alert : Alert.t :=
  identity_alert (Str "rule-1") (Str "view.js") (Num 7) Undefined
    (Str "Reflected XSS in template").

(** Two tools with one shared finding, and the same input with the tools
    and the findings of the second tool in the other order. *)
Definition scenario : ComparisonAnalyzer.toolResults :=
  [ ("A", [xss_alert]); ("B", [xss_alert; sqli_alert]) ].

Definition scenario_reordered : ComparisonAnalyzer.toolResults :=
  [ ("B", [sqli_alert; xss_alert]); ("A", [xss_alert]) ].

(** One tool with three findings, two of them on one fingerprint. *)
Definition one_in_three : ComparisonAnalyzer.toolResults :=
  [ ("A", [sqli_alert; xss_alert; xss_alert]) ].

(** Scan outputs of a scan rooted at [/work/repo]. *)
Definition scan_output (raw : value) : value :=
  Obj [ ("success", Boolean true);
        ("repository", Str "repo");
        ("repository_path", Str "/work/repo");
        ("raw_output", raw) ].

Definition semgrep_output : value :=
  scan_output
    (Obj [ ("results",
            Arr [ Obj [ ("check_id", Str "javascript.express.security.xss");
                        ("path", Str "/work/repo/index.js");
                        ("start", Obj [ ("line", Num 15) ]) ] ]) ]).

Definition snyk_output : value :=
  scan_output
    (Obj [ ("runs",
            Arr [ Obj [ ("results",
              Arr [ Obj [ ("ruleId", Str "javascript/xss");
                          ("locations",
                           Arr [ Obj [ ("physicalLocation",
                             Obj [ ("artifactLocation",
                                    Obj [ ("uri", Str "/work/repo/index.js") ]);
                                   ("region",
                                    Obj [ ("startLine", Num 15) ]) ]) ] ]) ] ]) ] ]) ]).

(** A Semgrep result without [check_id]. *)
Definition semgrep_no_rule_id : value :=
  scan_output (Obj [ ("results", Arr [ Obj [ ("path", Str "index.js") ] ]) ]).

(** An ESLint message whose [ruleId] is [null], as ESLint reports a parse
    error. *)
Definition eslint_null_rule : value :=
  scan_output
    (Arr [ Obj [ ("filePath", Str "/work/repo/index.js");
                 ("messages",
                  Arr [ Obj [ ("ruleId", Null); ("severity", Num 2);
                              ("message", Str "Parsing error");
                              ("line", Num 1); ("column", Num 1) ] ]) ] ]).

Definition eslint_eval : value :=
  scan_output
    (Arr [ Obj [ ("filePath", Str "/work/repo/index.js");
                 ("messages",
                  Arr [ Obj [ ("ruleId", Str "security/detect-eval-with-expression");
                              ("severity", Num 2);
                              ("message", Str "eval with argument of type Identifier");
                              ("line", Num 3); ("column", Num 5) ] ]) ] ]).



(** The finding the ESLint parser is expected to build from [eslint_eval]. *)
Definition eslint_eval_finding : Finding.t :=
  {| Finding.rule_id := Str "security/detect-eval-with-expression";
     Finding.rule_description := Str "Eval with expression detected";
     Finding.severity := Str "high";
     Finding.category := Str "Code Injection";
     Finding.message := Str "eval with argument of type Identifier";
     Finding.location :=
       Location.mk (Str "index.js") (Num 3) (Num 3) (Num 5) (Num 5);
     Finding.code_snippet := Null;
     Finding.confidence := Str "HIGH";
     Finding.cwe := Undefined;
     Finding.owasp := Undefined;
     Finding.references := Undefined;
     Finding.fix_ := Null;
     Finding.effort := Undefined;
     Finding.status := Undefined |}.

End Sample.

(* ================================================================== *)
(** ** Notions the properties of the pipeline are stated with         *)
(* ================================================================== *)

Module Derived.
Import Js.

(** Every alert of the input of [findOverlap], tool after tool. *)
Definition all_alerts (results : ComparisonAnalyzer.toolResults) : list Alert.t :=
  flat_map snd results.

(** The distinct fingerprints of a list of alerts. *)
Definition fingerprints (alerts : list Alert.t) : list string :=
  nodup string_dec (map ResultNormalizer.createFingerprint alerts).

(** The reports a list of groups accounts for: the entries of their
    [detectedBy] lists. *)
Fixpoint reports_count (gs : list ComparisonAnalyzer.group) : nat :=
  match gs with
  | [] => 0
  | g :: rest =>
      List.length (ComparisonAnalyzer.detectedBy g) + reports_count rest
  end.

(** The first alert of a list that carries a fingerprint. *)
Definition first_with (fp : string) (alerts : list Alert.t) : option Alert.t :=
  find (fun a => ResultNormalizer.createFingerprint a =? fp) alerts.

(** An alert [ComparisonAnalyzer.extractCategory] can classify: it has a
    category, or its rule id is absent or a string. *)
Definition classifiable (a : Alert.t) : bool :=
  truthy (Alert.category a)
  || nullish (Alert.rule_id a)
  || Spec.is_string (Alert.rule_id a).

(** The canonical severities the table of an adapter can answer. *)
Definition levels (tool : Spec.adapter) : list string :=
  match tool with
  | Spec.Semgrep => ["critical"; "high"; "medium"]
  | Spec.Snyk => ["high"; "medium"; "low"]
  | Spec.ESLint => ["high"; "medium"]
  | Spec.SonarQube => ["critical"; "high"; "medium"; "low"]
  end.

(** The CodeQL token of a canonical severity. *)
Definition token (level : string) : string :=
  if (level =? "critical") || (level =? "high") then "error"
  else if level =? "medium" then "warning"
  else "note".

(** The number of findings filed under a category key. *)
Definition filed_under (c : string) (found : list Finding.t) : nat :=
  count_where (fun f => to_string (Finding.category f) =? c) found.

(** What [normalizeSeverity] of a table parser answers on [v]: a level of
    [levels] when [v] is absent or a string, a TypeError otherwise. *)
Definition severity_outcome (v : value) (levels : list string)
  (result : outcome value) : Prop :=
  match result with
  | Returns s =>
      (nullish v = true \/ Spec.is_string v = true)
      /\ exists level, s = Str level /\ In level levels
  | Throws e => e = TypeError /\ nullish v = false /\ Spec.is_string v = false
  end.

(** The severity token the Snyk parser looks up for a result, and the
    results of a scan output as the parser reads them. *)
Definition snyk_token (result : value) : value :=
  or_else (prop result "level") (Str "warning").

Definition snyk_results (scanOutput : value) : list value :=
  match or_else
          (opt (opt_first (opt (prop scanOutput "raw_output") "runs")) "results")
          (Arr []) with
  | Arr items => items
  | _ => []
  end.

(** A small letter of ASCII, and a string that holds one. *)
Definition small_letter (c : ascii) : bool :=
  (97 <=? nat_of_ascii c)%nat && (nat_of_ascii c <=? 122)%nat.

Fixpoint has_small (s : string) : bool :=
  match s with
  | EmptyString => false
  | String c rest => small_letter c || has_small rest
  end.

(** A token a table answers from its own entries: once lowered, it names
    no member of [Object.prototype]. *)
Definition plain_token (v : value) : bool :=
  match v with
  | Str s => own_key (toLowerCase s)
  | _ => true
  end.

(** A scan output whose severity tokens the table of its parser answers
    from its own entries.  The Semgrep and SonarQube tables are read with
    tokens in upper case and the ESLint parser has no table, so that only
    a token of Snyk can name a member of [Object.prototype]. *)
Definition plain (tool : Spec.adapter) (scanOutput : value) : bool :=
  match tool with
  | Spec.Snyk =>
      forallb (fun result => plain_token (snyk_token result))
              (snyk_results scanOutput)
  | _ => true
  end.

(** The names of the repository and of the tool of an analysis are keys of
    own entries. *)
Definition own_names (r : Analysis.t) : bool :=
  own_key (to_string (Analysis.repository r))
  && own_key (to_string (Analysis.tool_name r)).

(** [findingsByRepo[repo][tool]] *)
Definition filed (repo tool : string)
  (findingsByRepo : list (string * list (string * list Alert.t)))
  : option (list Alert.t) :=
  match assoc repo findingsByRepo with
  | Some byTool => assoc tool byTool
  | None => None
  end.

(** The last analysis of a repository by a tool. *)
Definition last_analysis (repo tool : string) (results : list Analysis.t)
  : option Analysis.t :=
  find (fun r => (to_string (Analysis.repository r) =? repo)
                 && (to_string (Analysis.tool_name r) =? tool))
       (rev results).

(** The key a stored alert is filed under, and the alerts of a key in the
    order the database answered them. *)
Definition tool_of (doc : ResultStorage.document) : string :=
  to_string (prop (ResultStorage.analysis doc) "tool_name").

Definition alerts_of (tool : string) (docs : list ResultStorage.document)
  : list Alert.t :=
  map ResultStorage.alert (filter (fun doc => tool_of doc =? tool) docs).

(** A rule of the two security plugins. *)
Definition security_rule (ruleId : string) : bool :=
  startsWith ruleId "security/" || startsWith ruleId "no-unsanitized/".

(** A message the security filter of the ESLint scanner keeps. *)
Definition security_message (msg : value) : Prop :=
  nullish msg = false
  /\ exists ruleId, prop msg "ruleId" = Str ruleId /\ security_rule ruleId = true.

(** A string of ASCII characters without line terminator. *)
Fixpoint single_line (s : string) : bool :=
  match s with
  | EmptyString => true
  | String c rest =>
      (nat_of_ascii c <? 128)%nat && negb (is_line_terminator c) && single_line rest
  end.

(** The printed form of a component of the fingerprint holds no colon. *)
Definition colon_free (v : value) : bool := negb (includes (join_piece v) ":").

(** The three components of the fingerprint that stand before a separator
    hold no colon. *)
Definition separable (a : Alert.t) : bool :=
  colon_free (Alert.rule_id a)
  && colon_free (Location.path (Alert.location a))
  && colon_free (Location.start_line (Alert.location a)).

(** A value the code can print.  [String(v)], a template literal, [join],
    [v + '/'] and the conversion to a property key call [toString], which
    an object inherits unless it has a member of that name of its own; the
    member of an object read from data is no function, and the conversion
    then raises. *)
Fixpoint printable (v : value) : bool :=
  match v with
  | Arr items => forallb printable items
  | Obj fields => negb (existsb (fun entry => fst entry =? "toString") fields)
  | _ => true
  end.

(** The components of the fingerprint and the category key of an alert can
    be printed. *)
Definition printable_alert (a : Alert.t) : bool :=
  printable (Alert.rule_id a)
  && printable (Location.path (Alert.location a))
  && printable (Location.start_line (Alert.location a))
  && printable (Alert.category a).

(** An analysis [compareFindings] can file: the names of its repository
    and of its tool can be printed and are keys of own entries, and its
    alerts have a fingerprint. *)
Definition filable (r : Analysis.t) : bool :=
  own_names r
  && printable (Analysis.repository r)
  && printable (Analysis.tool_name r)
  && forallb printable_alert (Analysis.alerts r).

(** A field that is a string when it is there. *)
Definition string_or_absent (v : value) : bool := nullish v || Spec.is_string v.

(** The raw records a parser turns into a finding: the fields it calls a
    string method on are strings, after the defaults of the parser. *)
Definition parsable (tool : Spec.adapter) (record : value) : bool :=
  match tool with
  | Spec.Semgrep => Spec.semgrep_shaped record
  | Spec.Snyk =>
      negb (nullish record)
      && Spec.is_string (or_else (prop record "ruleId") (Str "unknown"))
      && Spec.is_string
           (or_else (opt (prop record "message") "text")
                    (Str "Security issue detected"))
      && Spec.is_string (or_else (prop record "level") (Str "warning"))
      && Spec.is_string
           (or_else
              (opt (opt (opt (opt_first (prop record "locations"))
                             "physicalLocation") "artifactLocation") "uri")
              (Str ""))
  | Spec.ESLint => negb (nullish record) && Spec.is_string (prop record "ruleId")
  | Spec.SonarQube =>
      negb (nullish record)
      && Spec.is_string (or_else (prop record "rule") (Str "unknown"))
      && Spec.is_string
           (or_else (prop record "message") (Str "Security issue detected"))
      && Spec.is_string (or_else (prop record "severity") (Str "MAJOR"))
      && string_or_absent (prop record "component")
  end.

(** The function of a parser that reads one raw record, under a scan root
    (Snyk) or for a file path (ESLint). *)
Definition parse_one (tool : Spec.adapter) (record : value) (root : string)
  : outcome Finding.t :=
  match tool with
  | Spec.Semgrep => SemgrepParser.parseResult record
  | Spec.Snyk => SnykParser.parseResult record (Str root)
  | Spec.ESLint => ESLintParser.parseMessage record (Str root)
  | Spec.SonarQube => SonarQubeParser.parseIssue record
  end.

(** The raw records of a scan output, where its parser looks for them. *)
Definition raw_records (tool : Spec.adapter) (scanOutput : value) : value :=
  match tool with
  | Spec.Semgrep =>
      or_else (opt (prop scanOutput "raw_output") "results") (Arr [])
  | Spec.Snyk =>
      or_else
        (opt (opt_first (opt (prop scanOutput "raw_output") "runs")) "results")
        (Arr [])
  | Spec.ESLint => or_else (prop scanOutput "raw_output") (Arr [])
  | Spec.SonarQube =>
      or_else (opt (prop scanOutput "raw_output") "issues") (Arr [])
  end.

(** A file result of ESLint the parser can read: its path is a string and
    its messages are an array of records the parser can read. *)
Definition readable_file (fileResult : value) : bool :=
  negb (nullish fileResult)
  && Spec.is_string (prop fileResult "filePath")
  && match prop fileResult "messages" with
     | Arr messages => forallb (parsable Spec.ESLint) messages
     | _ => false
     end.

(** A scan output a parser answers: a failed scan, or a scan whose raw
    records are an array of records the parser can read. *)
Definition readable (tool : Spec.adapter) (scanOutput : value) : bool :=
  negb (nullish scanOutput)
  && (negb (truthy (prop scanOutput "success"))
      || match raw_records tool scanOutput with
         | Arr items =>
             forallb (match tool with
                      | Spec.ESLint => readable_file
                      | _ => parsable tool
                      end) items
         | _ => false
         end).

(** An alert whose [security_severity] is one of the four levels
    [analyzeBySeverity] counts. *)
Definition levelled (a : Alert.t) : bool :=
  is_str (Alert.security_severity a) "critical"
  || is_str (Alert.security_severity a) "high"
  || is_str (Alert.security_severity a) "medium"
  || is_str (Alert.security_severity a) "low".

(** An alert [analyzeByCategory] counts under an entry of its own: the
    category can be printed and names no member of [Object.prototype]. *)
Definition categorised (a : Alert.t) : bool :=
  printable (Alert.category a) && own_key (ComparisonAnalyzer.category_key a).






(** A computation that needs [ok]: it returns when [ok] holds and raises a
    TypeError when it does not. *)
Definition needs {A : Type} (ok : bool) (m : outcome A) : Prop :=
  match m with
  | Returns _ => ok = true
  | Throws e => e = TypeError /\ ok = false
  end.

End Derived.

(* ================================================================== *)
(** ** Inputs of the pipeline                                         *)
(* ================================================================== *)

Module Fixture.
Import Js.

(** A scan that failed. *)
Definition failed_scan : value :=
  Obj [ ("tool_name", Str "Semgrep");
        ("repository", Str "repo");
        ("repository_path", Str "/work/repo");
        ("error", Str "Repository not found: /work/repo");
        ("success", Boolean false) ].

(** The stored alerts of a repository two tools reported on. *)
Definition analysis_of (tool : string) : value :=
  Obj [ ("tool_name", Str tool) ].

Definition stored_alerts : list ResultStorage.document :=
  [ ResultStorage.mkDocument (analysis_of "Semgrep") Sample.xss_alert;
    ResultStorage.mkDocument (analysis_of "Snyk Code") Sample.xss_alert;
    ResultStorage.mkDocument (analysis_of "Snyk Code") Sample.sqli_alert ].

(** What [eslint.lintFiles] answers for two files: one with a security
    message, a style message and a parse error, one with a style message
    only. *)
Definition eval_message : value :=
  Obj [ ("ruleId", Str "security/detect-eval-with-expression");
        ("severity", Num 2);
        ("message", Str "eval with argument of type Identifier");
        ("line", Num 3); ("column", Num 5) ].

Definition style_message : value :=
  Obj [ ("ruleId", Str "no-unused-vars"); ("severity", Num 1);
        ("message", Str "x is defined but never used");
        ("line", Num 1); ("column", Num 7) ].

Definition parse_error : value :=
  Obj [ ("ruleId", Null); ("severity", Num 2);
        ("message", Str "Parsing error"); ("line", Num 9); ("column", Num 1) ].

Definition lint_results : list value :=
  [ Obj [ ("filePath", Str "/work/repo/index.js");
          ("messages", Arr [ style_message; eval_message; parse_error ]);
          ("errorCount", Num 2) ];
    Obj [ ("filePath", Str "/work/repo/lib/util.js");
          ("messages", Arr [ style_message ]);
          ("errorCount", Num 0) ] ].

Definition security_results : list value :=
  [ Obj [ ("filePath", Str "/work/repo/index.js");
          ("messages", Arr [ eval_message ]);
          ("errorCount", Num 2) ] ].

(** Two analyses of one repository by one tool. *)
Definition analysis_with (alerts : list Alert.t) : Analysis.t :=
  {| Analysis.tool_name := Str "ESLint-Security";
     Analysis.tool_version := Str "8.57.0";
     Analysis.repository := Str "repo";
     Analysis.scan_date := Undefined;
     Analysis.scan_duration_ms := Undefined;
     Analysis.results_count := List.length alerts;
     Analysis.stats := None;
     Analysis.alerts := alerts |}.

Definition first_analysis : Analysis.t := analysis_with [Sample.xss_alert].
Definition second_analysis : Analysis.t := analysis_with [Sample.sqli_alert].

(** The alert [compareRepository] prepares from [Sample.uncategorised_alert]. *)
Definition prepared_uncategorised : Alert.t :=
  {| Alert.tool_name := Undefined;
     Alert.rule_id := Str "rule-1";
     Alert.rule_description := Undefined;
     Alert.severity := Undefined;
     Alert.security_severity := Undefined;
     Alert.state := Undefined;
     Alert.location := Location.mk (Str "view.js") (Num 7) Undefined Undefined Undefined;
     Alert.message := Undefined;
     Alert.category := Str "Other";
     Alert.metadata := Metadata.absent;
     Alert.fingerprint := Str "rule-1::view.js::7::" |}.

End Fixture.

(* ================================================================== *)
(** ** Fingerprints                                                    *)
(* ================================================================== *)

Section Fingerprint.
Import Js.

Lemma length_append (s t : string) :
  String.length (s ++ t) = (String.length s + String.length t)%nat.
Proof.
  induction s as [| c s IH]; simpl; [reflexivity | now rewrite IH].
Qed.

Lemma append_empty_l (s t : string) : s ++ t = t -> s = "".
Proof.
  intro H.
  assert (L : String.length (s ++ t) = String.length t) by (rewrite H; reflexivity).
  rewrite length_append in L.
  destruct s as [| c s]; [reflexivity | simpl in L; lia].
Qed.

(** C4, as the code has it: the fingerprint is the four components joined
    with ["::"], each printed the way [Array.prototype.join] prints an
    element: a string as itself, an integer in decimal, and [null] or
    [undefined] as the empty string. *)
Theorem createFingerprint_join (a : Alert.t) :
  ResultNormalizer.createFingerprint a =
    join_piece (Alert.rule_id a) ++ "::" ++
    join_piece (Location.path (Alert.location a)) ++ "::" ++
    join_piece (Location.start_line (Alert.location a)) ++ "::" ++
    join_piece (Alert.category a)
  /\ join_piece Null = "" /\ join_piece Undefined = ""
  /\ (forall s, join_piece (Str s) = s)
  /\ (forall n, join_piece (Num n) = string_of_Z n).
Proof.
  repeat split.
Qed.

(** C4, as the specification words it, fails: no non-empty sentinel stands
    for a null start line; the fingerprint of a finding with a null start
    line is the one of a finding whose start line is the empty string. *)
Lemma createFingerprint_null_line_is_empty :
  ResultNormalizer.createFingerprint Sample.null_line_alert = "r::p::::c"
  /\ ResultNormalizer.createFingerprint Sample.null_line_alert
     = ResultNormalizer.createFingerprint Sample.empty_line_alert
  /\ ~ (exists sentinel, sentinel <> ""
          /\ ResultNormalizer.createFingerprint Sample.null_line_alert
             = Spec.fingerprint sentinel Sample.null_line_alert).
Proof.
  split; [reflexivity | split; [reflexivity |]].
  intros [sentinel [Hne H]].
  apply Hne.
  cbn in H.
  injection H as H.
  symmetry in H.
  apply (append_empty_l _ _ H).
Qed.

End Fingerprint.

(* ================================================================== *)
(** ** The two severity fields                                         *)
(* ================================================================== *)

Section Severity.
Import Js.

Lemma prototype_member_own (k : string) :
  own_key k = true -> prototype_member k = Undefined.
Proof.
  intro H. unfold prototype_member.
  destruct (k =? "constructor") eqn:C;
    [apply String.eqb_eq in C; subst k; discriminate H |].
  destruct (k =? "__proto__") eqn:P;
    [apply String.eqb_eq in P; subst k; discriminate H |].
  now rewrite H.
Qed.





End Severity.

(* ================================================================== *)
(** ** Overlap on one tool                                             *)
(* ================================================================== *)

Section OverlapOneTool.
Import Js.

(** C1, on the code: a tool that reports one finding twice is pushed twice
    on [detectedBy], and the group of that fingerprint lands in [overlap],
    not in [unique]. *)
Theorem findOverlap_same_tool_twice (toolName : string) (a : Alert.t) :
  ComparisonAnalyzer.findOverlap [(toolName, [a; a])] =
    {| ComparisonAnalyzer.overlap :=
         [ComparisonAnalyzer.mkGroup (ResultNormalizer.createFingerprint a) a [toolName; toolName]];
       ComparisonAnalyzer.unique := [];
       ComparisonAnalyzer.total := 1 |}.
Proof.
  unfold ComparisonAnalyzer.findOverlap, ComparisonAnalyzer.group_by_fingerprint,
    ComparisonAnalyzer.record_alert, ComparisonAnalyzer.ensure_group.
  simpl. rewrite !String.eqb_refl. simpl. rewrite !String.eqb_refl. simpl.
  rewrite !String.eqb_refl. reflexivity.
Qed.

End OverlapOneTool.

(* ================================================================== *)
(** ** The category classifier of the analyzer                         *)
(* ================================================================== *)

Section Classifier.
Import Js.

Lemma scan_single (table : list (string * string)) (text : string) :
  Parsed.scan table [text] =
    match table with
    | [] => Str "Other"
    | (key, category) :: rest =>
        if includes text key then Str category else Parsed.scan rest [text]
    end.
Proof.
  destruct table as [| [key category] rest]; [reflexivity |].
  unfold Parsed.scan. simpl. rewrite orb_false_r.
  destruct (includes text key); reflexivity.
Qed.

(** C5, as the code has it: an existing truthy category is returned
    unchanged; otherwise the ordered keyword list is scanned against the
    lowered rule id alone, the first keyword found decides, and the answer
    is [Other] when none occurs or when the rule id is absent.  The
    message is not read.  The Semgrep classifier scans its own list against
    the lowered rule id and takes no existing category. *)
Theorem extractCategory_scans_rule_id (a : Alert.t) :
  ComparisonAnalyzer.extractCategory a =
    (if truthy (Alert.category a) then Returns (Alert.category a)
     else match Alert.rule_id a with
          | Str ruleId =>
              Returns (Parsed.scan Spec.analyzer_keywords [toLowerCase ruleId])
          | Undefined | Null => Returns (Str "Other")
          | _ => Throws TypeError
          end)
  /\ (forall ruleId,
        SemgrepParser.extractCategory (Str ruleId) =
          Returns (Parsed.scan SemgrepParser.categories [toLowerCase ruleId])).
Proof.
  split; [| reflexivity].
  unfold ComparisonAnalyzer.extractCategory, ComparisonAnalyzer.lowered_rule_id.
  destruct (truthy (Alert.category a)); [reflexivity |].
  destruct (Alert.rule_id a) as [| | b | n | s | items | fields | name];
    try reflexivity.
  unfold Spec.analyzer_keywords. cbn [nullish lower bind].
  repeat (rewrite scan_single;
          match goal with
          | |- context [includes ?t ?k] => destruct (includes t k); [reflexivity |]
          end).
  reflexivity.
Qed.

(** C5, as the specification words it, fails: a keyword that occurs only
    in the message is found by the worded classifier and missed by the
    code. *)
Lemma extractCategory_ignores_message :
  ComparisonAnalyzer.extractCategory Sample.uncategorised_alert = Returns (Str "Other")
  /\ Spec.classifyCategory Spec.analyzer_keywords
       "rule-1" "Reflected XSS in template" Undefined = Str "XSS"
  /\ ~ (forall a ruleId message,
          Alert.rule_id a = Str ruleId -> Alert.message a = Str message ->
          ComparisonAnalyzer.extractCategory a =
            Returns (Spec.classifyCategory Spec.analyzer_keywords
                       ruleId message (Alert.category a))).
Proof.
  split; [reflexivity | split; [reflexivity |]].
  intro H.
  specialize (H Sample.uncategorised_alert "rule-1" "Reflected XSS in template"
                eq_refl eq_refl).
  vm_compute in H. discriminate H.
Qed.

End Classifier.

(* ================================================================== *)
(** ** The category breakdown                                          *)
(* ================================================================== *)

Section CategoryBreakdown.
Import Js.

Lemma assoc_bump (c k : string) (counts : list (string * nat)) :
  assoc c (bump k counts) =
    if k =? c
    then Some (S (match assoc c counts with Some n => n | None => 0 end))
    else assoc c counts.
Proof.
  induction counts as [| [k' n] counts IH]; simpl.
  - destruct (k =? c); reflexivity.
  - destruct (k' =? k) eqn:Ek; simpl.
    + apply String.eqb_eq in Ek. subst k'.
      destruct (k =? c); reflexivity.
    + destruct (k' =? c) eqn:Ec.
      * apply String.eqb_eq in Ec. subst k'.
        rewrite (String.eqb_sym k c), Ek. reflexivity.
      * exact IH.
Qed.


Lemma map_outcome_Forall2 {A B : Type} (f : A -> outcome B) (l : list A) :
  forall ys, map_outcome f l = Returns ys ->
             Forall2 (fun x y => f x = Returns y) l ys.
Proof.
  induction l as [| x l IH]; intros ys H; simpl in H.
  - injection H as <-. constructor.
  - destruct (f x) as [y |] eqn:Ex; cbn [bind] in H; [| discriminate H].
    destruct (map_outcome f l) as [ys' |]; cbn [bind] in H; [| discriminate H].
    injection H as <-. constructor; [exact Ex | now apply IH].
Qed.




End CategoryBreakdown.

(* ================================================================== *)
(** ** The adapters                                                    *)
(* ================================================================== *)

Section Adapters.
Import Js.

(** Reading a chain of binds that returned. *)
Ltac returned H :=
  repeat match type of H with
         | bind ?m _ = Returns _ =>
             let E := fresh "E" in
             destruct m eqn:E; cbn [bind] in H; [| discriminate H]
         end.

Lemma map_outcome_In {A B : Type} (f : A -> outcome B) (l : list A) :
  forall ys y, map_outcome f l = Returns ys -> In y ys ->
               exists x, In x l /\ f x = Returns y.
Proof.
  induction l as [| x l IH]; intros ys y H Hy; simpl in H.
  - injection H as <-. destruct Hy.
  - returned H. injection H as <-.
    destruct Hy as [<- | Hy].
    + exists x. split; [now left | assumption].
    + destruct (IH _ _ eq_refl Hy) as [x' [Hx' Hf]].
      exists x'. split; [now right | assumption].
Qed.

Lemma scan_emits (table : list (string * string)) (texts : list string) :
  exists c, Parsed.scan table texts = Str c /\ In c (map snd table ++ ["Other"])%list.
Proof.
  unfold Parsed.scan.
  induction table as [| [key category] table IH]; simpl.
  - exists "Other". split; [reflexivity | now left].
  - destruct (existsb (fun t => includes t key) texts).
    + exists category. split; [reflexivity | now left].
    + destruct IH as [c [Hc Hin]]. exists c. split; [exact Hc | now right].
Qed.

Lemma semgrep_extractCategory_scan (ruleId c : value) :
  SemgrepParser.extractCategory ruleId = Returns c ->
  exists texts, c = Parsed.scan SemgrepParser.categories texts.
Proof.
  unfold SemgrepParser.extractCategory. intro H.
  returned H. injection H as <-. eexists. reflexivity.
Qed.

Lemma snyk_extractCategory_scan (ruleId message c : value) :
  SnykParser.extractCategory ruleId message = Returns c ->
  exists texts, c = Parsed.scan SnykParser.categories texts.
Proof.
  unfold SnykParser.extractCategory. intro H.
  returned H. injection H as <-. eexists. reflexivity.
Qed.

Lemma eslint_extractCategory_scan (ruleId c : value) :
  ESLintParser.extractCategory ruleId = Returns c ->
  exists texts, c = Parsed.scan ESLintParser.categoryMap texts.
Proof.
  unfold ESLintParser.extractCategory. intro H.
  returned H. injection H as <-. eexists. reflexivity.
Qed.

Lemma sonarqube_extractCategory_scan (rule message c : value) :
  SonarQubeParser.extractCategory rule message = Returns c ->
  exists texts, c = Parsed.scan SonarQubeParser.categories texts.
Proof.
  unfold SonarQubeParser.extractCategory. intro H.
  returned H. injection H as <-. eexists. reflexivity.
Qed.

Lemma semgrep_parseResult_category (result : value) (f : Finding.t) :
  SemgrepParser.parseResult result = Returns f ->
  exists texts, Finding.category f = Parsed.scan SemgrepParser.categories texts.
Proof.
  unfold SemgrepParser.parseResult. intro H.
  returned H. injection H as <-. simpl.
  eauto using semgrep_extractCategory_scan.
Qed.

Lemma semgrep_parseResult_path (result : value) (f : Finding.t) :
  SemgrepParser.parseResult result = Returns f ->
  Location.path (Finding.location f) = prop result "path".
Proof.
  unfold SemgrepParser.parseResult. intro H.
  returned H. injection H as <-. reflexivity.
Qed.

Lemma snyk_parseResult_category (result root : value) (f : Finding.t) :
  SnykParser.parseResult result root = Returns f ->
  exists texts, Finding.category f = Parsed.scan SnykParser.categories texts.
Proof.
  unfold SnykParser.parseResult. intro H.
  returned H. injection H as <-. simpl.
  eauto using snyk_extractCategory_scan.
Qed.

Lemma eslint_parseMessage_category (message path : value) (f : Finding.t) :
  ESLintParser.parseMessage message path = Returns f ->
  exists texts, Finding.category f = Parsed.scan ESLintParser.categoryMap texts.
Proof.
  unfold ESLintParser.parseMessage. intro H.
  returned H. injection H as <-. simpl.
  eauto using eslint_extractCategory_scan.
Qed.

Lemma sonarqube_parseIssue_category (issue : value) (f : Finding.t) :
  SonarQubeParser.parseIssue issue = Returns f ->
  exists texts, Finding.category f = Parsed.scan SonarQubeParser.categories texts.
Proof.
  unfold SonarQubeParser.parseIssue. intro H.
  returned H. injection H as <-. simpl.
  eauto using sonarqube_extractCategory_scan.
Qed.

Lemma adapt_category_scan (tool : Spec.adapter) (scanOutput : value)
  (r : Parsed.t) (f : Finding.t) :
  Spec.adapt tool scanOutput = Returns r -> In f (Parsed.findings r) ->
  exists table texts,
    Spec.emitted tool = (map snd table ++ ["Other"])%list
    /\ Finding.category f = Parsed.scan table texts.
Proof.
  intros H Hf.
  destruct tool; simpl in H;
    [ unfold SemgrepParser.parse in H | unfold SnykParser.parse in H
    | unfold ESLintParser.parse in H | unfold SonarQubeParser.parse in H ];
    returned H;
    (destruct (negb (truthy _)) in H;
     [ injection H as <-; destruct Hf | returned H; injection H as <- ]);
    simpl in Hf.
  - destruct (map_outcome_In _ _ _ _ E1 Hf) as [x [_ Hx]].
    destruct (semgrep_parseResult_category _ _ Hx) as [texts Ht].
    exists SemgrepParser.categories, texts. split; [reflexivity | exact Ht].
  - destruct (map_outcome_In _ _ _ _ E1 Hf) as [x [_ Hx]].
    destruct (snyk_parseResult_category _ _ _ Hx) as [texts Ht].
    exists SnykParser.categories, texts. split; [reflexivity | exact Ht].
  - apply in_concat in Hf. destruct Hf as [found [Hfound Hf]].
    destruct (map_outcome_In _ _ _ _ E1 Hfound) as [file [_ Hfile]].
    unfold ESLintParser.parseFile in Hfile. returned Hfile.
    destruct (map_outcome_In _ _ _ _ Hfile Hf) as [x [_ Hx]].
    destruct (eslint_parseMessage_category _ _ _ Hx) as [texts Ht].
    exists ESLintParser.categoryMap, texts. split; [reflexivity | exact Ht].
  - destruct (map_outcome_In _ _ _ _ E1 Hf) as [x [_ Hx]].
    destruct (sonarqube_parseIssue_category _ _ Hx) as [texts Ht].
    exists SonarQubeParser.categories, texts. split; [reflexivity | exact Ht].
Qed.

Lemma emitted_extended (tool : Spec.adapter) (c : string) :
  In c (Spec.emitted tool) ->
  In c (Spec.vocabulary ++ Spec.tool_specific)%list
  /\ (tool = Spec.Semgrep -> In c Spec.vocabulary).
Proof.
  intro H. split.
  - destruct tool; simpl in H;
      repeat (destruct H as [<- | H]; [simpl; tauto |]); destruct H.
  - intros ->. simpl in H.
    repeat (destruct H as [<- | H]; [simpl; tauto |]); destruct H.
Qed.

(** C6, as the code has it: the category of a finding an adapter returns is
    an answer of the adapter's own keyword table or [Other]; over the four
    adapters these answers lie in the vocabulary of the data model extended
    with Code Injection, Timing Attack, Injection, XXE and LDAP Injection,
    and the answers of the Semgrep adapter lie in the vocabulary itself. *)
Theorem adapter_category_vocabulary (tool : Spec.adapter) (scanOutput : value)
  (r : Parsed.t) (f : Finding.t) :
  Spec.adapt tool scanOutput = Returns r ->
  In f (Parsed.findings r) ->
  exists c,
    Finding.category f = Str c
    /\ In c (Spec.emitted tool)
    /\ In c (Spec.vocabulary ++ Spec.tool_specific)%list
    /\ (tool = Spec.Semgrep -> In c Spec.vocabulary).
Proof.
  intros H Hf.
  destruct (adapt_category_scan _ _ _ _ H Hf) as [table [texts [Ht Hc]]].
  destruct (scan_emits table texts) as [c [Hs Hin]].
  exists c. rewrite Hc, Ht.
  split; [exact Hs | split; [exact Hin |]].
  apply emitted_extended. now rewrite Ht.
Qed.

Lemma adapter_category_vocabulary_witness :
  exists c,
    Finding.category Sample.eslint_eval_finding = Str c
    /\ In c (Spec.emitted Spec.ESLint)
    /\ In c (Spec.vocabulary ++ Spec.tool_specific)%list
    /\ (Spec.ESLint = Spec.Semgrep -> In c Spec.vocabulary).
Proof.
  apply (adapter_category_vocabulary Spec.ESLint Sample.eslint_eval
           (Parsed.completed Sample.eslint_eval [Sample.eslint_eval_finding])).
  - reflexivity.
  - left. reflexivity.
Defined.

(** C6, as the specification words it, fails: the ESLint adapter answers
    Code Injection for [security/detect-eval-with-expression], which the
    vocabulary does not hold. *)
Lemma eslint_category_outside_vocabulary :
  ESLintParser.parse Sample.eslint_eval
    = Returns (Parsed.completed Sample.eslint_eval [Sample.eslint_eval_finding])
  /\ Finding.category Sample.eslint_eval_finding = Str "Code Injection"
  /\ ~ In "Code Injection" Spec.vocabulary
  /\ ~ (forall tool scanOutput r f,
          Spec.adapt tool scanOutput = Returns r -> In f (Parsed.findings r) ->
          exists c, Finding.category f = Str c /\ In c Spec.vocabulary).
Proof.
  assert (Hout : ~ In "Code Injection" Spec.vocabulary).
  { simpl. intro H. repeat (destruct H as [H | H]; [discriminate H |]). exact H. }
  split; [reflexivity | split; [reflexivity | split; [exact Hout |]]].
  intro H.
  destruct (H Spec.ESLint Sample.eslint_eval _ Sample.eslint_eval_finding eq_refl
              (or_introl eq_refl)) as [c [Hc Hin]].
  injection Hc as <-. exact (Hout Hin).
Qed.

Lemma prefix_append (p s : string) : String.prefix p (p ++ s) = true.
Proof.
  induction p as [| c p IH]; simpl.
  - now destruct s.
  - destruct (ascii_dec c c) as [_ | N]; [exact IH | now elim N].
Qed.

Lemma drop_append (p s : string) : drop (String.length p) (p ++ s) = s.
Proof.
  induction p as [| c p IH]; simpl; [reflexivity | exact IH].
Qed.

(** What the rebasing of the Snyk and ESLint adapters achieves: a path that
    starts with the scan root and a slash loses them. *)
Lemma replace_first_scan_root (root rest : string) :
  replace_first ((root ++ "/") ++ rest) (root ++ "/") = rest.
Proof.
  assert (U : forall s pat,
             String.prefix pat s = true ->
             replace_first s pat = drop (String.length pat) s).
  { intros s pat P. destruct s; cbn [replace_first]; now rewrite P. }
  rewrite U by apply prefix_append. apply drop_append.
Qed.

(** C2, on the code: for the same file under the same scan root, the Snyk
    adapter answers the path relative to the root, and the Semgrep adapter
    answers the path of the raw result unchanged. *)
Theorem semgrep_path_not_rebased :
  exists r s f g,
    SemgrepParser.parse Sample.semgrep_output = Returns r
    /\ SnykParser.parse Sample.snyk_output = Returns s
    /\ Parsed.findings r = [f] /\ Parsed.findings s = [g]
    /\ Location.path (Finding.location f) = Str "/work/repo/index.js"
    /\ Location.path (Finding.location g) = Str "index.js"
    /\ Location.start_line (Finding.location f)
       = Location.start_line (Finding.location g).
Proof.
  do 4 eexists. repeat split; reflexivity.
Qed.

(** A failed scan is answered with the failure object by every adapter. *)
Lemma adapt_failed_scan (tool : Spec.adapter) (scanOutput : value) :
  nullish scanOutput = false ->
  truthy (prop scanOutput "success") = false ->
  Spec.adapt tool scanOutput = Returns (Parsed.failure scanOutput).
Proof.
  intros Hn Hs.
  destruct tool; simpl;
    unfold SemgrepParser.parse, SnykParser.parse, ESLintParser.parse,
      SonarQubeParser.parse, get;
    rewrite Hn; cbn [bind]; rewrite Hs; reflexivity.
Qed.


(** The rule id has no default in the Semgrep and ESLint parsers: a
    Semgrep result without [check_id] and an ESLint message whose [ruleId]
    is [null] make [parse] raise. *)
Lemma rule_id_without_default :
  SemgrepParser.parse Sample.semgrep_no_rule_id = Throws TypeError
  /\ ESLintParser.parse Sample.eslint_null_rule = Throws TypeError.
Proof. split; reflexivity. Qed.

End Adapters.

(* ================================================================== *)
(** ** The fingerprint index of [findOverlap]                          *)
(* ================================================================== *)

Section OverlapIndex.
Import Js ComparisonAnalyzer.

Lemma group_by_fingerprint_reports (results : toolResults) :
  group_by_fingerprint results = Index.fold_reports (Index.reports results) [].
Proof.
  unfold group_by_fingerprint. generalize (@nil group).
  induction results as [| [toolName alerts] results IH]; intro gs; simpl.
  - reflexivity.
  - unfold Index.fold_reports. rewrite fold_left_app.
    fold (Index.fold_reports (Index.reports results)).
    rewrite IH. f_equal.
    clear IH. revert gs.
    induction alerts as [| a alerts IHa]; intro gs; simpl; [reflexivity | apply IHa].
Qed.

Lemma has_group_find (fp : string) (gs : list group) :
  has_group fp gs =
    match Index.find_group fp gs with Some _ => true | None => false end.
Proof.
  induction gs as [| g gs IH]; simpl; [reflexivity |].
  destruct (fingerprint g =? fp); simpl; [reflexivity | exact IH].
Qed.

Lemma has_group_keys (fp : string) (gs : list group) :
  has_group fp gs = true <-> In fp (Index.keys gs).
Proof.
  induction gs as [| g gs IH]; simpl.
  - split; [discriminate | tauto].
  - rewrite orb_true_iff, String.eqb_eq, IH. tauto.
Qed.

Lemma find_group_app (fp : string) (gs gs' : list group) :
  Index.find_group fp (gs ++ gs') =
    match Index.find_group fp gs with
    | Some g => Some g
    | None => Index.find_group fp gs'
    end.
Proof.
  induction gs as [| g gs IH]; simpl; [reflexivity |].
  destruct (fingerprint g =? fp); [reflexivity | exact IH].
Qed.

Lemma find_group_push (fp fp' toolName : string) (gs : list group) :
  Index.find_group fp (push_detectedBy fp' toolName gs) =
    if fp' =? fp then option_map (Index.add_detector toolName) (Index.find_group fp gs)
    else Index.find_group fp gs.
Proof.
  induction gs as [| g gs IH]; simpl.
  - destruct (fp' =? fp); reflexivity.
  - destruct (fingerprint g =? fp') eqn:Eg; simpl.
    + apply String.eqb_eq in Eg. subst fp'.
      destruct (fingerprint g =? fp); reflexivity.
    + destruct (fingerprint g =? fp) eqn:Ef.
      * apply String.eqb_eq in Ef. subst fp.
        rewrite String.eqb_sym, Eg. reflexivity.
      * exact IH.
Qed.

Lemma find_group_ensure (fp fp' : string) (a : Alert.t) (gs : list group) :
  Index.find_group fp (ensure_group fp' a gs) =
    match Index.find_group fp gs with
    | Some g => Some g
    | None => if fp' =? fp then Some (mkGroup fp' a []) else None
    end.
Proof.
  unfold ensure_group. rewrite has_group_find.
  destruct (Index.find_group fp' gs) eqn:E'.
  - destruct (Index.find_group fp gs) eqn:E; [reflexivity |].
    destruct (fp' =? fp) eqn:Ef; [| reflexivity].
    apply String.eqb_eq in Ef. subst fp'. congruence.
  - rewrite find_group_app. simpl.
    destruct (Index.find_group fp gs); reflexivity.
Qed.

Lemma find_group_record (fp toolName : string) (a : Alert.t) (gs : list group) :
  Index.find_group fp (record_alert toolName gs a) =
    if ResultNormalizer.createFingerprint a =? fp
    then Some (match Index.find_group fp gs with
               | Some g => Index.add_detector toolName g
               | None => mkGroup (ResultNormalizer.createFingerprint a) a [toolName]
               end)
    else Index.find_group fp gs.
Proof.
  unfold record_alert. rewrite find_group_push, find_group_ensure.
  destruct (ResultNormalizer.createFingerprint a =? fp).
  - destruct (Index.find_group fp gs); reflexivity.
  - destruct (Index.find_group fp gs); reflexivity.
Qed.

Lemma find_group_fold (fp : string) (l : list (string * Alert.t)) :
  forall gs,
    Index.find_group fp (Index.fold_reports l gs) =
      match Index.find_group fp gs with
      | Some g =>
          Some (mkGroup (fingerprint g) (alert g)
                        (detectedBy g ++ Index.detectors fp l))
      | None =>
          match Index.reports_of fp l with
          | [] => None
          | p :: _ =>
              Some (mkGroup (ResultNormalizer.createFingerprint (snd p)) (snd p)
                            (Index.detectors fp l))
          end
      end.
Proof.
  induction l as [| [toolName a] l IH]; intro gs.
  - simpl. destruct (Index.find_group fp gs) as [[k b d] |]; [| reflexivity].
    simpl. now rewrite app_nil_r.
  - change (Index.fold_reports ((toolName, a) :: l) gs)
      with (Index.fold_reports l (record_alert toolName gs a)).
    rewrite IH, find_group_record.
    unfold Index.detectors, Index.reports_of. simpl.
    destruct (ResultNormalizer.createFingerprint a =? fp); simpl.
    + destruct (Index.find_group fp gs); simpl; [now rewrite <- app_assoc | reflexivity].
    + reflexivity.
Qed.

Lemma keys_push (fp toolName : string) (gs : list group) :
  Index.keys (push_detectedBy fp toolName gs) = Index.keys gs.
Proof.
  induction gs as [| g gs IH]; simpl; [reflexivity |].
  destruct (fingerprint g =? fp); simpl; [reflexivity | now rewrite IH].
Qed.

Lemma keys_record_NoDup (toolName : string) (a : Alert.t) (gs : list group) :
  NoDup (Index.keys gs) -> NoDup (Index.keys (record_alert toolName gs a)).
Proof.
  intro N. unfold record_alert, ensure_group. rewrite keys_push.
  destruct (has_group (ResultNormalizer.createFingerprint a) gs) eqn:E; [exact N |].
  unfold Index.keys. rewrite map_app. simpl.
  apply NoDup_app; [exact N | repeat constructor; intros [] | ].
  intros k Hk [<- | []].
  apply has_group_keys in Hk. congruence.
Qed.

Lemma keys_fold_NoDup (l : list (string * Alert.t)) :
  forall gs, NoDup (Index.keys gs) -> NoDup (Index.keys (Index.fold_reports l gs)).
Proof.
  induction l as [| p l IH]; intros gs N; simpl; [exact N |].
  apply IH, keys_record_NoDup, N.
Qed.

Lemma find_group_In (fp : string) (gs : list group) (g : group) :
  Index.find_group fp gs = Some g -> In g gs /\ fingerprint g = fp.
Proof.
  intro H. apply find_some in H. now rewrite String.eqb_eq in H.
Qed.

Lemma In_find_group (gs : list group) (g : group) :
  NoDup (Index.keys gs) -> In g gs -> Index.find_group (fingerprint g) gs = Some g.
Proof.
  induction gs as [| g0 gs IH]; intros N H; [destruct H |].
  simpl in N. inversion N as [| k ks Hk N']. subst.
  simpl. destruct H as [-> | H].
  - now rewrite String.eqb_refl.
  - destruct (fingerprint g0 =? fingerprint g) eqn:E.
    + apply String.eqb_eq in E. elim Hk. rewrite E. now apply in_map.
    + now apply IH.
Qed.

(** The groups of the index: one per fingerprint that was reported, with
    the first alert that carried it and the tool of every report of it, in
    the order of the reports. *)
Lemma index_NoDup (results : toolResults) :
  NoDup (Index.keys (group_by_fingerprint results)).
Proof.
  rewrite group_by_fingerprint_reports. apply keys_fold_NoDup. constructor.
Qed.

Lemma index_find (results : toolResults) (fp : string) :
  Index.find_group fp (group_by_fingerprint results) =
    match Index.reports_of fp (Index.reports results) with
    | [] => None
    | p :: _ =>
        Some (mkGroup (ResultNormalizer.createFingerprint (snd p)) (snd p)
                      (Index.detectors fp (Index.reports results)))
    end.
Proof.
  rewrite group_by_fingerprint_reports. apply (find_group_fold fp _ []).
Qed.

Lemma index_group (results : toolResults) (g : group) :
  In g (group_by_fingerprint results) ->
  detectedBy g = Index.detectors (fingerprint g) (Index.reports results)
  /\ detectedBy g <> [].
Proof.
  intro H. apply In_find_group in H; [| apply index_NoDup].
  rewrite index_find in H.
  unfold Index.detectors in *.
  destruct (Index.reports_of (fingerprint g) (Index.reports results)) eqn:E;
    [discriminate H |].
  injection H as <-. simpl. split; [reflexivity | discriminate].
Qed.

Lemma index_member (results : toolResults) (fp : string) (P : group -> bool) :
  In fp (Index.keys (filter P (group_by_fingerprint results))) <->
  exists g, Index.find_group fp (group_by_fingerprint results) = Some g
            /\ P g = true.
Proof.
  unfold Index.keys. rewrite in_map_iff. split.
  - intros [g [<- Hg]]. apply filter_In in Hg. destruct Hg as [Hg HP].
    exists g. split; [apply In_find_group; [apply index_NoDup | exact Hg] | exact HP].
  - intros [g [Hg HP]]. apply find_group_In in Hg. destruct Hg as [Hg <-].
    exists g. split; [reflexivity | apply filter_In; now split].
Qed.

End OverlapIndex.

(* ================================================================== *)
(** ** Order independence of [findOverlap]                             *)
(* ================================================================== *)

Section OrderIndependence.
Import Js ComparisonAnalyzer.

Lemma reports_of_Permutation (fp : string) (l l' : list (string * Alert.t)) :
  Permutation l l' -> Permutation (Index.reports_of fp l) (Index.reports_of fp l').
Proof.
  unfold Index.reports_of.
  induction 1 as [| p l l' _ IH | p q l | l l' l'' _ IH1 _ IH2]; simpl.
  - constructor.
  - destruct (_ =? fp); [now constructor | exact IH].
  - destruct (ResultNormalizer.createFingerprint (snd p) =? fp),
             (ResultNormalizer.createFingerprint (snd q) =? fp);
      try reflexivity. apply perm_swap.
  - now transitivity (filter
        (fun p => ResultNormalizer.createFingerprint (snd p) =? fp) l').
Qed.

Lemma reports_Permutation (r r' : toolResults) :
  Permutation r r' -> Permutation (Index.reports r) (Index.reports r').
Proof.
  unfold Index.reports.
  induction 1 as [| e r r' _ IH | e e' r | r r' r'' _ IH1 _ IH2]; simpl.
  - constructor.
  - now apply Permutation_app_head.
  - rewrite !app_assoc. apply Permutation_app_tail, Permutation_app_comm.
  - now transitivity
        (flat_map (fun entry => map (pair (fst entry)) (snd entry)) r').
Qed.

Lemma reports_Forall2 (r r' : toolResults) :
  Forall2 (fun e1 e2 => fst e1 = fst e2 /\ Permutation (snd e1) (snd e2)) r r' ->
  Permutation (Index.reports r) (Index.reports r').
Proof.
  unfold Index.reports.
  induction 1 as [| e e' r r' [Hn Hp] _ IH]; simpl; [constructor |].
  rewrite Hn. apply Permutation_app; [now apply Permutation_map | exact IH].
Qed.

Lemma same_findings_reports (r1 r2 : toolResults) :
  Spec.same_findings r1 r2 -> Permutation (Index.reports r1) (Index.reports r2).
Proof.
  intros [r [Hp Hf]].
  transitivity (Index.reports r);
    [now apply reports_Permutation | now apply reports_Forall2].
Qed.

Lemma same_findings_detectors (r1 r2 : toolResults) (fp : string) :
  Spec.same_findings r1 r2 ->
  Permutation (Index.detectors fp (Index.reports r1))
              (Index.detectors fp (Index.reports r2)).
Proof.
  intro H. unfold Index.detectors.
  apply Permutation_map, reports_of_Permutation, same_findings_reports, H.
Qed.

Lemma keys_filter_NoDup (P : group -> bool) (gs : list group) :
  NoDup (Index.keys gs) -> NoDup (Index.keys (filter P gs)).
Proof.
  induction gs as [| g gs IH]; intro N; simpl; [constructor |].
  simpl in N. inversion N as [| k ks Hk N']. subst.
  destruct (P g); simpl; [| now apply IH].
  constructor; [| now apply IH].
  intro H. apply Hk. unfold Index.keys in *.
  apply in_map_iff in H. destruct H as [g' [E Hg']].
  apply filter_In in Hg'. rewrite <- E. apply in_map. tauto.
Qed.

(** The part of the index selected by the number of its reports. *)
Lemma part_member (results : toolResults) (fp : string) (P : nat -> bool) :
  In fp (Index.keys (filter (fun g => P (List.length (detectedBy g)))
                           (group_by_fingerprint results)))
  <-> Index.detectors fp (Index.reports results) <> []
      /\ P (List.length (Index.detectors fp (Index.reports results))) = true.
Proof.
  rewrite index_member. setoid_rewrite index_find.
  unfold Index.detectors.
  destruct (Index.reports_of fp (Index.reports results)) as [| p l]; simpl.
  - split; [intros [g [H _]]; discriminate H | intros [H _]; now elim H].
  - split.
    + intros [g [H HP]]. injection H as <-. simpl in HP.
      split; [discriminate | exact HP].
    + intros [_ HP]. eexists. split; [reflexivity | exact HP].
Qed.

Lemma part_Permutation (r1 r2 : toolResults) (P : nat -> bool) :
  Spec.same_findings r1 r2 ->
  Permutation
    (Index.keys (filter (fun g => P (List.length (detectedBy g)))
                       (group_by_fingerprint r1)))
    (Index.keys (filter (fun g => P (List.length (detectedBy g)))
                       (group_by_fingerprint r2))).
Proof.
  intro H.
  apply NoDup_Permutation; try (apply keys_filter_NoDup, index_NoDup).
  intro fp. rewrite !part_member.
  pose proof (same_findings_detectors r1 r2 fp H) as Hd.
  rewrite (Permutation_length Hd).
  split; intros [Hne HP]; (split; [| exact HP]); intro E; apply Hne.
  - rewrite E in Hd. now apply Permutation_nil.
  - rewrite E in Hd. apply Permutation_sym in Hd. now apply Permutation_nil.
Qed.

Lemma filter_all (gs : list group) : filter (fun _ => true) gs = gs.
Proof.
  induction gs as [| g gs IH]; simpl; [reflexivity | now rewrite IH].
Qed.

(** C9: the same findings, with the tools and the findings of each tool in
    any order, give the same fingerprints in [overlap], the same
    fingerprints in [unique] and the same [total]; a fingerprint is detected
    by the same tools, report for report. *)
Theorem findOverlap_order_independent (r1 r2 : toolResults) :
  Spec.same_findings r1 r2 ->
  Permutation (Index.keys (overlap (findOverlap r1)))
              (Index.keys (overlap (findOverlap r2)))
  /\ Permutation (Index.keys (unique (findOverlap r1)))
                 (Index.keys (unique (findOverlap r2)))
  /\ total (findOverlap r1) = total (findOverlap r2)
  /\ NoDup (Index.keys (overlap (findOverlap r1) ++ unique (findOverlap r1)))
  /\ (forall g1 g2,
        In g1 (overlap (findOverlap r1) ++ unique (findOverlap r1)) ->
        In g2 (overlap (findOverlap r2) ++ unique (findOverlap r2)) ->
        fingerprint g1 = fingerprint g2 ->
        Permutation (detectedBy g1) (detectedBy g2)).
Proof.
  intro H. unfold findOverlap. simpl.
  split; [apply (part_Permutation r1 r2 (fun n => (1 <? n)%nat) H) |].
  split; [apply (part_Permutation r1 r2 (fun n => (n =? 1)%nat) H) |].
  split; [| split].
  - pose proof (part_Permutation r1 r2 (fun _ => true) H) as Hp.
    rewrite !filter_all in Hp. apply Permutation_length in Hp.
    unfold Index.keys in Hp. now rewrite !length_map in Hp.
  - unfold Index.keys. rewrite map_app.
    apply NoDup_app; try (apply keys_filter_NoDup, index_NoDup).
    intros k Ho Hu.
    apply (part_member r1 k (fun n => (1 <? n)%nat)) in Ho.
    apply (part_member r1 k (fun n => (n =? 1)%nat)) in Hu.
    destruct Ho as [_ Ho], Hu as [_ Hu].
    apply Nat.ltb_lt in Ho. apply Nat.eqb_eq in Hu. lia.
  - intros g1 g2 H1 H2 E.
    assert (G1 : In g1 (group_by_fingerprint r1)).
    { apply in_app_or in H1. destruct H1 as [H1 | H1];
        apply filter_In in H1; tauto. }
    assert (G2 : In g2 (group_by_fingerprint r2)).
    { apply in_app_or in H2. destruct H2 as [H2 | H2];
        apply filter_In in H2; tauto. }
    destruct (index_group _ _ G1) as [D1 _], (index_group _ _ G2) as [D2 _].
    rewrite D1, D2, E. now apply same_findings_detectors.
Qed.

Lemma findOverlap_order_independent_witness :
  Spec.same_findings Sample.scenario Sample.scenario_reordered
  /\ Permutation (Index.keys (overlap (findOverlap Sample.scenario)))
                 (Index.keys (overlap (findOverlap Sample.scenario_reordered)))
  /\ Permutation (Index.keys (unique (findOverlap Sample.scenario)))
                 (Index.keys (unique (findOverlap Sample.scenario_reordered)))
  /\ total (findOverlap Sample.scenario)
     = total (findOverlap Sample.scenario_reordered).
Proof.
  assert (S : Spec.same_findings Sample.scenario Sample.scenario_reordered).
  { exists [("B", [Sample.xss_alert; Sample.sqli_alert]); ("A", [Sample.xss_alert])].
    split; [apply perm_swap |].
    repeat constructor. }
  destruct (findOverlap_order_independent _ _ S) as [Ho [Hu [Ht _]]].
  exact (conj S (conj Ho (conj Hu Ht))).
Defined.

End OrderIndependence.

(* ================================================================== *)
(** ** Rounding of doubles                                             *)
(* ================================================================== *)

Section Rounding.
Import Binary64.
Local Open Scope Z_scope.
Variables K k : Z.
Hypothesis K_pos : 0 < K.
Hypothesis K_small : K < 2 ^ 53.
Hypothesis k_low : -1074 <= k.
Hypothesis k_high : k <= 971.

Lemma pow2_step (e : Z) : e + 1 <= k -> 2 ^ (k - e) = 2 * 2 ^ (k - (e + 1)).
Proof.
  intro H. replace (k - e) with (Z.succ (k - (e + 1))) by lia.
  apply Z.pow_succ_r. lia.
Qed.

Lemma under_shr_1 (mrs : shr_record) (e : Z) :
  e + 1 <= k -> under K k mrs e -> under K k (shr_1 mrs) (e + 1).
Proof.
  intros He [H0 [Hle Hlt]]. destruct mrs as [m r s].
  unfold under, inexact in *. simpl in H0, Hle, Hlt.
  rewrite (pow2_step e He) in Hle, Hlt.
  assert (P : 0 < 2 ^ (k - (e + 1))) by (apply Z.pow_pos_nonneg; lia).
  set (X := 2 ^ (k - (e + 1))) in *.
  destruct m as [| p | p]; [| destruct p as [p | p |] | exfalso; lia]; simpl.
  all: split; [lia | split; [lia |]]; intro Hi.
  all: try lia.
  all: destruct r, s; cbn [orb] in Hi, Hlt; try discriminate Hi;
    specialize (Hlt eq_refl); lia.
Qed.

Lemma under_iter (p : positive) :
  forall mrs e, e + Zpos p <= k -> under K k mrs e ->
                under K k (iter_pos shr_1 p mrs) (e + Zpos p).
Proof.
  induction p as [p IH | p IH |]; intros mrs e He H; simpl.
  - replace (e + Zpos p~1) with (e + 1 + Zpos p + Zpos p) by lia.
    apply IH; [lia |]. apply IH; [lia |]. apply under_shr_1; [lia | exact H].
  - replace (e + Zpos p~0) with (e + Zpos p + Zpos p) by lia.
    apply IH; [lia |]. apply IH; [lia | exact H].
  - apply under_shr_1; [lia | exact H].
Qed.

Lemma under_shr (mrs : shr_record) (e n : Z) :
  e <= k -> e + n <= k -> under K k mrs e ->
  under K k (fst (shr mrs e n)) (snd (shr mrs e n)) /\ snd (shr mrs e n) <= k.
Proof.
  intros He Hn H. destruct n as [| p | p]; simpl; try (split; [exact H | exact He]).
  split; [now apply under_iter | exact Hn].
Qed.

Lemma digits2_pos_lower (p : positive) : 2 ^ (Zpos (digits2_pos p) - 1) <= Zpos p.
Proof.
  induction p as [p IH | p IH |]; simpl digits2_pos.
  - rewrite Pos2Z.inj_succ. replace (Z.succ (Zpos (digits2_pos p)) - 1)
      with (Z.succ (Zpos (digits2_pos p) - 1)) by lia.
    rewrite Z.pow_succ_r by lia. lia.
  - rewrite Pos2Z.inj_succ. replace (Z.succ (Zpos (digits2_pos p)) - 1)
      with (Z.succ (Zpos (digits2_pos p) - 1)) by lia.
    rewrite Z.pow_succ_r by lia. lia.
  - simpl. lia.
Qed.

Lemma Zdigits2_le (m n : Z) : 0 <= m -> 0 <= n -> m < 2 ^ n -> Zdigits2 m <= n.
Proof.
  intros Hm Hn H. destruct m as [| p | p]; simpl; [exact Hn | | lia].
  pose proof (digits2_pos_lower p) as L.
  destruct (Z_le_gt_dec (Zpos (digits2_pos p)) n) as [Hd | Hd]; [exact Hd |].
  assert (2 ^ n <= 2 ^ (Zpos (digits2_pos p) - 1))
    by (apply Z.pow_le_mono_r; lia).
  lia.
Qed.

Lemma under_of_loc (m e : Z) (l : location) :
  0 <= m -> m <= K * 2 ^ (k - e) ->
  (l <> loc_Exact -> m < K * 2 ^ (k - e)) ->
  under K k (shr_record_of_loc m l) e.
Proof.
  intros H0 Hle Hlt. unfold under, inexact.
  destruct l as [| [| |]]; simpl; repeat split; try assumption;
    intro Hi; try discriminate Hi; apply Hlt; discriminate.
Qed.

Lemma under_shr_fexp (m e : Z) (l : location) :
  e <= k -> 0 <= m -> m <= K * 2 ^ (k - e) ->
  (l <> loc_Exact -> m < K * 2 ^ (k - e)) ->
  under K k (fst (shr_fexp prec emax m e l)) (snd (shr_fexp prec emax m e l))
  /\ snd (shr_fexp prec emax m e l) <= k.
Proof.
  intros He H0 Hle Hlt. unfold shr_fexp.
  apply under_shr; [exact He | | now apply under_of_loc].
  assert (D : Zdigits2 m <= 53 + (k - e)).
  { apply Zdigits2_le; [exact H0 | lia |].
    rewrite Z.pow_add_r by lia.
    assert (0 < 2 ^ (k - e)) by (apply Z.pow_pos_nonneg; lia). nia. }
  unfold fexp, emin, prec, emax. lia.
Qed.

Lemma round_nearest_even_under (mrs : shr_record) (e : Z) :
  under K k mrs e ->
  0 <= round_nearest_even (shr_m mrs) (loc_of_shr_record mrs)
    <= K * 2 ^ (k - e).
Proof.
  intros [H0 [Hle Hlt]]. destruct mrs as [m r s]. unfold inexact in Hlt.
  simpl in *. destruct r, s; simpl in *;
    try specialize (Hlt eq_refl); try destruct (Z.even m); lia.
Qed.

Lemma binary_round_aux_below (mx ex : Z) (lx : location) :
  ex <= k -> 0 <= mx -> mx <= K * 2 ^ (k - ex) ->
  (lx <> loc_Exact -> mx < K * 2 ^ (k - ex)) ->
  below K k (binary_round_aux prec emax false mx ex lx).
Proof.
  intros He H0 Hle Hlt. unfold binary_round_aux.
  destruct (under_shr_fexp mx ex lx He H0 Hle Hlt) as [U1 E1].
  destruct (shr_fexp prec emax mx ex lx) as [mrs' e']. simpl in U1, E1.
  pose proof (round_nearest_even_under mrs' e' U1) as [R0 Rle].
  set (mr := round_nearest_even (shr_m mrs') (loc_of_shr_record mrs')) in *.
  destruct (under_shr_fexp mr e' loc_Exact E1 R0 Rle) as [U2 E2];
    [intro N; now elim N |].
  destruct (shr_fexp prec emax mr e' loc_Exact) as [mrs'' e'']. simpl in U2, E2.
  destruct U2 as [U0 [Ule _]].
  destruct (shr_m mrs'') as [| m | m]; simpl; [exact I | | lia].
  match goal with
  | |- context [?a <=? ?b] =>
      replace (a <=? b) with true by (symmetry; apply Z.leb_le; cbn; lia)
  end.
  split; [exact E2 | exact Ule].
Qed.

End Rounding.

Section Conversion.
Import Binary64.
Local Open Scope Z_scope.

Lemma iter_xO_value (p x : positive) :
  Zpos (Pos.iter xO p x) = Zpos p * 2 ^ Zpos x.
Proof.
  induction x as [| x IH] using Pos.peano_ind.
  - simpl. lia.
  - rewrite Pos.iter_succ, Pos2Z.inj_xO, IH, Pos2Z.inj_succ, Z.pow_succ_r by lia.
    lia.
Qed.

Lemma iter_xO_digits (p x : positive) :
  Zpos (digits2_pos (Pos.iter xO p x)) = Zpos (digits2_pos p) + Zpos x.
Proof.
  induction x as [| x IH] using Pos.peano_ind.
  - simpl. lia.
  - rewrite Pos.iter_succ. simpl digits2_pos. rewrite Pos2Z.inj_succ, IH. lia.
Qed.

Lemma shr_fexp_normal (m : positive) (e : Z) :
  Zpos (digits2_pos m) = 53 -> -1074 <= e ->
  shr_fexp prec emax (Zpos m) e loc_Exact
  = (Build_shr_record (Zpos m) false false, e).
Proof.
  intros D He. unfold shr_fexp, Zdigits2, fexp, emin, prec, emax. rewrite D.
  replace (Z.max (53 + e - 53) (3 - 1024 - 53) - e) with 0 by lia.
  reflexivity.
Qed.

Lemma binary_round_aux_normal (m : positive) (e : Z) :
  Zpos (digits2_pos m) = 53 -> -1074 <= e <= 971 ->
  binary_round_aux prec emax false (Zpos m) e loc_Exact = S754_finite false m e.
Proof.
  intros D He. unfold binary_round_aux.
  rewrite shr_fexp_normal by (assumption || lia). cbn [shr_m loc_of_shr_record round_nearest_even].
  rewrite shr_fexp_normal by (assumption || lia). cbn [shr_m].
  replace (e <=? emax - prec) with true
    by (symmetry; apply Z.leb_le; unfold emax, prec; lia).
  reflexivity.
Qed.

Lemma binary_normalize_holds (n : Z) :
  0 <= n < 2 ^ 53 -> holds n (binary_normalize prec emax n 0 false).
Proof.
  intros [H0 H53]. destruct n as [| p | p]; [reflexivity | | lia].
  unfold binary_normalize, binary_round.
  pose proof (digits2_pos_lower p) as L.
  assert (D : Zpos (digits2_pos p) <= 53)
    by (apply (Zdigits2_le (Zpos p)); lia).
  assert (D1 : 1 <= Zpos (digits2_pos p)) by lia.
  set (d := Zpos (digits2_pos p)) in *.
  replace (fexp prec emax (d + 0)) with (d - 53)
    by (unfold fexp, emin, prec, emax; lia).
  unfold shl_align.
  destruct (d - 53 - 0) as [| x | x] eqn:E; [| lia |].
  - rewrite binary_round_aux_normal by (fold d; lia).
    unfold holds. fold d. repeat split; lia.
  - assert (Hx : Zpos x = 53 - d) by lia.
    rewrite binary_round_aux_normal
      by (rewrite ?iter_xO_digits; fold d; lia).
    unfold holds. rewrite iter_xO_value, iter_xO_digits. fold d.
    replace (- (d - 53)) with (Zpos x) by lia.
    repeat split; lia.
Qed.

Lemma number_of_nat_holds (n : nat) :
  Z.of_nat n < 2 ^ 53 ->
  holds (Z.of_nat n) (Prim2SF (ComparisonAnalyzer.number_of_nat n)).
Proof.
  intro H. unfold ComparisonAnalyzer.number_of_nat.
  rewrite of_uint63_spec.
  change (Uint63Axioms.to_Z (Uint63.of_Z (Z.of_nat n)))
    with (Uint63.to_Z (Uint63.of_Z (Z.of_nat n))).
  rewrite Uint63.of_Z_spec, Z.mod_small.
  - apply binary_normalize_holds. lia.
  - change Uint63.wB with (2 ^ 63). split; [lia |].
    apply Z.lt_trans with (2 ^ 53); [exact H | reflexivity].
Qed.

Lemma new_location_exact (n r : Z) :
  new_location n r <> loc_Exact -> r <> 0.
Proof.
  intros H E. apply H. subst r.
  unfold new_location, new_location_even, new_location_odd.
  destruct (Z.even n); reflexivity.
Qed.

(** The quotient of two integers held exactly, the first not above the
    second, is at most 1. *)
Lemma SFdiv_below_one (u t : Z) (x y : spec_float) :
  0 <= u <= t -> 0 < t -> holds u x -> holds t y ->
  below 1 0 (SFdiv prec emax x y).
Proof.
  intros Hu Ht Hx Hy.
  destruct y as [sy | sy | | sy m2 e2]; simpl in Hy; try (exfalso; lia).
  destruct sy; [destruct Hy |]. destruct Hy as [He2 [Hm2 Hd2]].
  destruct x as [sx | sx | | sx m1 e1]; simpl in Hx; try (exfalso; tauto).
  - exact I.
  - destruct sx; [destruct Hx |]. destruct Hx as [He1 [Hm1 Hd1]].
    unfold SFdiv, SFdiv_core_binary, Zdigits2.
    rewrite Hd1, Hd2.
    replace (Z.min (fexp prec emax (53 + e1 - (53 + e2))) (e1 - e2))
      with (e1 - e2 - 53) by (unfold fexp, emin, prec, emax; lia).
    replace (e1 - e2 - (e1 - e2 - 53)) with 53 by lia.
    rewrite Z.shiftl_mul_pow2 by lia.
    pose proof (Z_div_mod (Zpos m1 * 2 ^ 53) (Zpos m2) eq_refl) as Q.
    destruct (Z.div_eucl (Zpos m1 * 2 ^ 53) (Zpos m2)) as [q r].
    destruct Q as [Q [R0 R1]].
    assert (P1 : 0 < 2 ^ (- e1)) by (apply Z.pow_pos_nonneg; lia).
    assert (P2 : 0 < 2 ^ (- e2)) by (apply Z.pow_pos_nonneg; lia).
    assert (B : Zpos m1 * 2 ^ 53 <= Zpos m2 * 2 ^ (0 - (e1 - e2 - 53))).
    { replace (0 - (e1 - e2 - 53)) with (- e1 + (e2 + 53)) by lia.
      rewrite Z.pow_add_r by lia.
      replace (2 ^ 53) with (2 ^ (- e2) * 2 ^ (e2 + 53))
        by (rewrite <- Z.pow_add_r by lia; f_equal; lia).
      assert (0 < 2 ^ (e2 + 53)) by (apply Z.pow_pos_nonneg; lia).
      rewrite Hm1, Hm2. nia. }
    assert (P : 0 < 2 ^ (0 - (e1 - e2 - 53))) by (apply Z.pow_pos_nonneg; lia).
    set (X := 2 ^ (0 - (e1 - e2 - 53))) in *.
    assert (N0 : 0 <= Zpos m1 * 2 ^ 53) by (apply Z.mul_nonneg_nonneg; lia).
    apply binary_round_aux_below; try lia; fold X.
    + nia.
    + assert (Zpos m2 * q <= Zpos m2 * X) by lia. nia.
    + intro N. apply new_location_exact in N.
      assert (Zpos m2 * q < Zpos m2 * X) by lia. nia.
Qed.

(** The product of a double that is at most 1 by 100 is at most 100. *)
Lemma SFmul_100_below (x : spec_float) :
  below 1 0 x -> below 25 2 (SFmul prec emax x (Prim2SF 100)).
Proof.
  intro H. change (Prim2SF 100) with (S754_finite false 7036874417766400 (-46)).
  destruct x as [sx | sx | | sx m e]; cbn [below] in H; try (exfalso; tauto).
  - destruct sx; exact I.
  - destruct sx; [destruct H |]. destruct H as [He Hm].
    unfold SFmul. cbn [xorb].
    assert (P : 0 < 2 ^ (0 - e)) by (apply Z.pow_pos_nonneg; lia).
    assert (E : 2 ^ (2 - (e + -46)) = 2 ^ (0 - e) * 2 ^ 48)
      by (rewrite <- Z.pow_add_r by lia; f_equal; lia).
    apply binary_round_aux_below; try lia; intro N; now elim N.
Qed.

End Conversion.

Section Percentage.
Import Binary64.
Local Open Scope Z_scope.

Lemma nearest_hundredth_below (m : positive) (e : Z) :
  e <= 2 -> Zpos m <= 25 * 2 ^ (2 - e) ->
  0 <= ComparisonAnalyzer.nearest_hundredth (Zpos m) e <= 10000.
Proof.
  intros He Hm. unfold ComparisonAnalyzer.nearest_hundredth.
  destruct (Z.leb_spec 0 e) as [H0 | H0].
  - assert (P : 0 < 2 ^ e) by (apply Z.pow_pos_nonneg; lia).
    assert (E : 2 ^ (2 - e) * 2 ^ e = 4)
      by (rewrite <- Z.pow_add_r by lia; replace (2 - e + e) with 2 by lia;
          reflexivity).
    nia.
  - assert (P : 0 < 2 ^ (- e)) by (apply Z.pow_pos_nonneg; lia).
    assert (E1 : 2 ^ (1 - e) = 2 * 2 ^ (- e))
      by (replace (1 - e) with (Z.succ (- e)) by lia; apply Z.pow_succ_r; lia).
    assert (E2 : 2 ^ (2 - e) = 2 * 2 ^ (1 - e))
      by (replace (2 - e) with (Z.succ (1 - e)) by lia; apply Z.pow_succ_r; lia).
    rewrite E1 in *. rewrite E2 in Hm.
    split.
    + apply Z.div_pos; lia.
    + apply Z.lt_succ_r. apply Z.div_lt_upper_bound; lia.
Qed.

(** The percentage of [u] out of [t] detections, as the double arithmetic
    and [toFixed(2)] print it: the text of a number of hundredths between
    0 and 10000. *)
Lemma toFixed2_percentage (u t : nat) :
  (u <= t)%nat -> (0 < t)%nat -> Z.of_nat t < 2 ^ 53 ->
  exists n,
    0 <= n <= 10000
    /\ ComparisonAnalyzer.toFixed2
         (ComparisonAnalyzer.number_of_nat u / ComparisonAnalyzer.number_of_nat t * 100)%float
       = ComparisonAnalyzer.fixed2_digits n.
Proof.
  intros Hu Ht H53.
  assert (B : below 25 2
                (Prim2SF (ComparisonAnalyzer.number_of_nat u / ComparisonAnalyzer.number_of_nat t * 100)%float)).
  { rewrite mul_spec, div_spec. apply SFmul_100_below.
    apply (SFdiv_below_one (Z.of_nat u) (Z.of_nat t));
      try lia; apply number_of_nat_holds; lia. }
  unfold ComparisonAnalyzer.toFixed2.
  destruct (Prim2SF _) as [s | s | | s m e]; cbn [below] in B; try (exfalso; tauto).
  - exists 0. split; [lia | reflexivity].
  - destruct s; [destruct B |]. destruct B as [He Hm].
    exists (ComparisonAnalyzer.nearest_hundredth (Zpos m) e).
    split; [now apply nearest_hundredth_below | reflexivity].
Qed.

End Percentage.

(* ================================================================== *)
(** ** Reading a stored rate                                           *)
(* ================================================================== *)

Section Reading.
Import Js.
Local Open Scope string_scope.

Lemma take_drop (j : nat) (s : string) : ComparisonAnalyzer.take j s ++ drop j s = s.
Proof.
  revert s. induction j as [| j IH]; intro s; [reflexivity |].
  destruct s as [| c s]; [reflexivity |]. simpl. now rewrite IH.
Qed.

Lemma length_drop (j : nat) (s : string) :
  String.length (drop j s) = (String.length s - j)%nat.
Proof.
  revert s. induction j as [| j IH]; intro s; simpl; [lia |].
  destruct s as [| c s]; [reflexivity | simpl; apply IH].
Qed.

Lemma split_at_point_append (a b : string) :
  Spec.split_at_point a = (a, "") ->
  Spec.split_at_point (a ++ "." ++ b) = (a, b).
Proof.
  induction a as [| c a IH]; intro H; [reflexivity |].
  simpl in *. destruct (Ascii.eqb c "."); [discriminate H |].
  destruct (Spec.split_at_point a) as [whole fraction].
  injection H as -> ->. now rewrite IH.
Qed.

Lemma split_at_point_take (j : nat) (s : string) :
  Spec.split_at_point s = (s, "") ->
  Spec.split_at_point (ComparisonAnalyzer.take j s) = (ComparisonAnalyzer.take j s, "").
Proof.
  revert s. induction j as [| j IH]; intros s H; [reflexivity |].
  destruct s as [| c s]; [reflexivity |].
  simpl in *. destruct (Ascii.eqb c "."); [discriminate H |].
  destruct (Spec.split_at_point s) as [whole fraction] eqn:E.
  injection H as -> ->. now rewrite (IH s E).
Qed.

Lemma split_at_point_digits (d : Decimal.uint) :
  Spec.split_at_point (NilEmpty.string_of_uint d)
  = (NilEmpty.string_of_uint d, "").
Proof.
  induction d; simpl; rewrite ?IHd; reflexivity.
Qed.

(** The digits [fixed2_digits] splits: those of [n], with zeros in front
    up to three digits. *)
Lemma padded_digits (n : Z) :
  (0 <= n)%Z ->
  exists d,
    ComparisonAnalyzer.padded n = NilEmpty.string_of_uint d
    /\ Z.of_uint d = n
    /\ (3 <= String.length (NilEmpty.string_of_uint d))%nat.
Proof.
  intro H. unfold ComparisonAnalyzer.padded, string_of_Z.
  pose proof (DecimalZ.of_to n) as E.
  assert (P : exists d, Z.to_int n = Decimal.Pos d /\ d <> Decimal.Nil).
  { destruct n as [| p | p]; [| | lia]; simpl.
    - eexists. split; [reflexivity | discriminate].
    - eexists. split; [reflexivity |].
      intro N. pose proof (DecimalPos.Unsigned.of_to p) as Q.
      rewrite N in Q. discriminate Q. }
  destruct P as [d [Hd Hn]]. rewrite Hd in *. simpl in E.
  cbn [NilZero.string_of_int].
  replace (NilZero.string_of_uint d) with (NilEmpty.string_of_uint d)
    by (destruct d; try reflexivity; now elim Hn).
  cbv zeta.
  destruct (String.length (NilEmpty.string_of_uint d) <=? 2)%nat eqn:L.
  - apply Nat.leb_le in L.
    destruct (NilEmpty.string_of_uint d) as [| c1 [| c2 [| c3 s]]] eqn:S;
      simpl in L; try lia.
    + destruct d; discriminate S || now elim Hn.
    + exists (Decimal.D0 (Decimal.D0 d)). simpl. rewrite S.
      repeat split; [exact E | simpl; lia].
    + exists (Decimal.D0 d). simpl. rewrite S.
      repeat split; [exact E | simpl; lia].
  - apply Nat.leb_gt in L. exists d. repeat split; [exact E | lia].
Qed.

Lemma fixed2_digits_reads (n : Z) :
  (0 <= n)%Z -> Spec.number_of_text (ComparisonAnalyzer.fixed2_digits n) = Some (n # 100).
Proof.
  intro H. unfold ComparisonAnalyzer.fixed2_digits. cbv zeta.
  destruct (padded_digits n H) as [d [-> [Hd L]]].
  set (m := NilEmpty.string_of_uint d) in *.
  unfold Spec.number_of_text.
  rewrite split_at_point_append
    by (apply split_at_point_take, split_at_point_digits).
  rewrite take_drop, length_drop.
  replace (String.length m - (String.length m - 2))%nat with 2%nat by lia.
  replace (NilZero.uint_of_string m) with (NilEmpty.uint_of_string m)
    by (destruct m; [simpl in L; lia | reflexivity]).
  unfold m. rewrite NilEmpty.usu, Hd. reflexivity.
Qed.

End Reading.

(* ================================================================== *)
(** ** Effectiveness                                                   *)
(* ================================================================== *)

Section Effectiveness.
Import Js ComparisonAnalyzer.

Lemma entry_unique (results : toolResults) (toolName : string)
  (a1 a2 : list Alert.t) :
  NoDup (map fst results) ->
  In (toolName, a1) results -> In (toolName, a2) results -> a1 = a2.
Proof.
  induction results as [| e results IH]; intros N H1 H2; [destruct H1 |].
  simpl in N. inversion N as [| k ks Hk N']. subst.
  destruct H1 as [-> | H1], H2 as [E | H2].
  - now injection E.
  - elim Hk. apply (in_map fst) in H2. exact H2.
  - subst e. elim Hk. apply (in_map fst) in H1. exact H1.
  - now apply IH.
Qed.

Lemma reports_In (results : toolResults) (toolName : string) (a : Alert.t) :
  In (toolName, a) (Index.reports results) ->
  exists alerts, In (toolName, alerts) results /\ In a alerts.
Proof.
  unfold Index.reports. rewrite in_flat_map.
  intros [[t alerts] [He Hp]]. simpl in Hp.
  apply in_map_iff in Hp. destruct Hp as [a' [E Ha']].
  injection E as -> ->. now exists alerts.
Qed.

(** A group that only [toolName] reported, once, carries the fingerprint of
    one of the alerts of [toolName]. *)
Lemma sole_detector_alert (results : toolResults) (toolName : string)
  (alerts : list Alert.t) (g : group) :
  NoDup (map fst results) ->
  In (toolName, alerts) results ->
  In g (unique (findOverlap results)) ->
  first_is toolName g = true ->
  In (fingerprint g) (map ResultNormalizer.createFingerprint alerts).
Proof.
  intros N He Hg Hf. simpl in Hg.
  apply filter_In in Hg. destruct Hg as [Hg _].
  destruct (index_group _ _ Hg) as [D _].
  unfold first_is in Hf. rewrite D in Hf. unfold Index.detectors in Hf.
  destruct (Index.reports_of (fingerprint g) (Index.reports results))
    as [| [t a] l] eqn:E; [discriminate Hf |].
  simpl in Hf. apply String.eqb_eq in Hf. subst t.
  assert (Hp : In (toolName, a)
                  (Index.reports_of (fingerprint g) (Index.reports results)))
    by (rewrite E; now left).
  unfold Index.reports_of in Hp. apply filter_In in Hp.
  destruct Hp as [Hp Hk]. simpl in Hk. apply String.eqb_eq in Hk.
  destruct (reports_In _ _ _ Hp) as [alerts' [He' Ha]].
  rewrite (entry_unique _ _ _ _ N He He'). rewrite <- Hk. now apply in_map.
Qed.

Lemma unique_detections_bound (results : toolResults) (toolName : string)
  (alerts : list Alert.t) :
  NoDup (map fst results) ->
  In (toolName, alerts) results ->
  (List.length (filter (first_is toolName) (unique (findOverlap results)))
   <= List.length alerts)%nat.
Proof.
  intros N He.
  rewrite <- (length_map fingerprint), <- (length_map ResultNormalizer.createFingerprint alerts).
  apply NoDup_incl_length.
  - apply (keys_filter_NoDup (first_is toolName)). simpl.
    apply keys_filter_NoDup, index_NoDup.
  - intros k Hk. apply in_map_iff in Hk. destruct Hk as [g [<- Hg]].
    apply filter_In in Hg. destruct Hg as [Hg Hf].
    now apply (sole_detector_alert results toolName).
Qed.

(** C7, as the code has it: for every tool of the output, the unique
    detections do not exceed the total detections, so that the exact
    percentage lies between 0 and 100; [uniqueness_rate] is the number 0
    when there is no detection, and otherwise the text [toFixed(2)] prints
    for the double [unique_detections / total_detections * 100]: the text
    of two decimals is what is stored, and the number it reads as lies
    between 0 and 100.  An array holds fewer than 2^32 alerts. *)
Theorem uniqueness_rate_stored (results : toolResults) (toolName : string)
  (m : metrics) :
  NoDup (map fst results) ->
  In (toolName, m) (calculateEffectiveness results (findOverlap results)) ->
  (Z.of_nat (total_detections m) < 2 ^ 32)%Z ->
  (unique_detections m <= total_detections m)%nat
  /\ (0 <= Spec.uniqueness_rate (unique_detections m) (total_detections m) <= 100)%Q
  /\ uniqueness_rate m =
       (if (0 <? total_detections m)%nat
        then Str (toFixed2 (number_of_nat (unique_detections m)
                            / number_of_nat (total_detections m) * 100)%float)
        else Num 0)
  /\ (exists n,
        (0 <= n <= 10000)%Z
        /\ uniqueness_rate m =
             (if (0 <? total_detections m)%nat then Str (fixed2_digits n)
              else Num 0)
        /\ Spec.number_of (Str (fixed2_digits n)) = Some (n # 100))
  /\ (exists q, Spec.number_of (uniqueness_rate m) = Some q /\ (0 <= q <= 100)%Q).
Proof.
  intros N H L. unfold calculateEffectiveness in H.
  apply in_map_iff in H. destruct H as [[t alerts] [E He]].
  simpl in E. injection E as -> <-. cbn [total_detections unique_detections
    uniqueness_rate tool_metrics] in *.
  pose proof (unique_detections_bound results toolName alerts N He) as B.
  set (u := List.length (filter _ _)) in *. set (n := List.length alerts) in *.
  assert (Hq : (0 <= Spec.uniqueness_rate u n <= 100)%Q).
  { unfold Spec.uniqueness_rate.
    destruct (0 <? n)%nat eqn:En; [| split; discriminate].
    apply Nat.ltb_lt in En.
    assert (Hn : (0 < inject_Z (Z.of_nat n))%Q).
    { change 0%Q with (inject_Z 0). rewrite <- Zlt_Qlt. lia. }
    assert (Hu : (0 <= inject_Z (Z.of_nat u))%Q).
    { change 0%Q with (inject_Z 0). rewrite <- Zle_Qle. lia. }
    assert (Hun : (inject_Z (Z.of_nat u) <= inject_Z (Z.of_nat n))%Q).
    { rewrite <- Zle_Qle. lia. }
    split.
    - apply Qmult_le_0_compat; [| discriminate].
      apply Qle_shift_div_l; [exact Hn |]. now rewrite Qmult_0_l.
    - setoid_replace 100%Q with (1 * 100)%Q at 2 by reflexivity.
      apply Qmult_le_compat_r; [| discriminate].
      apply Qle_shift_div_r; [exact Hn |]. now rewrite Qmult_1_l. }
  assert (Hn : exists h,
             (0 <= h <= 10000)%Z
             /\ (if (0 <? n)%nat
                 then Str (toFixed2 (number_of_nat u / number_of_nat n * 100)%float)
                 else Num 0)
                = (if (0 <? n)%nat then Str (fixed2_digits h) else Num 0)).
  { destruct (0 <? n)%nat eqn:En.
    - apply Nat.ltb_lt in En.
      destruct (toFixed2_percentage u n B En) as [h [Hh Eh]].
      + apply Z.lt_trans with (2 ^ 32)%Z; [exact L | reflexivity].
      + exists h. split; [exact Hh | now rewrite Eh].
    - exists 0%Z. split; [lia | reflexivity]. }
  destruct Hn as [h [Hh Eh]].
  split; [exact B | split; [exact Hq | split; [reflexivity | split]]].
  - exists h. split; [exact Hh | split; [exact Eh |]].
    apply fixed2_digits_reads. lia.
  - rewrite Eh. destruct (0 <? n)%nat.
    + exists (h # 100). split; [apply fixed2_digits_reads; lia |].
      unfold Qle. simpl. lia.
    + exists (inject_Z 0). split; [reflexivity | split; discriminate].
Qed.

Lemma uniqueness_rate_stored_witness :
  NoDup (map fst Sample.scenario)
  /\ In ("B", mkMetrics 2 1 1 (Str "50.00"))
        (calculateEffectiveness Sample.scenario (findOverlap Sample.scenario))
  /\ (Z.of_nat 2 < 2 ^ 32)%Z
  /\ (1 <= 2)%nat
  /\ (0 <= Spec.uniqueness_rate 1 2 <= 100)%Q
  /\ (exists q, Spec.number_of (Str "50.00") = Some q /\ (0 <= q <= 100)%Q).
Proof.
  assert (N : NoDup (map fst Sample.scenario)).
  { simpl. repeat constructor; simpl; intuition discriminate. }
  assert (H : In ("B", mkMetrics 2 1 1 (Str "50.00"))
                 (calculateEffectiveness Sample.scenario (findOverlap Sample.scenario))).
  { right. left. vm_compute. reflexivity. }
  assert (L : (Z.of_nat 2 < 2 ^ 32)%Z) by reflexivity.
  destruct (uniqueness_rate_stored Sample.scenario "B" _ N H L)
    as [Hb [Hq [_ [_ Hr]]]].
  exact (conj N (conj H (conj L (conj Hb (conj Hq Hr))))).
Defined.

(** C7, as the specification words it, fails: with one unique detection
    out of three the stored rate is the text 33.33, whose number is not the
    exact percentage 100/3. *)
Lemma uniqueness_rate_is_rounded_text :
  calculateEffectiveness Sample.one_in_three (findOverlap Sample.one_in_three)
    = [("A", mkMetrics 3 1 1 (Str "33.33"))]
  /\ Spec.number_of (Str "33.33") = Some (3333 # 100)
  /\ ~ (3333 # 100 == Spec.uniqueness_rate 1 3)%Q
  /\ ~ (forall results toolName m q,
          In (toolName, m) (calculateEffectiveness results (findOverlap results)) ->
          Spec.number_of (uniqueness_rate m) = Some q ->
          (q == Spec.uniqueness_rate (unique_detections m) (total_detections m))%Q).
Proof.
  assert (Hne : ~ (3333 # 100 == Spec.uniqueness_rate 1 3)%Q).
  { vm_compute. discriminate. }
  split; [vm_compute; reflexivity | split; [reflexivity | split; [exact Hne |]]].
  intro H.
  apply Hne.
  apply (H Sample.one_in_three "A" (mkMetrics 3 1 1 (Str "33.33"))).
  - left. vm_compute. reflexivity.
  - reflexivity.
Qed.

End Effectiveness.

(* ================================================================== *)
(** ** The partition of [findOverlap]                                  *)
(* ================================================================== *)

(** Reading a chain of binds that returned. *)
Ltac returned H :=
  repeat match type of H with
         | Js.bind ?m _ = Js.Returns _ =>
             let E := fresh "E" in
             destruct m eqn:E; cbn [Js.bind] in H; [| discriminate H]
         end.

Section OverlapPartition.
Import Js ComparisonAnalyzer.

Lemma index_detected (results : toolResults) :
  Forall (fun g => detectedBy g <> []) (group_by_fingerprint results).
Proof.
  apply Forall_forall. intros g H. now apply (index_group results).
Qed.

Lemma partition_length (gs : list group) :
  Forall (fun g => detectedBy g <> []) gs ->
  List.length gs =
    (List.length (filter (fun f => (1 <? List.length (detectedBy f))%nat) gs)
     + List.length (filter (fun f => (List.length (detectedBy f) =? 1)%nat) gs))%nat.
Proof.
  induction 1 as [| g gs Hg _ IH]; [reflexivity |].
  simpl. destruct (detectedBy g) as [| t [| t' d]]; [now elim Hg | |]; simpl; lia.
Qed.

Lemma reports_snd (results : toolResults) :
  map snd (Index.reports results) = Derived.all_alerts results.
Proof.
  unfold Index.reports, Derived.all_alerts.
  induction results as [| [t alerts] results IH]; [reflexivity |].
  simpl. rewrite map_app, IH, map_map. simpl. now rewrite map_id.
Qed.

Lemma first_with_reports (fp : string) (l : list (string * Alert.t)) :
  Derived.first_with fp (map snd l) =
    match Index.reports_of fp l with
    | [] => None
    | p :: _ => Some (snd p)
    end.
Proof.
  unfold Derived.first_with, Index.reports_of.
  induction l as [| p l IH]; [reflexivity |].
  simpl. destruct (ResultNormalizer.createFingerprint (snd p) =? fp);
    [reflexivity | exact IH].
Qed.

Lemma index_keys_reported (results : toolResults) (fp : string) :
  In fp (Index.keys (group_by_fingerprint results)) <->
  In fp (map ResultNormalizer.createFingerprint (Derived.all_alerts results)).
Proof.
  rewrite <- (filter_all (group_by_fingerprint results)).
  rewrite (part_member results fp (fun _ => true)).
  rewrite <- reports_snd, map_map, in_map_iff.
  unfold Index.detectors, Index.reports_of.
  split.
  - intros [Hne _].
    destruct (filter _ (Index.reports results)) as [| p l] eqn:E; [now elim Hne |].
    assert (Hp : In p (filter (fun p => ResultNormalizer.createFingerprint (snd p) =? fp)
                              (Index.reports results))) by (rewrite E; now left).
    apply filter_In in Hp. destruct Hp as [Hp Hk]. apply String.eqb_eq in Hk.
    now exists p.
  - intros [p [Hk Hp]]. split; [| reflexivity].
    assert (Hf : In p (filter (fun p => ResultNormalizer.createFingerprint (snd p) =? fp)
                              (Index.reports results)))
      by (apply filter_In; split; [exact Hp | now apply String.eqb_eq]).
    intro E. apply (in_map fst) in Hf. rewrite E in Hf. destruct Hf.
Qed.

(** A group carries the fingerprint of its alert, which is the first alert
    of the input with that fingerprint. *)
Lemma index_representative (results : toolResults) (g : group) :
  In g (group_by_fingerprint results) ->
  fingerprint g = ResultNormalizer.createFingerprint (alert g)
  /\ Derived.first_with (fingerprint g) (Derived.all_alerts results) = Some (alert g).
Proof.
  intro H. apply In_find_group in H; [| apply index_NoDup].
  rewrite index_find in H. rewrite <- reports_snd, first_with_reports. revert H.
  destruct (Index.reports_of (fingerprint g) (Index.reports results)) as [| p l] eqn:E;
    intro H; [discriminate H |].
  injection H as Hg.
  assert (F : fingerprint g = ResultNormalizer.createFingerprint (snd p))
    by (rewrite <- Hg; reflexivity).
  assert (A : alert g = snd p) by (rewrite <- Hg; reflexivity).
  rewrite A. split; [exact F | reflexivity].
Qed.

(** X1: [findOverlap] splits the fingerprint index in two: [total] is the
    number of groups in [overlap] plus the number in [unique], and it is
    the number of distinct fingerprints of the input.  A group of
    [overlap] has at least two entries in [detectedBy], a group of
    [unique] exactly one.  Every group is keyed by the fingerprint of its
    alert, which is the first alert of the input with that fingerprint,
    and [detectedBy] lists the tool of every report of it, in the order of
    the input. *)
Theorem findOverlap_partition (results : toolResults) :
  total (findOverlap results)
    = (List.length (overlap (findOverlap results))
       + List.length (unique (findOverlap results)))%nat
  /\ total (findOverlap results)
     = List.length (Derived.fingerprints (Derived.all_alerts results))
  /\ (forall g, In g (overlap (findOverlap results)) ->
                (2 <= List.length (detectedBy g))%nat)
  /\ (forall g, In g (unique (findOverlap results)) ->
                exists toolName, detectedBy g = [toolName])
  /\ (forall g, In g (overlap (findOverlap results) ++ unique (findOverlap results)) ->
                fingerprint g = ResultNormalizer.createFingerprint (alert g)
                /\ Derived.first_with (fingerprint g) (Derived.all_alerts results)
                   = Some (alert g)
                /\ detectedBy g
                   = Index.detectors (fingerprint g) (Index.reports results)).
Proof.
  unfold findOverlap. cbn [total overlap unique].
  split; [apply partition_length, index_detected |].
  split; [| split; [| split]].
  - rewrite <- (length_map fingerprint).
    apply Permutation_length, NoDup_Permutation.
    + apply index_NoDup.
    + apply NoDup_nodup.
    + intro fp. unfold Derived.fingerprints. rewrite nodup_In.
      apply index_keys_reported.
  - intros g H. apply filter_In in H. destruct H as [_ H].
    apply Nat.ltb_lt in H. lia.
  - intros g H. apply filter_In in H. destruct H as [_ H].
    apply Nat.eqb_eq in H.
    destruct (detectedBy g) as [| t [| t' d]]; try discriminate H. now exists t.
  - intros g H.
    assert (G : In g (group_by_fingerprint results)).
    { apply in_app_or in H. destruct H as [H | H]; apply filter_In in H; tauto. }
    destruct (index_representative _ _ G) as [F R].
    split; [exact F | split; [exact R | apply (index_group _ _ G)]].
Qed.

End OverlapPartition.

(* ================================================================== *)
(** ** Every report is counted once                                    *)
(* ================================================================== *)

Section OverlapCounts.
Import Js ComparisonAnalyzer.

Lemma reports_count_push (fp toolName : string) (gs : list group) :
  has_group fp gs = true ->
  Derived.reports_count (push_detectedBy fp toolName gs)
  = S (Derived.reports_count gs).
Proof.
  induction gs as [| g gs IH]; intro H; simpl in *; [discriminate H |].
  destruct (fingerprint g =? fp); simpl.
  - rewrite length_app. simpl. lia.
  - rewrite IH by exact H. lia.
Qed.

Lemma ensure_group_has (fp : string) (a : Alert.t) (gs : list group) :
  has_group fp (ensure_group fp a gs) = true
  /\ Derived.reports_count (ensure_group fp a gs) = Derived.reports_count gs.
Proof.
  unfold ensure_group. destruct (has_group fp gs) eqn:E; [now split |].
  split.
  - apply has_group_keys. unfold Index.keys. rewrite map_app. apply in_or_app.
    right. now left.
  - induction gs as [| g gs IH]; simpl in *; [reflexivity |].
    apply orb_false_iff in E. rewrite IH by tauto. reflexivity.
Qed.

Lemma reports_count_fold (l : list (string * Alert.t)) :
  forall gs,
    Derived.reports_count (Index.fold_reports l gs)
    = (Derived.reports_count gs + List.length l)%nat.
Proof.
  induction l as [| p l IH]; intro gs; simpl; [lia |].
  rewrite IH. unfold record_alert.
  destruct (ensure_group_has (ResultNormalizer.createFingerprint (snd p)) (snd p) gs)
    as [H E].
  rewrite reports_count_push by exact H. rewrite E. lia.
Qed.

Lemma reports_count_parts (gs : list group) :
  Forall (fun g => detectedBy g <> []) gs ->
  Derived.reports_count gs =
    (Derived.reports_count (filter (fun f => (1 <? List.length (detectedBy f))%nat) gs)
     + List.length (filter (fun f => (List.length (detectedBy f) =? 1)%nat) gs))%nat.
Proof.
  induction 1 as [| g gs Hg _ IH]; [reflexivity |].
  simpl. destruct (detectedBy g) as [| t [| t' d]] eqn:E; [now elim Hg | |]; simpl;
    rewrite ?E; simpl; lia.
Qed.

(** X2: no report is lost and none is counted twice: the entries of the
    [detectedBy] lists of the groups of [overlap], plus one for each group
    of [unique], add up to the number of alerts of the input. *)
Theorem findOverlap_counts_every_report (results : toolResults) :
  (Derived.reports_count (overlap (findOverlap results))
   + List.length (unique (findOverlap results)))%nat
  = List.length (Derived.all_alerts results).
Proof.
  unfold findOverlap. cbn [overlap unique].
  rewrite <- reports_count_parts by apply index_detected.
  rewrite group_by_fingerprint_reports, reports_count_fold.
  rewrite <- reports_snd, length_map. reflexivity.
Qed.

End OverlapCounts.

(* ================================================================== *)
(** ** Shared and unique detections of a tool                          *)
(* ================================================================== *)

Section SharedAndUnique.
Import Js ComparisonAnalyzer.

Lemma detected_by_In (toolName : string) (g : group) :
  detected_by toolName g = true <-> In toolName (detectedBy g).
Proof.
  unfold detected_by. rewrite existsb_exists. split.
  - intros [t [Ht E]]. apply String.eqb_eq in E. now subst t.
  - intro H. exists toolName. split; [exact H | apply String.eqb_refl].
Qed.

Lemma detected_parts (toolName : string) (gs : list group) :
  Forall (fun g => detectedBy g <> []) gs ->
  List.length (filter (detected_by toolName) gs) =
    (List.length
       (filter (first_is toolName)
               (filter (fun f => (List.length (detectedBy f) =? 1)%nat) gs))
     + List.length
         (filter (detected_by toolName)
                 (filter (fun f => (1 <? List.length (detectedBy f))%nat) gs)))%nat.
Proof.
  induction 1 as [| g gs Hg _ IH]; [reflexivity |].
  cbn [filter].
  assert (C : (exists t, detectedBy g = [t])
              \/ (1 <? List.length (detectedBy g))%nat = true).
  { destruct (detectedBy g) as [| t [| t' d]]; [now elim Hg | left | right];
      [now exists t | reflexivity]. }
  destruct C as [[t E] | L].
  - assert (F : first_is toolName g = (t =? toolName))
      by (unfold first_is; now rewrite E).
    assert (D : detected_by toolName g = (t =? toolName))
      by (unfold detected_by; rewrite E; simpl; apply orb_false_r).
    assert (L1 : (List.length (detectedBy g) =? 1)%nat = true)
      by (now rewrite E).
    assert (L2 : (1 <? List.length (detectedBy g))%nat = false)
      by (now rewrite E).
    rewrite L1, L2. cbn [filter]. rewrite F, D.
    destruct (t =? toolName); cbn [List.length]; lia.
  - assert (L1 : (List.length (detectedBy g) =? 1)%nat = false).
    { apply Nat.ltb_lt in L. apply Nat.eqb_neq. lia. }
    rewrite L, L1. cbn [filter].
    destruct (detected_by toolName g); cbn [List.length]; lia.
Qed.

Lemma In_reports (results : toolResults) (toolName : string)
  (alerts : list Alert.t) (a : Alert.t) :
  In (toolName, alerts) results -> In a alerts ->
  In (toolName, a) (Index.reports results).
Proof.
  intros He Ha. unfold Index.reports. apply in_flat_map.
  exists (toolName, alerts). split; [exact He | simpl; now apply in_map].
Qed.

(** The groups a tool is a detector of are those of the fingerprints of its
    own alerts. *)
Lemma tool_fingerprints (results : toolResults) (toolName : string)
  (alerts : list Alert.t) (fp : string) :
  NoDup (map fst results) ->
  In (toolName, alerts) results ->
  In fp (Index.keys (filter (detected_by toolName) (group_by_fingerprint results)))
  <-> In fp (map ResultNormalizer.createFingerprint alerts).
Proof.
  intros N He. unfold Index.keys. rewrite !in_map_iff. split.
  - intros [g [<- Hg]]. apply filter_In in Hg. destruct Hg as [Hg Hd].
    apply detected_by_In in Hd.
    destruct (index_group _ _ Hg) as [D _]. rewrite D in Hd.
    unfold Index.detectors in Hd. apply in_map_iff in Hd.
    destruct Hd as [[t a] [Et Hp]]. simpl in Et. subst t.
    unfold Index.reports_of in Hp. apply filter_In in Hp.
    destruct Hp as [Hp Hk]. simpl in Hk. apply String.eqb_eq in Hk.
    destruct (reports_In _ _ _ Hp) as [alerts' [He' Ha]].
    rewrite (entry_unique _ _ _ _ N He He'). now exists a.
  - intros [a [<- Ha]].
    pose proof (In_reports _ _ _ _ He Ha) as Hp.
    assert (Hf : In (toolName, a)
                    (Index.reports_of (ResultNormalizer.createFingerprint a)
                                      (Index.reports results))).
    { unfold Index.reports_of. apply filter_In. split; [exact Hp |].
      simpl. apply String.eqb_refl. }
    pose proof (index_find results (ResultNormalizer.createFingerprint a)) as F.
    destruct (Index.reports_of (ResultNormalizer.createFingerprint a)
                               (Index.reports results)) as [| p l] eqn:E;
      [destruct Hf |].
    apply find_group_In in F. destruct F as [Hg Hk].
    eexists. split; [exact Hk |].
    apply filter_In. split; [exact Hg |].
    apply detected_by_In. cbn [detectedBy]. unfold Index.detectors.
    rewrite E. apply (in_map fst) in Hf. exact Hf.
Qed.

Lemma length_nodup_le (l : list string) :
  (List.length (nodup string_dec l) <= List.length l)%nat.
Proof.
  induction l as [| x l IH]; simpl; [lia |].
  destruct (in_dec string_dec x l); simpl; lia.
Qed.

Lemma length_nodup_eq (l : list string) :
  List.length (nodup string_dec l) = List.length l <-> NoDup l.
Proof.
  split.
  - induction l as [| x l IH]; simpl; [constructor |].
    pose proof (length_nodup_le l) as B.
    destruct (in_dec string_dec x l); simpl; intro H; [lia |].
    constructor; [assumption | apply IH; lia].
  - intro H. now rewrite nodup_fixed_point.
Qed.

Lemma tool_detections (results : toolResults) (toolName : string)
  (m : metrics) :
  NoDup (map fst results) ->
  In (toolName, m) (calculateEffectiveness results (findOverlap results)) ->
  exists alerts,
    In (toolName, alerts) results
    /\ total_detections m = List.length alerts
    /\ (unique_detections m + shared_detections m)%nat
       = List.length (Derived.fingerprints alerts)
    /\ (unique_detections m + shared_detections m <= total_detections m)%nat
    /\ ((unique_detections m + shared_detections m)%nat = total_detections m
        <-> NoDup (map ResultNormalizer.createFingerprint alerts)).
Proof.
  intros N H. unfold calculateEffectiveness in H.
  apply in_map_iff in H. destruct H as [[t alerts] [E He]].
  simpl in E. injection E as -> <-.
  cbn [total_detections unique_detections shared_detections tool_metrics].
  exists alerts. split; [exact He | split; [reflexivity |]].
  assert (D : (List.length (filter (first_is toolName) (unique (findOverlap results)))
               + List.length (filter (detected_by toolName) (overlap (findOverlap results))))%nat
              = List.length (Derived.fingerprints alerts)).
  { unfold findOverlap. cbn [overlap unique].
    rewrite <- detected_parts by apply index_detected.
    rewrite <- (length_map fingerprint).
    apply Permutation_length, NoDup_Permutation.
    - apply (keys_filter_NoDup (detected_by toolName)), index_NoDup.
    - apply NoDup_nodup.
    - intro fp. unfold Derived.fingerprints. rewrite nodup_In.
      now apply tool_fingerprints. }
  rewrite D. unfold Derived.fingerprints.
  rewrite <- (length_map ResultNormalizer.createFingerprint alerts).
  split; [reflexivity | split; [apply length_nodup_le | apply length_nodup_eq]].
Qed.

(** X3: for a tool of the output of [calculateEffectiveness] (the names of
    the tools being distinct), [unique_detections] plus [shared_detections]
    is the number of distinct fingerprints among the alerts of the tool.
    It never exceeds [total_detections], and it equals [total_detections]
    exactly when no two alerts of the tool share a fingerprint. *)
Theorem shared_and_unique_detections (results : toolResults) (toolName : string)
  (m : metrics) :
  NoDup (map fst results) ->
  In (toolName, m) (calculateEffectiveness results (findOverlap results)) ->
  exists alerts,
    In (toolName, alerts) results
    /\ total_detections m = List.length alerts
    /\ (unique_detections m + shared_detections m)%nat
       = List.length (Derived.fingerprints alerts)
    /\ (unique_detections m + shared_detections m <= total_detections m)%nat
    /\ ((unique_detections m + shared_detections m)%nat = total_detections m
        <-> NoDup (map ResultNormalizer.createFingerprint alerts)).
Proof.
  apply tool_detections.
Qed.

Lemma shared_and_unique_detections_witness :
  NoDup (map fst Sample.one_in_three)
  /\ In ("A", mkMetrics 3 1 1 (Str "33.33"))
        (calculateEffectiveness Sample.one_in_three (findOverlap Sample.one_in_three))
  /\ (1 + 1 <= 3)%nat.
Proof.
  assert (N : NoDup (map fst Sample.one_in_three)).
  { simpl. repeat constructor; simpl; intuition discriminate. }
  assert (H : In ("A", mkMetrics 3 1 1 (Str "33.33"))
                 (calculateEffectiveness Sample.one_in_three
                    (findOverlap Sample.one_in_three))).
  { left. vm_compute. reflexivity. }
  destruct (shared_and_unique_detections Sample.one_in_three "A" _ N H)
    as [alerts [_ [_ [_ [B _]]]]].
  exact (conj N (conj H B)).
Defined.

End SharedAndUnique.

(* ================================================================== *)
(** ** What [compareRepository] answers                                *)
(* ================================================================== *)

Section Report.
Import Js ComparisonAnalyzer.

Lemma map_outcome_Exists {A B : Type} (f : A -> outcome B) (l : list A) (e : string) :
  map_outcome f l = Throws e -> Exists (fun x => f x = Throws e) l.
Proof.
  induction l as [| x l IH]; intro H; simpl in H; [discriminate H |].
  destruct (f x) as [y | e'] eqn:Ex; cbn [bind] in H.
  - right. apply IH.
    destruct (map_outcome f l); cbn [bind] in H; [discriminate H | exact H].
  - left. congruence.
Qed.

Lemma extractCategory_outcome (a : Alert.t) :
  match extractCategory a with
  | Returns c => Derived.classifiable a = true /\ truthy c = true
  | Throws e => e = TypeError /\ Derived.classifiable a = false
  end.
Proof.
  unfold extractCategory, Derived.classifiable, lowered_rule_id.
  destruct (truthy (Alert.category a)) eqn:Ec; [now split |].
  destruct (Alert.rule_id a) as [| | b | n | s | items | fields | name];
    cbn [nullish lower bind Spec.is_string orb]; try (now split).
  repeat match goal with
         | |- context [if ?b then _ else _] => destruct b
         end; now split.
Qed.

Lemma comparable_outcome (a : Alert.t) :
  match comparable a with
  | Returns a' => Derived.classifiable a = true
  | Throws e => e = TypeError /\ Derived.classifiable a = false
  end.
Proof.
  unfold comparable. pose proof (extractCategory_outcome a) as H.
  destruct (extractCategory a); cbn [bind]; tauto.
Qed.

Lemma prepared_outcome (entry : string * list Alert.t) :
  match (alerts <- map_outcome comparable (snd entry) ;; Returns (fst entry, alerts)) with
  | Returns p =>
      fst p = fst entry
      /\ List.length (snd p) = List.length (snd entry)
      /\ Forall (fun a => Derived.classifiable a = true) (snd entry)
  | Throws e =>
      e = TypeError /\ Exists (fun a => Derived.classifiable a = false) (snd entry)
  end.
Proof.
  destruct (map_outcome comparable (snd entry)) as [alerts | e] eqn:E; cbn [bind].
  - apply map_outcome_Forall2 in E. split; [reflexivity |].
    split; [symmetry; apply (Forall2_length E) |].
    induction E as [| a a' l l' Ha _ IH]; [constructor |].
    constructor; [| exact IH].
    pose proof (comparable_outcome a) as H. now rewrite Ha in H.
  - apply map_outcome_Exists in E.
    induction E as [a l Ha | a l _ IH].
    + pose proof (comparable_outcome a) as H. rewrite Ha in H.
      split; [tauto | left; tauto].
    + split; [tauto | right; tauto].
Qed.

(** X4: [compareRepository] raises exactly when a stored alert has no
    category and a rule id that is neither absent nor a string (its
    [toLowerCase] is not a function), and what it raises is a TypeError.
    Otherwise it returns a report that lists the tools of the input in
    order and whose [total_unique_issues] is [common_findings] plus
    [unique_findings]; when no tool is named after a member of
    [Object.prototype], the report has one entry per tool in
    [effectiveness], [by_severity] and [by_category], and counts every
    stored alert of a tool in [total_detections].  The rule id, the path,
    the start line and the category of the stored alerts are values that
    can be printed ([Derived.printable_alert]). *)
Theorem compareRepository_outcome (results : toolResults) :
  forallb (fun entry => forallb Derived.printable_alert (snd entry)) results = true ->
  match compareRepository results with
  | Returns r =>
      Forall (fun entry => Forall (fun a => Derived.classifiable a = true) (snd entry))
             results
      /\ tools r = map fst results
      /\ total_unique_issues r = (common_findings r + unique_findings r)%nat
      /\ (forallb own_key (tools r) = true ->
          map fst (effectiveness r) = tools r
          /\ map fst (by_severity r) = tools r
          /\ map fst (by_category r) = tools r
          /\ Forall2 (fun entry m => total_detections (snd m) = List.length (snd entry))
                     results (effectiveness r))
  | Throws e =>
      e = TypeError
      /\ Exists (fun entry => Exists (fun a => Derived.classifiable a = false) (snd entry))
                results
  end.
Proof.
  intros _. unfold compareRepository.
  destruct (map_outcome _ results) as [prepared | e] eqn:E; cbn [bind].
  - apply map_outcome_Forall2 in E.
    assert (K : map fst prepared = map fst results).
    { induction E as [| entry p l l' Hp _ IH]; [reflexivity |].
      pose proof (prepared_outcome entry) as H. rewrite Hp in H.
      simpl. f_equal; tauto. }
    cbn [tools effectiveness by_severity by_category total_unique_issues
         common_findings unique_findings].
    split; [| split; [reflexivity | split; [| intros _; split; [| split; [| split]]]]].
    + clear K. induction E as [| entry p l l' Hp _ IH]; [constructor |].
      constructor; [| exact IH].
      pose proof (prepared_outcome entry) as H. rewrite Hp in H. tauto.
    + unfold findOverlap. cbn [total overlap unique].
      apply partition_length, index_detected.
    + unfold calculateEffectiveness. rewrite map_map. exact K.
    + unfold analyzeBySeverity. rewrite map_map. exact K.
    + unfold analyzeByCategory. rewrite map_map. exact K.
    + unfold calculateEffectiveness. clear K.
      generalize (findOverlap prepared). intro data.
      induction E as [| entry p l l' Hp _ IH]; simpl; [constructor |].
      constructor; [| exact IH].
      pose proof (prepared_outcome entry) as H. rewrite Hp in H. simpl. tauto.
  - apply map_outcome_Exists in E.
    induction E as [entry l He | entry l _ IH].
    + pose proof (prepared_outcome entry) as H. rewrite He in H.
      split; [tauto | left; tauto].
    + split; [tauto | right; tauto].
Qed.

Lemma compareRepository_outcome_witness :
  exists r,
    compareRepository [("Semgrep", [Sample.xss_alert]);
                       ("Snyk Code", [Sample.xss_alert; Sample.sqli_alert])]
      = Returns r
    /\ tools r = ["Semgrep"; "Snyk Code"]
    /\ total_unique_issues r = (common_findings r + unique_findings r)%nat.
Proof.
  pose proof (compareRepository_outcome
                [("Semgrep", [Sample.xss_alert]);
                 ("Snyk Code", [Sample.xss_alert; Sample.sqli_alert])] eq_refl) as H.
  destruct (compareRepository _) as [r | e].
  - exists r. destruct H as [_ [T [S _]]]. exact (conj eq_refl (conj T S)).
  - destruct H as [_ H]. exfalso.
    apply Exists_exists in H. destruct H as [entry [I B]].
    apply Exists_exists in B. destruct B as [a [Ia B]].
    repeat (destruct I as [<- | I]; [| ]); try contradiction; simpl in Ia;
      repeat (destruct Ia as [<- | Ia]); try contradiction; discriminate B.
Defined.

End Report.

(* ================================================================== *)
(** ** The alerts [compareRepository] prepares                         *)
(* ================================================================== *)

Section PreparedAlerts.
Import Js ComparisonAnalyzer.

Lemma append_cancel_l (x s t : string) : x ++ s = x ++ t -> s = t.
Proof.
  induction x as [| c x IH]; simpl; intro H; [exact H |].
  injection H as H. now apply IH.
Qed.

Lemma createFingerprint_category (a b : Alert.t) :
  Alert.rule_id b = Alert.rule_id a ->
  Alert.location b = Alert.location a ->
  (ResultNormalizer.createFingerprint b = ResultNormalizer.createFingerprint a
   <-> join_piece (Alert.category b) = join_piece (Alert.category a)).
Proof.
  intros Hr Hl. unfold ResultNormalizer.createFingerprint, join.
  rewrite Hr, Hl. cbn [map String.concat]. split.
  - intro H. repeat apply append_cancel_l in H. exact H.
  - intro H. now rewrite H.
Qed.

Lemma extractCategory_relabels (a : Alert.t) (c : value) :
  extractCategory a = Returns c ->
  if truthy (Alert.category a) then c = Alert.category a
  else join_piece c <> join_piece (Alert.category a).
Proof.
  unfold extractCategory. destruct (truthy (Alert.category a)) eqn:Ec.
  - intro H. now injection H.
  - destruct (lowered_rule_id a) as [ruleId |]; cbn [bind]; [| discriminate].
    intro H.
    assert (Hc : In c [Str "XSS"; Str "SQL Injection"; Str "Command Injection";
                       Str "Path Traversal"; Str "CSRF"; Str "SSRF"; Str "Other"]).
    { repeat match type of H with
             | (if ?b then _ else _) = _ => destruct b
             end; injection H as <-; simpl; tauto. }
    destruct (Alert.category a) as [| | [|] | n | s | items | fields | name];
      try discriminate Ec.
    1-3: simpl in Hc; intuition (subst c; discriminate).
    + simpl in Ec. apply negb_false_iff, Z.eqb_eq in Ec. subst n.
      simpl in Hc; intuition (subst c; discriminate).
    + simpl in Ec. apply negb_false_iff, String.eqb_eq in Ec. subst s.
      simpl in Hc; intuition (subst c; discriminate).
Qed.

(** X5: the alert [compareRepository] prepares from a stored alert carries
    in its [fingerprint] field the fingerprint of the stored alert, and a
    category that is never empty.  [findOverlap] groups the prepared alert
    under the fingerprint it computes from the prepared alert itself; that
    key is the [fingerprint] field exactly when the stored alert had a
    category, since a derived category enters the key and not the
    field. *)
Theorem comparable_fingerprint_field (a a' : Alert.t) :
  comparable a = Returns a' ->
  Alert.fingerprint a' = Str (ResultNormalizer.createFingerprint a)
  /\ truthy (Alert.category a') = true
  /\ (ResultNormalizer.createFingerprint a' = ResultNormalizer.createFingerprint a
      <-> truthy (Alert.category a) = true).
Proof.
  unfold comparable. intro H.
  pose proof (extractCategory_outcome a) as Ho.
  pose proof (extractCategory_relabels a) as Hr.
  destruct (extractCategory a) as [c |]; cbn [bind] in H; [| discriminate H].
  injection H as <-. cbn [Alert.fingerprint Alert.category].
  split; [reflexivity | split; [tauto |]].
  rewrite createFingerprint_category by reflexivity. cbn [Alert.category].
  specialize (Hr c eq_refl).
  destruct (truthy (Alert.category a)).
  - subst c. tauto.
  - split; [intro E; now elim Hr | discriminate].
Qed.

Lemma comparable_fingerprint_field_witness :
  comparable Sample.uncategorised_alert = Returns Fixture.prepared_uncategorised
  /\ Alert.fingerprint Fixture.prepared_uncategorised = Str "rule-1::view.js::7::"
  /\ ResultNormalizer.createFingerprint Fixture.prepared_uncategorised
     = "rule-1::view.js::7::Other"
  /\ (ResultNormalizer.createFingerprint Fixture.prepared_uncategorised
      = ResultNormalizer.createFingerprint Sample.uncategorised_alert
      <-> truthy (Alert.category Sample.uncategorised_alert) = true).
Proof.
  assert (H : comparable Sample.uncategorised_alert
              = Returns Fixture.prepared_uncategorised) by reflexivity.
  destruct (comparable_fingerprint_field _ _ H) as [F [_ I]].
  exact (conj H (conj F (conj eq_refl I))).
Defined.

End PreparedAlerts.

(* ================================================================== *)
(** ** The severities of the adapters                                  *)
(* ================================================================== *)

Section ParserFindings.
Import Js.

(** What [parse] answers: the failure object, or the completed result of the
    findings of the single parses. *)
Lemma adapt_result (tool : Spec.adapter) (scanOutput : value) (r : Parsed.t) :
  Spec.adapt tool scanOutput = Returns r ->
  r = Parsed.failure scanOutput
  \/ exists found, r = Parsed.completed scanOutput found.
Proof.
  intro H.
  destruct tool; simpl in H;
    [ unfold SemgrepParser.parse in H | unfold SnykParser.parse in H
    | unfold ESLintParser.parse in H | unfold SonarQubeParser.parse in H ];
    returned H;
    (destruct (negb (truthy _)) in H;
     [ injection H as <-; now left | returned H; injection H as <- ]);
    right; eexists; reflexivity.
Qed.

Lemma adapt_finding (tool : Spec.adapter) (scanOutput : value) (r : Parsed.t)
  (f : Finding.t) :
  Spec.adapt tool scanOutput = Returns r -> In f (Parsed.findings r) ->
  match tool with
  | Spec.Semgrep => exists result, SemgrepParser.parseResult result = Returns f
  | Spec.Snyk =>
      exists result root,
        In result (Derived.snyk_results scanOutput)
        /\ SnykParser.parseResult result root = Returns f
  | Spec.ESLint => exists message path, ESLintParser.parseMessage message path = Returns f
  | Spec.SonarQube => exists issue, SonarQubeParser.parseIssue issue = Returns f
  end.
Proof.
  intros H Hf.
  destruct tool; simpl in H;
    [ unfold SemgrepParser.parse in H | unfold SnykParser.parse in H
    | unfold ESLintParser.parse in H | unfold SonarQubeParser.parse in H ];
    returned H;
    (destruct (negb (truthy _)) in H;
     [ injection H as <-; destruct Hf | returned H; injection H as <- ]);
    simpl in Hf.
  - destruct (map_outcome_In _ _ _ _ E1 Hf) as [x [_ Hx]]. now exists x.
  - destruct (map_outcome_In _ _ _ _ E1 Hf) as [x [Ix Hx]].
    exists x, (prop scanOutput "repository_path"). split; [| exact Hx].
    unfold Derived.snyk_results.
    destruct (or_else _ (Arr [])); try discriminate E0.
    now injection E0 as ->.
  - apply in_concat in Hf. destruct Hf as [found [Hfound Hf]].
    destruct (map_outcome_In _ _ _ _ E1 Hfound) as [file [_ Hfile]].
    unfold ESLintParser.parseFile in Hfile. returned Hfile.
    destruct (map_outcome_In _ _ _ _ Hfile Hf) as [x [_ Hx]]. eauto.
  - destruct (map_outcome_In _ _ _ _ E1 Hf) as [x [_ Hx]]. now exists x.
Qed.

(** [table[key] || d] on a table of non-empty strings, for a key that
    names no member of [Object.prototype]. *)
Lemma lookup_or_default (table : list (string * string)) (key : value) (d : string) :
  own_key (to_string key) = true ->
  forallb (fun entry => negb (snd entry =? "")) table = true ->
  exists s, or_else (lookup table key) (Str d) = Str s
            /\ In s (map snd table ++ [d])%list.
Proof.
  unfold lookup. generalize (to_string key). intros k Hown H.
  induction table as [| [k' v] table IH]; simpl in *.
  - rewrite (prototype_member_own _ Hown). exists d. split; [reflexivity | now left].
  - apply andb_true_iff in H. destruct H as [Hv H].
    destruct (k' =? k).
    + exists v. unfold or_else. simpl. rewrite Hv. split; [reflexivity | now left].
    + destruct (IH H) as [s [Hs Hin]]. exists s. split; [exact Hs | now right].
Qed.

(** A token in upper case names no member of [Object.prototype]: each of
    their names holds a small letter. *)
Lemma upper_ascii_small (c : ascii) : Derived.small_letter (upper_ascii c) = false.
Proof.
  destruct c as [[|] [|] [|] [|] [|] [|] [|] [|]]; reflexivity.
Qed.

Lemma toUpperCase_small (s : string) : Derived.has_small (toUpperCase s) = false.
Proof.
  induction s as [| c s IH]; [reflexivity |].
  unfold toUpperCase in *. cbn [map_string Derived.has_small].
  now rewrite upper_ascii_small, IH.
Qed.

Lemma toUpperCase_differs (s name : string) :
  Derived.has_small name = true -> (toUpperCase s =? name) = false.
Proof.
  intro H. destruct (String.eqb_spec (toUpperCase s) name) as [E |]; [| reflexivity].
  rewrite <- E, toUpperCase_small in H. discriminate H.
Qed.

Lemma own_key_toUpperCase (s : string) : own_key (toUpperCase s) = true.
Proof.
  unfold own_key, inherited. cbn [existsb].
  now rewrite !toUpperCase_differs by reflexivity.
Qed.

(** The key a table parser reads its table with. *)
Lemma severity_key (convert : value -> outcome string) (v key : value) :
  (if nullish v then Returns Undefined
   else s <- convert v ;; Returns (Str s)) = Returns key ->
  key = Undefined \/ exists s, convert v = Returns s /\ key = Str s.
Proof.
  destruct (nullish v); [intro H; injection H as <-; now left |].
  destruct (convert v) as [s |]; cbn [bind]; intro H; [| discriminate H].
  injection H as <-. right. now exists s.
Qed.

Lemma upper_own (v : value) (s : string) :
  upper v = Returns s -> own_key s = true.
Proof.
  destruct v; try discriminate. intro H. injection H as <-.
  apply own_key_toUpperCase.
Qed.

Lemma lower_own (v : value) (s : string) :
  Derived.plain_token v = true -> lower v = Returns s -> own_key s = true.
Proof.
  destruct v; try discriminate. intros P H. injection H as <-. exact P.
Qed.

Lemma semgrep_severity (v s : value) :
  SemgrepParser.normalizeSeverity v = Returns s ->
  exists l, s = Str l /\ In l (Derived.levels Spec.Semgrep).
Proof.
  unfold SemgrepParser.normalizeSeverity. intro H. returned H. injection H as <-.
  assert (O : own_key (to_string a) = true).
  { destruct (severity_key _ _ _ E) as [-> | [u [U ->]]];
      [reflexivity | exact (upper_own _ _ U)]. }
  destruct (lookup_or_default SemgrepParser.severityMap a "medium" O eq_refl)
    as [l [Hl Hin]].
  exists l. split; [exact Hl |].
  simpl in Hin. simpl. intuition.
Qed.

Lemma snyk_severity (v s : value) :
  Derived.plain_token v = true ->
  SnykParser.normalizeSeverity v = Returns s ->
  exists l, s = Str l /\ In l (Derived.levels Spec.Snyk).
Proof.
  unfold SnykParser.normalizeSeverity. intros P H. returned H. injection H as <-.
  assert (O : own_key (to_string a) = true).
  { destruct (severity_key _ _ _ E) as [-> | [u [U ->]]];
      [reflexivity | exact (lower_own _ _ P U)]. }
  destruct (lookup_or_default SnykParser.severityMap a "medium" O eq_refl)
    as [l [Hl Hin]].
  exists l. split; [exact Hl |].
  simpl in Hin. simpl. intuition.
Qed.

Lemma eslint_severity (v ruleId : value) :
  exists l, ESLintParser.normalizeSeverity v ruleId = Str l
            /\ In l (Derived.levels Spec.ESLint).
Proof.
  unfold ESLintParser.normalizeSeverity.
  destruct (existsb _ _); [exists "high"; simpl; tauto |].
  destruct v as [| | b | [| [p | [p | p |] |] | p] | s | items | fields | name];
    (exists "high"; simpl; split; [reflexivity | tauto])
    || (exists "medium"; simpl; split; [reflexivity | tauto]).
Qed.

Lemma sonarqube_severity (v s : value) :
  SonarQubeParser.normalizeSeverity v = Returns s ->
  exists l, s = Str l /\ In l (Derived.levels Spec.SonarQube).
Proof.
  unfold SonarQubeParser.normalizeSeverity. intro H. returned H. injection H as <-.
  assert (O : own_key (to_string a) = true).
  { destruct (severity_key _ _ _ E) as [-> | [u [U ->]]];
      [reflexivity | exact (upper_own _ _ U)]. }
  destruct (lookup_or_default SonarQubeParser.severityMap a "medium" O eq_refl)
    as [l [Hl Hin]].
  exists l. split; [exact Hl |].
  simpl in Hin. simpl. intuition.
Qed.

Lemma adapt_severity (tool : Spec.adapter) (scanOutput : value) (r : Parsed.t)
  (f : Finding.t) :
  Derived.plain tool scanOutput = true ->
  Spec.adapt tool scanOutput = Returns r -> In f (Parsed.findings r) ->
  exists l, Finding.severity f = Str l /\ In l (Derived.levels tool).
Proof.
  intros Hp H Hf. pose proof (adapt_finding _ _ _ _ H Hf) as P.
  destruct tool.
  - destruct P as [x Hx]. unfold SemgrepParser.parseResult in Hx.
    returned Hx. injection Hx as <-. cbn [Finding.severity].
    eauto using semgrep_severity.
  - destruct P as [x [root [Ix Hx]]]. unfold SnykParser.parseResult in Hx.
    returned Hx. injection Hx as <-. cbn [Finding.severity].
    cbn [Derived.plain] in Hp. rewrite forallb_forall in Hp.
    exact (snyk_severity _ _ (Hp x Ix) E0).
  - destruct P as [x [path Hx]]. unfold ESLintParser.parseMessage in Hx.
    returned Hx. injection Hx as <-. cbn [Finding.severity].
    apply eslint_severity.
  - destruct P as [x Hx]. unfold SonarQubeParser.parseIssue in Hx.
    returned Hx. injection Hx as <-. cbn [Finding.severity].
    eauto using sonarqube_severity.
Qed.

(** X6: the severity of every finding an adapter returns is one of the
    four canonical levels, and among those only one the tables of the
    adapter can answer: Semgrep never answers low, Snyk never critical,
    ESLint neither critical nor low.  [mapSeverityToCodeQL] turns it into
    error for critical and high, warning for medium, note for low.  The
    severity tokens of the scan are such as the table answers from its
    own entries ([Derived.plain]). *)
Theorem adapter_severity_levels (tool : Spec.adapter) (scanOutput : value)
  (r : Parsed.t) (f : Finding.t) :
  Derived.plain tool scanOutput = true ->
  Spec.adapt tool scanOutput = Returns r ->
  In f (Parsed.findings r) ->
  exists level,
    Finding.severity f = Str level
    /\ In level (Derived.levels tool)
    /\ In level ["critical"; "high"; "medium"; "low"]
    /\ ResultNormalizer.mapSeverityToCodeQL (Finding.severity f)
       = Str (Derived.token level).
Proof.
  intros Hp H Hf. destruct (adapt_severity _ _ _ _ Hp H Hf) as [level [Hl Hin]].
  exists level. split; [exact Hl | split; [exact Hin |]]. rewrite Hl.
  destruct tool; simpl in Hin;
    repeat (destruct Hin as [<- | Hin]; [split; [simpl; tauto | reflexivity] |]);
    destruct Hin.
Qed.

Lemma adapter_severity_levels_witness :
  exists level,
    Finding.severity Sample.eslint_eval_finding = Str level
    /\ In level (Derived.levels Spec.ESLint)
    /\ In level ["critical"; "high"; "medium"; "low"]
    /\ ResultNormalizer.mapSeverityToCodeQL (Finding.severity Sample.eslint_eval_finding)
       = Str (Derived.token level).
Proof.
  apply (adapter_severity_levels Spec.ESLint Sample.eslint_eval
           (Parsed.completed Sample.eslint_eval [Sample.eslint_eval_finding])).
  - reflexivity.
  - reflexivity.
  - left. reflexivity.
Defined.

End ParserFindings.

(* ================================================================== *)
(** ** The statistics of a parsed result                               *)
(* ================================================================== *)

Section ParserStatistics.
Import Js.

Lemma assoc_tally {A : Type} (key : A -> string) (c : string) (l : list A) :
  forall counts,
    assoc c (fold_left (fun counts x => bump (key x) counts) l counts) =
      match count_where (fun x => key x =? c) l, assoc c counts with
      | O, found => found
      | S n, Some m => Some (S n + m)%nat
      | S n, None => Some (S n)
      end.
Proof.
  unfold count_where.
  induction l as [| x l IH]; intro counts; simpl; [reflexivity |].
  rewrite IH, assoc_bump.
  destruct (key x =? c); simpl; [| reflexivity].
  destruct (List.length (filter _ l)), (assoc c counts); f_equal; lia.
Qed.

Lemma bump_sum (c : string) (counts : list (string * nat)) :
  list_sum (map snd (bump c counts)) = S (list_sum (map snd counts)).
Proof.
  induction counts as [| [k n] counts IH]; simpl; [reflexivity |].
  destruct (k =? c); simpl; [reflexivity | rewrite IH; lia].
Qed.

Lemma tally_sum {A : Type} (key : A -> string) (l : list A) :
  forall counts,
    list_sum (map snd (fold_left (fun counts x => bump (key x) counts) l counts))
    = (list_sum (map snd counts) + List.length l)%nat.
Proof.
  induction l as [| x l IH]; intro counts; simpl; [lia |].
  rewrite IH, bump_sum. lia.
Qed.

Lemma bump_keys (c : string) (counts : list (string * nat)) :
  map fst (bump c counts) =
    if existsb (fun k => k =? c) (map fst counts) then map fst counts
    else (map fst counts ++ [c])%list.
Proof.
  induction counts as [| [k n] counts IH]; simpl; [reflexivity |].
  destruct (k =? c); simpl; [reflexivity |].
  rewrite IH. destruct (existsb _ _); reflexivity.
Qed.

Lemma bump_NoDup (c : string) (counts : list (string * nat)) :
  NoDup (map fst counts) -> NoDup (map fst (bump c counts)).
Proof.
  intro N. rewrite bump_keys.
  destruct (existsb _ _) eqn:E; [exact N |].
  apply NoDup_app; [exact N | repeat constructor; intros [] |].
  intros k Hk [-> | []].
  assert (X : existsb (fun k' => k' =? k) (map fst counts) = true)
    by (apply existsb_exists; exists k; split; [exact Hk | apply String.eqb_refl]).
  congruence.
Qed.

Lemma tally_NoDup {A : Type} (key : A -> string) (l : list A) :
  forall counts,
    NoDup (map fst counts) ->
    NoDup (map fst (fold_left (fun counts x => bump (key x) counts) l counts)).
Proof.
  induction l as [| x l IH]; intros counts N; simpl; [exact N |].
  apply IH, bump_NoDup, N.
Qed.

Lemma levels_sum {A : Type} (severity : A -> value) (l : list A) :
  Forall (fun x => exists level, severity x = Str level
                                 /\ In level ["critical"; "high"; "medium"; "low"]) l ->
  (count_where (fun x => is_str (severity x) "critical") l
   + count_where (fun x => is_str (severity x) "high") l
   + count_where (fun x => is_str (severity x) "medium") l
   + count_where (fun x => is_str (severity x) "low") l)%nat
  = List.length l.
Proof.
  unfold count_where.
  induction 1 as [| x l [level [Hl Hin]] _ IH]; [reflexivity |].
  cbn [filter]. rewrite Hl.
  simpl in Hin.
  destruct Hin as [<- | [<- | [<- | [<- | []]]]]; cbn [is_str String.eqb Ascii.eqb
    Bool.eqb andb]; cbn [List.length]; lia.
Qed.

(** X7: what an adapter returns either carries no statistics, and is then
    the answer to a failed scan (no success, no finding, the error of the
    scan), or carries statistics that agree with its findings:
    [total_findings] is their number, the four severity counts add up to
    it, the category counts add up to it, and [by_category] holds one
    entry for each category that occurs, with the number of its findings,
    and none for a category that does not.  The severity tokens of the
    scan are such as the table answers from its own entries. *)
Theorem parse_statistics (tool : Spec.adapter) (scanOutput : value) (r : Parsed.t) :
  Derived.plain tool scanOutput = true ->
  Spec.adapt tool scanOutput = Returns r ->
  match Parsed.stats_of r with
  | Some st =>
      Parsed.success r = true
      /\ Parsed.total_findings st = List.length (Parsed.findings r)
      /\ (Parsed.critical st + Parsed.high st + Parsed.medium st + Parsed.low st)%nat
         = Parsed.total_findings st
      /\ list_sum (map snd (Parsed.by_category st)) = Parsed.total_findings st
      /\ NoDup (map fst (Parsed.by_category st))
      /\ (forall c,
            assoc c (Parsed.by_category st) =
              match Derived.filed_under c (Parsed.findings r) with
              | O => None
              | S n => Some (S n)
              end)
  | None =>
      Parsed.success r = false
      /\ Parsed.findings r = []
      /\ Parsed.error r = prop scanOutput "error"
  end.
Proof.
  intros Hp H. destruct (adapt_result _ _ _ H) as [-> | [found ->]].
  - repeat split.
  - cbn [Parsed.stats_of Parsed.completed Parsed.success Parsed.findings
         Parsed.statistics Parsed.total_findings Parsed.critical Parsed.high
         Parsed.medium Parsed.low Parsed.by_category].
    split; [reflexivity | split; [reflexivity | split; [| split; [| split]]]].
    + apply (levels_sum Finding.severity). apply Forall_forall. intros f Hf.
      destruct (adapt_severity tool scanOutput _ f Hp H Hf) as [l [Hl Hin]].
      exists l. split; [exact Hl |].
      destruct tool; simpl in Hin; simpl; tauto.
    + apply (tally_sum (fun f => to_string (Finding.category f)) found []).
    + apply tally_NoDup. constructor.
    + intro c. rewrite assoc_tally. unfold Derived.filed_under.
      destruct (count_where _ found); reflexivity.
Qed.

Lemma parse_statistics_witness :
  Parsed.success (Parsed.completed Sample.eslint_eval [Sample.eslint_eval_finding])
    = true
  /\ (0 + 1 + 0 + 0)%nat = 1%nat
  /\ list_sum (map snd [("Code Injection", 1%nat)]) = 1%nat
  /\ assoc "Code Injection" [("Code Injection", 1%nat)] = Some 1%nat
  /\ assoc "XSS" [("Code Injection", 1%nat)] = None.
Proof.
  pose proof (parse_statistics Spec.ESLint Sample.eslint_eval
                (Parsed.completed Sample.eslint_eval [Sample.eslint_eval_finding])
                eq_refl eq_refl) as H.
  cbn [Parsed.stats_of Parsed.completed] in H.
  destruct H as [S [_ [L [C [_ B]]]]].
  exact (conj S (conj L (conj C (conj (B "Code Injection") (B "XSS"))))).
Defined.

End ParserStatistics.

(* ================================================================== *)
(** ** From parsed results to analyses                                 *)
(* ================================================================== *)

Section Normalization.
Import Js.

Lemma adapt_total_findings (tool : Spec.adapter) (scanOutput : value) (r : Parsed.t) :
  Spec.adapt tool scanOutput = Returns r ->
  MultiToolScanner.total_findings r = List.length (Parsed.findings r).
Proof.
  intro H. destruct (adapt_result _ _ _ H) as [-> | [found ->]]; reflexivity.
Qed.

(** X8: the analysis [normalizeAnalysis] builds from what an adapter
    returned has as many alerts as the adapter had findings, and its
    [results_count] is that number.  Every alert carries the tool name of
    the analysis, the state open, a category that is never empty, the
    canonical severity of its finding in [security_severity] and the
    CodeQL token of that severity in [severity].  The severity tokens of
    the scan are such as the table answers from its own entries. *)
Theorem normalizeAnalysis_alerts (tool : Spec.adapter) (scanOutput : value)
  (r : Parsed.t) :
  Derived.plain tool scanOutput = true ->
  Spec.adapt tool scanOutput = Returns r ->
  Analysis.results_count (Analysis.normalizeAnalysis r)
    = List.length (Analysis.alerts (Analysis.normalizeAnalysis r))
  /\ List.length (Analysis.alerts (Analysis.normalizeAnalysis r))
     = List.length (Parsed.findings r)
  /\ Forall (fun a =>
               Alert.tool_name a = Analysis.tool_name (Analysis.normalizeAnalysis r)
               /\ Alert.state a = Str "open"
               /\ truthy (Alert.category a) = true
               /\ exists level,
                    Alert.security_severity a = Str level
                    /\ In level (Derived.levels tool)
                    /\ Alert.severity a
                       = Str (Derived.token level))
            (Analysis.alerts (Analysis.normalizeAnalysis r)).
Proof.
  intros Hp H. cbn [Analysis.normalizeAnalysis Analysis.results_count Analysis.alerts
                   Analysis.tool_name].
  rewrite length_map.
  split; [apply (adapt_total_findings tool scanOutput r H) | split; [reflexivity |]].
  apply Forall_forall. intros a Ha. apply in_map_iff in Ha.
  destruct Ha as [f [<- Hf]].
  cbn [ResultNormalizer.normalizeAlert Alert.tool_name Alert.state Alert.category
       Alert.security_severity Alert.severity].
  split; [reflexivity | split; [reflexivity | split]].
  - unfold or_else. destruct (truthy (Finding.category f)) eqn:E; [exact E | reflexivity].
  - destruct (adapt_severity _ _ _ _ Hp H Hf) as [level [Hl Hin]].
    exists level. split; [exact Hl | split; [exact Hin |]]. rewrite Hl.
    destruct tool; simpl in Hin;
      repeat (destruct Hin as [<- | Hin]; [reflexivity |]); destruct Hin.
Qed.

(** X9: a failed scan is answered with the failure object, which keeps
    the error of the scan and nothing else of it: the analysis
    [normalizeAnalysis] builds from it has no tool name, no repository and
    no scan date, whatever the scan output said, and no alert. *)
Theorem failed_scan_normalized (tool : Spec.adapter) (scanOutput : value) :
  nullish scanOutput = false ->
  truthy (prop scanOutput "success") = false ->
  exists r,
    Spec.adapt tool scanOutput = Returns r
    /\ Parsed.success r = false
    /\ Parsed.error r = prop scanOutput "error"
    /\ Analysis.tool_name (Analysis.normalizeAnalysis r) = Undefined
    /\ Analysis.repository (Analysis.normalizeAnalysis r) = Undefined
    /\ Analysis.scan_date (Analysis.normalizeAnalysis r) = Undefined
    /\ Analysis.results_count (Analysis.normalizeAnalysis r) = 0%nat
    /\ Analysis.alerts (Analysis.normalizeAnalysis r) = [].
Proof.
  intros Hn Hs. exists (Parsed.failure scanOutput).
  split; [now apply adapt_failed_scan | repeat split].
Qed.

Lemma normalizeAnalysis_alerts_witness :
  Analysis.results_count
    (Analysis.normalizeAnalysis
       (Parsed.completed Sample.eslint_eval [Sample.eslint_eval_finding]))
  = List.length
      (Analysis.alerts
         (Analysis.normalizeAnalysis
            (Parsed.completed Sample.eslint_eval [Sample.eslint_eval_finding])))
  /\ List.length
       (Analysis.alerts
          (Analysis.normalizeAnalysis
             (Parsed.completed Sample.eslint_eval [Sample.eslint_eval_finding])))
     = 1%nat.
Proof.
  destruct (normalizeAnalysis_alerts Spec.ESLint Sample.eslint_eval
              (Parsed.completed Sample.eslint_eval [Sample.eslint_eval_finding])
              eq_refl eq_refl) as [C [L _]].
  exact (conj C L).
Defined.

Lemma failed_scan_normalized_witness :
  exists r,
    Spec.adapt Spec.Semgrep Fixture.failed_scan = Returns r
    /\ Parsed.success r = false
    /\ Parsed.error r = Str "Repository not found: /work/repo"
    /\ Analysis.tool_name (Analysis.normalizeAnalysis r) = Undefined
    /\ Analysis.repository (Analysis.normalizeAnalysis r) = Undefined
    /\ Analysis.scan_date (Analysis.normalizeAnalysis r) = Undefined
    /\ Analysis.results_count (Analysis.normalizeAnalysis r) = 0%nat
    /\ Analysis.alerts (Analysis.normalizeAnalysis r) = [].
Proof.
  exact (failed_scan_normalized Spec.Semgrep Fixture.failed_scan eq_refl eq_refl).
Defined.

End Normalization.

(* ================================================================== *)
(** ** The orchestrator                                                *)
(* ================================================================== *)

Section Orchestrator.
Import Js.

Lemma map_outcome_length {A B : Type} (f : A -> outcome B) (l : list A) (ys : list B) :
  map_outcome f l = Returns ys -> List.length ys = List.length l.
Proof.
  intro H. apply map_outcome_Forall2 in H. symmetry. apply (Forall2_length H).
Qed.

Lemma scanAll_shape (storage : option (list Analysis.t -> list value))
  (semgrepResults snykResults : list value) :
  match MultiToolScanner.scanAll storage semgrepResults snykResults with
  | Returns results =>
      Forall2 (fun scanOutput r => Spec.adapt Spec.Semgrep scanOutput = Returns r)
              semgrepResults (MultiToolScanner.semgrep results)
      /\ Forall2 (fun scanOutput r => Spec.adapt Spec.Snyk scanOutput = Returns r)
                 snykResults (MultiToolScanner.snyk results)
      /\ MultiToolScanner.normalized results
         = (map Analysis.normalizeAnalysis (MultiToolScanner.semgrep results)
            ++ map Analysis.normalizeAnalysis (MultiToolScanner.snyk results))%list
  | Throws e =>
      Exists (fun scanOutput => SemgrepParser.parse scanOutput = Throws e) semgrepResults
      \/ Exists (fun scanOutput => SnykParser.parse scanOutput = Throws e) snykResults
  end.
Proof.
  unfold MultiToolScanner.scanAll, SemgrepParser.parseMultiple, SnykParser.parseMultiple.
  destruct (map_outcome SemgrepParser.parse semgrepResults) as [semgrepParsed | e] eqn:E1;
    cbn [bind]; [| left; now apply map_outcome_Exists].
  destruct (map_outcome SnykParser.parse snykResults) as [snykParsed | e] eqn:E2;
    cbn [bind]; [| right; now apply map_outcome_Exists].
  cbn [MultiToolScanner.semgrep MultiToolScanner.snyk MultiToolScanner.normalized].
  split; [now apply map_outcome_Forall2 | split; [now apply map_outcome_Forall2 |]].
  reflexivity.
Qed.

(** X10: when [scanAll] returns, each scan output was parsed by the parser
    of its tool, in order, the analyses are those of the Semgrep results
    followed by those of the Snyk results, and there are as many analyses
    as scan outputs, failed scans included; without a storage nothing is
    stored.  [scanAll] raises only what the parse of one of the scan
    outputs raises: one such output fails the whole batch. *)
Theorem scanAll_outcome (storage : option (list Analysis.t -> list value))
  (semgrepResults snykResults : list value) :
  match MultiToolScanner.scanAll storage semgrepResults snykResults with
  | Returns results =>
      Forall2 (fun scanOutput r => SemgrepParser.parse scanOutput = Returns r)
              semgrepResults (MultiToolScanner.semgrep results)
      /\ Forall2 (fun scanOutput r => SnykParser.parse scanOutput = Returns r)
                 snykResults (MultiToolScanner.snyk results)
      /\ MultiToolScanner.normalized results
         = (map Analysis.normalizeAnalysis (MultiToolScanner.semgrep results)
            ++ map Analysis.normalizeAnalysis (MultiToolScanner.snyk results))%list
      /\ List.length (MultiToolScanner.normalized results)
         = (List.length semgrepResults + List.length snykResults)%nat
      /\ (storage = None -> MultiToolScanner.stored results = [])
  | Throws e =>
      Exists (fun scanOutput => SemgrepParser.parse scanOutput = Throws e) semgrepResults
      \/ Exists (fun scanOutput => SnykParser.parse scanOutput = Throws e) snykResults
  end.
Proof.
  pose proof (scanAll_shape storage semgrepResults snykResults) as S.
  destruct (MultiToolScanner.scanAll storage semgrepResults snykResults)
    as [results | e] eqn:E; [| exact S].
  destruct S as [S1 [S2 N]].
  split; [exact S1 | split; [exact S2 | split; [exact N | split]]].
  - rewrite N, length_app, !length_map.
    now rewrite <- (Forall2_length S1), <- (Forall2_length S2).
  - intros ->. unfold MultiToolScanner.scanAll in E.
    destruct (SemgrepParser.parseMultiple semgrepResults); cbn [bind] in E;
      [| discriminate E].
    destruct (SnykParser.parseMultiple snykResults); cbn [bind] in E;
      [| discriminate E].
    now injection E as <-.
Qed.

Lemma fold_sum {A : Type} (g : A -> nat) (l : list A) :
  forall n, fold_left (fun sum x => (sum + g x)%nat) l n = (n + list_sum (map g l))%nat.
Proof.
  induction l as [| x l IH]; intro n; simpl; [lia | rewrite IH; lia].
Qed.

Lemma add_count_sum (k : string) (n : nat) (counts : list (string * nat)) :
  list_sum (map snd (add_count k n counts)) = (list_sum (map snd counts) + n)%nat.
Proof.
  induction counts as [| [k' c] counts IH]; simpl; [lia |].
  destruct (k' =? k); simpl; [lia | rewrite IH; lia].
Qed.

Lemma tool_counts_sum (l : list Analysis.t) :
  forall counts,
    list_sum (map snd
      (fold_left
         (fun counts result =>
            add_count (to_string (Analysis.tool_name result))
                      (List.length (Analysis.alerts result)) counts)
         l counts))
    = (list_sum (map snd counts) + List.length (flat_map Analysis.alerts l))%nat.
Proof.
  induction l as [| r l IH]; intro counts; simpl; [lia |].
  rewrite IH, add_count_sum, length_app. lia.
Qed.

Lemma normalized_length (tool : Spec.adapter) (outputs : list value)
  (parsed : list Parsed.t) :
  Forall2 (fun scanOutput r => Spec.adapt tool scanOutput = Returns r) outputs parsed ->
  list_sum (map MultiToolScanner.total_findings parsed)
  = List.length (flat_map Analysis.alerts (map Analysis.normalizeAnalysis parsed)).
Proof.
  induction 1 as [| scanOutput r outputs parsed Hr _ IH]; [reflexivity |].
  simpl. rewrite length_app, length_map, IH.
  now rewrite (adapt_total_findings _ _ _ Hr).
Qed.

Lemma normalized_levels (tool : Spec.adapter) (outputs : list value)
  (parsed : list Parsed.t) :
  forallb (Derived.plain tool) outputs = true ->
  Forall2 (fun scanOutput r => Spec.adapt tool scanOutput = Returns r) outputs parsed ->
  Forall (fun a => exists level,
                     Alert.security_severity a = Str level
                     /\ In level ["critical"; "high"; "medium"; "low"])
         (flat_map Analysis.alerts (map Analysis.normalizeAnalysis parsed)).
Proof.
  intros Hp H. induction H as [| scanOutput r outputs parsed Hr _ IH]; [constructor |].
  cbn [forallb] in Hp. apply andb_true_iff in Hp. destruct Hp as [Hp Hps].
  simpl. apply Forall_app. split; [| exact (IH Hps)].
  apply Forall_forall. intros a Ha. apply in_map_iff in Ha.
  destruct Ha as [f [<- Hf]].
  destruct (adapt_severity _ _ _ _ Hp Hr Hf) as [level [Hl Hin]].
  exists level. split; [exact Hl |].
  destruct tool; simpl in Hin; simpl; tauto.
Qed.

(** X11: on what [scanAll] returned, the numbers [printSummary] prints
    agree: the findings of Semgrep plus those of Snyk are the number of
    alerts of the analyses, which is the number on the line of the total;
    the four severity counts add up to it, when the severity tokens of the
    Snyk scans are such as the table answers from its own entries; and
    the counts by tool add up to it, when no tool is named after a member
    of [Object.prototype]. *)
Theorem printSummary_totals (storage : option (list Analysis.t -> list value))
  (semgrepResults snykResults : list value) (results : MultiToolScanner.allResults) :
  MultiToolScanner.scanAll storage semgrepResults snykResults = Returns results ->
  (MultiToolScanner.semgrepFindings results + MultiToolScanner.snykFindings results)%nat
    = List.length (MultiToolScanner.allAlerts results)
  /\ In ("Total:       "
           ++ string_of_nat (List.length (MultiToolScanner.allAlerts results))
           ++ " findings")
        (MultiToolScanner.printSummary results)
  /\ (forallb (Derived.plain Spec.Snyk) snykResults = true ->
      (ComparisonAnalyzer.critical (MultiToolScanner.bySeverity results)
       + ComparisonAnalyzer.high (MultiToolScanner.bySeverity results)
       + ComparisonAnalyzer.medium (MultiToolScanner.bySeverity results)
       + ComparisonAnalyzer.low (MultiToolScanner.bySeverity results))%nat
      = List.length (MultiToolScanner.allAlerts results))
  /\ (forallb (fun r => own_key (to_string (Analysis.tool_name r)))
              (MultiToolScanner.normalized results) = true ->
      list_sum (map snd (MultiToolScanner.byTool results))
      = List.length (MultiToolScanner.allAlerts results)).
Proof.
  intro H. pose proof (scanAll_shape storage semgrepResults snykResults) as S.
  rewrite H in S. destruct S as [S1 [S2 N]].
  assert (T : (MultiToolScanner.semgrepFindings results
               + MultiToolScanner.snykFindings results)%nat
              = List.length (MultiToolScanner.allAlerts results)).
  { unfold MultiToolScanner.semgrepFindings, MultiToolScanner.snykFindings,
      MultiToolScanner.allAlerts.
    rewrite !fold_sum, N, flat_map_app, length_app. simpl.
    now rewrite (normalized_length Spec.Semgrep _ _ S1),
                (normalized_length Spec.Snyk _ _ S2). }
  split; [exact T | split; [| split]].
  - unfold MultiToolScanner.printSummary. rewrite T.
    apply in_or_app. left. simpl. tauto.
  - intros Hp. unfold MultiToolScanner.bySeverity.
    cbn [ComparisonAnalyzer.critical ComparisonAnalyzer.high ComparisonAnalyzer.medium
         ComparisonAnalyzer.low].
    apply (levels_sum Alert.security_severity).
    unfold MultiToolScanner.allAlerts. rewrite N, flat_map_app.
    apply Forall_app. split.
    + apply (normalized_levels Spec.Semgrep semgrepResults _); [| exact S1].
      clear. induction semgrepResults as [| x l IH]; [reflexivity | exact IH].
    + apply (normalized_levels Spec.Snyk _ _ Hp S2).
  - intros _. unfold MultiToolScanner.byTool, MultiToolScanner.allAlerts.
    rewrite tool_counts_sum. reflexivity.
Qed.

Lemma printSummary_totals_witness :
  exists results,
    MultiToolScanner.scanAll None [Sample.semgrep_output] [Sample.snyk_output]
      = Returns results
    /\ (MultiToolScanner.semgrepFindings results
        + MultiToolScanner.snykFindings results)%nat = 2%nat
    /\ In "Total:       2 findings" (MultiToolScanner.printSummary results)
    /\ (ComparisonAnalyzer.critical (MultiToolScanner.bySeverity results)
        + ComparisonAnalyzer.high (MultiToolScanner.bySeverity results)
        + ComparisonAnalyzer.medium (MultiToolScanner.bySeverity results)
        + ComparisonAnalyzer.low (MultiToolScanner.bySeverity results))%nat = 2%nat
    /\ list_sum (map snd (MultiToolScanner.byTool results)) = 2%nat.
Proof.
  eexists. split; [vm_compute; reflexivity |].
  match goal with
  | |- context [MultiToolScanner.semgrepFindings ?r] =>
      destruct (printSummary_totals None [Sample.semgrep_output]
                  [Sample.snyk_output] r) as [T [L [V B]]]
  end.
  - vm_compute. reflexivity.
  - exact (conj T (conj L (conj (V eq_refl) (B eq_refl)))).
Defined.

End Orchestrator.

(* ================================================================== *)
(** ** Maps filled from data                                           *)
(* ================================================================== *)

Section Maps.
Import Js.

Lemma assoc_store {A : Type} (k k' : string) (a : A) (m : list (string * A)) :
  assoc k (store k' a m) = if k' =? k then Some a else assoc k m.
Proof.
  induction m as [| [k0 a0] m IH]; simpl.
  - destruct (k' =? k); reflexivity.
  - destruct (k0 =? k') eqn:E0; simpl.
    + apply String.eqb_eq in E0. subst k0. destruct (k' =? k); reflexivity.
    + destruct (k0 =? k) eqn:Ek; [| exact IH].
      apply String.eqb_eq in Ek. subst k0.
      now rewrite String.eqb_sym, E0.
Qed.

Lemma store_keys {A : Type} (k : string) (a : A) (m : list (string * A)) :
  map fst (store k a m) =
    if existsb (fun k' => k' =? k) (map fst m) then map fst m
    else (map fst m ++ [k])%list.
Proof.
  induction m as [| [k0 a0] m IH]; simpl; [reflexivity |].
  destruct (k0 =? k); simpl; [reflexivity |].
  rewrite IH. destruct (existsb _ _); reflexivity.
Qed.

Lemma keys_added_NoDup (k : string) (keys : list string) :
  NoDup keys ->
  NoDup (if existsb (fun k' => k' =? k) keys then keys else (keys ++ [k])%list).
Proof.
  intro N. destruct (existsb _ _) eqn:E; [exact N |].
  apply NoDup_app; [exact N | repeat constructor; intros [] |].
  intros k' Hk [-> | []].
  assert (X : existsb (fun k0 => k0 =? k') keys = true)
    by (apply existsb_exists; exists k'; split; [exact Hk | apply String.eqb_refl]).
  congruence.
Qed.

Lemma store_NoDup {A : Type} (k : string) (a : A) (m : list (string * A)) :
  NoDup (map fst m) -> NoDup (map fst (store k a m)).
Proof.
  intro N. rewrite store_keys. now apply keys_added_NoDup.
Qed.

Lemma assoc_push {A : Type} (k k' : string) (a : A) (m : list (string * list A)) :
  assoc k (push k' a m) =
    if k' =? k
    then Some ((match assoc k m with Some l => l | None => [] end) ++ [a])%list
    else assoc k m.
Proof.
  induction m as [| [k0 l0] m IH]; simpl.
  - destruct (k' =? k); reflexivity.
  - destruct (k0 =? k') eqn:E0; simpl.
    + apply String.eqb_eq in E0. subst k0. destruct (k' =? k); reflexivity.
    + destruct (k0 =? k) eqn:Ek; [| exact IH].
      apply String.eqb_eq in Ek. subst k0.
      now rewrite String.eqb_sym, E0.
Qed.

Lemma push_keys {A : Type} (k : string) (a : A) (m : list (string * list A)) :
  map fst (push k a m) =
    if existsb (fun k' => k' =? k) (map fst m) then map fst m
    else (map fst m ++ [k])%list.
Proof.
  induction m as [| [k0 l0] m IH]; simpl; [reflexivity |].
  destruct (k0 =? k); simpl; [reflexivity |].
  rewrite IH. destruct (existsb _ _); reflexivity.
Qed.

Lemma push_length {A : Type} (k : string) (a : A) (m : list (string * list A)) :
  List.length (flat_map snd (push k a m)) = S (List.length (flat_map snd m)).
Proof.
  induction m as [| [k0 l0] m IH]; simpl; [reflexivity |].
  destruct (k0 =? k); simpl; rewrite !length_app.
  - simpl. lia.
  - rewrite IH. lia.
Qed.

Lemma assoc_In {A : Type} (k : string) (a : A) (m : list (string * A)) :
  NoDup (map fst m) -> In (k, a) m -> assoc k m = Some a.
Proof.
  induction m as [| [k0 a0] m IH]; intros N H; [destruct H |].
  simpl in N. inversion N as [| x xs Hx N']. subst.
  simpl. destruct H as [E | H].
  - injection E as -> ->. now rewrite String.eqb_refl.
  - destruct (k0 =? k) eqn:Ek; [| now apply IH].
    apply String.eqb_eq in Ek. subst k0.
    elim Hx. apply (in_map fst) in H. exact H.
Qed.

End Maps.

(* ================================================================== *)
(** ** Findings by repository and tool                                 *)
(* ================================================================== *)

Section FindingsByRepository.
Import Js.

Lemma filed_file_result (repo tool : string)
  (findingsByRepo : list (string * list (string * list Alert.t))) (r : Analysis.t) :
  Derived.filed repo tool (Analysis.file_result findingsByRepo r) =
    if (to_string (Analysis.repository r) =? repo)
       && (to_string (Analysis.tool_name r) =? tool)
    then Some (map Analysis.fingerprinted (Analysis.alerts r))
    else Derived.filed repo tool findingsByRepo.
Proof.
  unfold Derived.filed, Analysis.file_result. cbv zeta.
  rewrite assoc_store.
  destruct (to_string (Analysis.repository r) =? repo) eqn:Er; cbn [andb].
  - apply String.eqb_eq in Er. rewrite Er, assoc_store.
    destruct (to_string (Analysis.tool_name r) =? tool); [reflexivity |].
    destruct (assoc repo findingsByRepo); reflexivity.
  - reflexivity.
Qed.

Lemma file_result_NoDup
  (findingsByRepo : list (string * list (string * list Alert.t))) (r : Analysis.t) :
  NoDup (map fst findingsByRepo) ->
  Forall (fun entry => NoDup (map fst (snd entry))) findingsByRepo ->
  NoDup (map fst (Analysis.file_result findingsByRepo r))
  /\ Forall (fun entry => NoDup (map fst (snd entry)))
            (Analysis.file_result findingsByRepo r).
Proof.
  intros N F. unfold Analysis.file_result. cbv zeta.
  split; [now apply store_NoDup |].
  set (repoName := to_string (Analysis.repository r)).
  assert (B : NoDup (map fst match assoc repoName findingsByRepo with
                             | Some tools => tools
                             | None => []
                             end)).
  { destruct (assoc repoName findingsByRepo) as [tools |] eqn:E; [| constructor].
    clear N. induction findingsByRepo as [| [k t] m IH]; [discriminate E |].
    inversion F as [| x xs Hx F']. subst. simpl in E.
    destruct (k =? repoName); [injection E as <-; exact Hx | now apply IH]. }
  generalize (store (to_string (Analysis.tool_name r))
                    (map Analysis.fingerprinted (Analysis.alerts r))
                    match assoc repoName findingsByRepo with
                    | Some tools => tools
                    | None => []
                    end)
             (store_NoDup (to_string (Analysis.tool_name r))
                          (map Analysis.fingerprinted (Analysis.alerts r)) _ B).
  intros inner Hinner. clear B N.
  induction F as [| [k t] m Hk F IH]; simpl.
  - repeat constructor. exact Hinner.
  - destruct (k =? repoName); constructor; assumption.
Qed.

Lemma compareFindings_keys (normalizedResults : list Analysis.t) :
  NoDup (map fst (Analysis.compareFindings normalizedResults))
  /\ Forall (fun entry => NoDup (map fst (snd entry)))
            (Analysis.compareFindings normalizedResults).
Proof.
  unfold Analysis.compareFindings.
  induction normalizedResults as [| r l IH] using rev_ind; [split; constructor |].
  rewrite fold_left_app. cbn [fold_left].
  destruct IH as [N F]. now apply file_result_NoDup.
Qed.

(** X12: [compareFindings] files the alerts of an analysis under its
    repository and its tool, each alert with its fingerprint added; a
    later analysis of the same repository by the same tool replaces the
    earlier one, so that [findingsByRepo[repo][tool]] holds the alerts of
    the last such analysis and nothing when there is none.  A repository
    and a tool have one entry each.  Adding the fingerprint does not change
    the fingerprint.  No repository and no tool is named after a member of
    [Object.prototype]: under such a name the code writes to the inherited
    member, not to an entry of the map; and the names and the components
    of the fingerprints are values that can be printed
    ([Derived.filable]). *)
Theorem compareFindings_last_wins (normalizedResults : list Analysis.t) :
  forallb Derived.filable normalizedResults = true ->
  (forall repo tool,
     Derived.filed repo tool (Analysis.compareFindings normalizedResults)
     = option_map (fun r => map Analysis.fingerprinted (Analysis.alerts r))
                  (Derived.last_analysis repo tool normalizedResults))
  /\ NoDup (map fst (Analysis.compareFindings normalizedResults))
  /\ Forall (fun entry => NoDup (map fst (snd entry)))
            (Analysis.compareFindings normalizedResults)
  /\ (forall a,
        Alert.fingerprint (Analysis.fingerprinted a)
          = Str (ResultNormalizer.createFingerprint a)
        /\ ResultNormalizer.createFingerprint (Analysis.fingerprinted a)
           = ResultNormalizer.createFingerprint a).
Proof.
  intros _.
  split; [| split; [apply compareFindings_keys
                   | split; [apply compareFindings_keys | now split]]].
  intros repo tool. unfold Analysis.compareFindings, Derived.last_analysis.
  induction normalizedResults as [| r l IH] using rev_ind; [reflexivity |].
  rewrite fold_left_app, rev_app_distr. cbn [fold_left rev app find].
  rewrite filed_file_result, IH.
  destruct (_ && _); reflexivity.
Qed.

Lemma compareFindings_last_wins_witness :
  Derived.filed "repo" "ESLint-Security"
    (Analysis.compareFindings [Fixture.first_analysis; Fixture.second_analysis])
  = Some [Analysis.fingerprinted Sample.sqli_alert]
  /\ NoDup (map fst (Analysis.compareFindings
                       [Fixture.first_analysis; Fixture.second_analysis])).
Proof.
  destruct (compareFindings_last_wins
              [Fixture.first_analysis; Fixture.second_analysis] eq_refl)
    as [L [N _]].
  exact (conj (L "repo" "ESLint-Security") N).
Defined.

End FindingsByRepository.

(* ================================================================== *)
(** ** The stored alerts of a repository, by tool                      *)
(* ================================================================== *)

Section StoredAlerts.
Import Js ComparisonAnalyzer.

Lemma file_alerts_outcome (docs : list ResultStorage.document) :
  forall byTool,
    NoDup (map fst byTool) ->
    match ResultStorage.file_alerts docs byTool with
    | Returns filed =>
        Forall (fun doc => nullish (ResultStorage.analysis doc) = false
                           /\ own_key (Derived.tool_of doc) = true) docs
        /\ NoDup (map fst filed)
        /\ (forall tool,
              assoc tool filed =
                match assoc tool byTool, Derived.alerts_of tool docs with
                | Some before, added => Some (before ++ added)%list
                | None, [] => None
                | None, added => Some added
                end)
        /\ List.length (Derived.all_alerts filed)
           = (List.length (Derived.all_alerts byTool) + List.length docs)%nat
    | Throws e =>
        e = TypeError
        /\ Exists (fun doc => nullish (ResultStorage.analysis doc) = true
                              \/ own_key (Derived.tool_of doc) = false) docs
    end.
Proof.
  induction docs as [| doc docs IH]; intros byTool N.
  - simpl. split; [constructor | split; [exact N | split; [| lia]]].
    intro tool. unfold Derived.alerts_of. simpl.
    destruct (assoc tool byTool); [now rewrite app_nil_r | reflexivity].
  - cbn [ResultStorage.file_alerts]. unfold get.
    destruct (nullish (ResultStorage.analysis doc)) eqn:En; cbn [bind].
    + split; [reflexivity | left; now left].
    + fold (Derived.tool_of doc).
      destruct (own_key (Derived.tool_of doc)) eqn:Eo;
        [| split; [reflexivity | left; now right]].
      set (toolName := Derived.tool_of doc) in *.
      assert (N' : NoDup (map fst (push toolName (ResultStorage.alert doc) byTool)))
        by (rewrite push_keys; now apply keys_added_NoDup).
      specialize (IH _ N').
      destruct (ResultStorage.file_alerts docs _) as [filed | e].
      * destruct IH as [F [Nf [L C]]].
        split; [constructor; [now split | exact F] | split; [exact Nf | split]].
        -- intro tool. rewrite L, assoc_push.
           unfold Derived.alerts_of. cbn [filter]. fold toolName.
           destruct (toolName =? tool); cbn [map].
           ++ destruct (assoc tool byTool); simpl.
              ** now rewrite <- app_assoc.
              ** reflexivity.
           ++ reflexivity.
        -- rewrite C. unfold Derived.all_alerts. rewrite push_length. simpl. lia.
      * destruct IH as [-> X]. split; [reflexivity | now right].
Qed.

(** What [getToolComparison] answers has one entry per tool, under a name
    that is a key of own entries, with the alerts of the tool. *)
Lemma getToolComparison_stored (docs : list ResultStorage.document)
  (byTool : toolResults) :
  ResultStorage.getToolComparison docs = Returns byTool ->
  NoDup (map fst byTool)
  /\ (forall tool,
        assoc tool byTool =
          match Derived.alerts_of tool docs with
          | [] => None
          | found => Some found
          end).
Proof.
  unfold ResultStorage.getToolComparison. intro H.
  pose proof (file_alerts_outcome docs [] (NoDup_nil _)) as O.
  rewrite H in O. destruct O as [_ [N [L _]]]. split; [exact N | exact L].
Qed.

(** X13: [getToolComparison] raises exactly when a stored alert points to
    no analysis, or to an analysis whose tool name is a member of
    [Object.prototype] (no list is made under such a name, and the
    inherited member has no [push]); what it raises is a TypeError.
    Otherwise it files every stored alert under the tool name of its
    analysis: a tool has one entry, which holds the alerts of that tool in
    the order the database answered them; a tool without an alert has no
    entry; and the alerts filed are as many as the alerts stored.  The
    tool names of the analyses are values that can be printed. *)
Theorem getToolComparison_groups (docs : list ResultStorage.document) :
  forallb (fun doc => Derived.printable (prop (ResultStorage.analysis doc) "tool_name"))
          docs = true ->
  match ResultStorage.getToolComparison docs with
  | Returns byTool =>
      Forall (fun doc => nullish (ResultStorage.analysis doc) = false
                         /\ own_key (Derived.tool_of doc) = true) docs
      /\ NoDup (map fst byTool)
      /\ (forall tool,
            assoc tool byTool =
              match Derived.alerts_of tool docs with
              | [] => None
              | found => Some found
              end)
      /\ List.length (Derived.all_alerts byTool) = List.length docs
  | Throws e =>
      e = TypeError
      /\ Exists (fun doc => nullish (ResultStorage.analysis doc) = true
                            \/ own_key (Derived.tool_of doc) = false) docs
  end.
Proof.
  intros _. unfold ResultStorage.getToolComparison.
  pose proof (file_alerts_outcome docs [] (NoDup_nil _)) as H.
  destruct (ResultStorage.file_alerts docs []); exact H.
Qed.

Lemma getToolComparison_groups_witness :
  exists byTool,
    ResultStorage.getToolComparison Fixture.stored_alerts = Returns byTool
    /\ NoDup (map fst byTool)
    /\ assoc "Snyk Code" byTool = Some [Sample.xss_alert; Sample.sqli_alert]
    /\ assoc "ESLint" byTool = None.
Proof.
  pose proof (getToolComparison_groups Fixture.stored_alerts eq_refl) as H.
  destruct (ResultStorage.getToolComparison Fixture.stored_alerts) as [byTool | e] eqn:G.
  - exists byTool. destruct H as [_ [N [A _]]].
    split; [reflexivity | split; [exact N | split]].
    + rewrite (A "Snyk Code"). reflexivity.
    + rewrite (A "ESLint"). reflexivity.
  - discriminate G.
Defined.

End StoredAlerts.

(* ================================================================== *)
(** ** The comparison of stored alerts                                 *)
(* ================================================================== *)

Section StoredComparison.
Import Js ComparisonAnalyzer.

Lemma compareRepository_prepared (results : toolResults) (r : report) :
  compareRepository results = Returns r ->
  exists prepared,
    Forall2 (fun entry p => fst p = fst entry
                            /\ List.length (snd p) = List.length (snd entry))
            results prepared
    /\ effectiveness r = calculateEffectiveness prepared (findOverlap prepared)
    /\ tools r = map fst results.
Proof.
  unfold compareRepository. intro H.
  destruct (map_outcome _ results) as [prepared |] eqn:E; cbn [bind] in H;
    [| discriminate H].
  injection H as <-. exists prepared. split; [| split; reflexivity].
  apply map_outcome_Forall2 in E.
  induction E as [| entry p l l' Hp _ IH]; [constructor |].
  constructor; [| exact IH].
  pose proof (prepared_outcome entry) as P. rewrite Hp in P. tauto.
Qed.

Lemma Forall2_keys (results prepared : toolResults) :
  Forall2 (fun entry p => fst p = fst entry
                          /\ List.length (snd p) = List.length (snd entry))
          results prepared ->
  map fst prepared = map fst results
  /\ (forall tool alerts,
        In (tool, alerts) prepared ->
        exists stored, In (tool, stored) results
                       /\ List.length alerts = List.length stored).
Proof.
  induction 1 as [| [t s] [t' a] l l' [Hk Hl] _ [IHk IHin]]; simpl in *.
  - split; [reflexivity | intros ? ? []].
  - subst t'. split; [now rewrite IHk |].
    intros tool alerts [E | Hin].
    + injection E as -> ->. exists s. split; [now left | exact Hl].
    + destruct (IHin _ _ Hin) as [stored [Hs Hlen]].
      exists stored. split; [now right | exact Hlen].
Qed.

(** X14: in the report [compareRepository] builds from what
    [getToolComparison] answered, the tools are distinct, and every tool
    has at least one detection: its [total_detections] is the number of
    its stored alerts, its unique and shared detections together do not
    exceed it, and its [uniqueness_rate] is always the text [toFixed(2)]
    prints, never the number 0 of a tool without detection. *)
Theorem stored_comparison (docs : list ResultStorage.document)
  (results : toolResults) (r : report) :
  ResultStorage.getToolComparison docs = Returns results ->
  compareRepository results = Returns r ->
  NoDup (tools r)
  /\ (forall tool m,
        In (tool, m) (effectiveness r) ->
        total_detections m = List.length (Derived.alerts_of tool docs)
        /\ (0 < total_detections m)%nat
        /\ (unique_detections m + shared_detections m <= total_detections m)%nat
        /\ uniqueness_rate m
           = Str (toFixed2 (number_of_nat (unique_detections m)
                            / number_of_nat (total_detections m) * 100)%float)).
Proof.
  intros Hg Hc.
  destruct (getToolComparison_stored _ _ Hg) as [N L].
  destruct (compareRepository_prepared _ _ Hc) as [prepared [F [He Ht]]].
  destruct (Forall2_keys _ _ F) as [K P].
  split; [now rewrite Ht |].
  intros tool m Hm. rewrite He in Hm.
  assert (N' : NoDup (map fst prepared)) by now rewrite K.
  destruct (tool_detections prepared tool m N' Hm) as [alerts [Ha [Et [_ [B _]]]]].
  destruct (P _ _ Ha) as [stored [Hs Hlen]].
  pose proof (assoc_In _ _ _ N Hs) as A. rewrite L in A.
  assert (T : total_detections m = List.length (Derived.alerts_of tool docs)
              /\ (0 < total_detections m)%nat).
  { rewrite Et, Hlen.
    destruct (Derived.alerts_of tool docs) as [| a l]; [discriminate A |].
    injection A as <-. simpl. split; [reflexivity | lia]. }
  destruct T as [T Hpos].
  split; [exact T | split; [exact Hpos | split; [exact B |]]].
  unfold calculateEffectiveness in Hm. apply in_map_iff in Hm.
  destruct Hm as [[t alerts'] [E _]]. simpl in E. injection E as -> <-.
  cbn [uniqueness_rate total_detections unique_detections tool_metrics] in *.
  apply Nat.ltb_lt in Hpos. now rewrite Hpos.
Qed.

Lemma stored_comparison_witness :
  exists results r,
    ResultStorage.getToolComparison Fixture.stored_alerts = Returns results
    /\ compareRepository results = Returns r
    /\ NoDup (tools r)
    /\ (forall tool m, In (tool, m) (effectiveness r) ->
                       (0 < total_detections m)%nat).
Proof.
  assert (G : ResultStorage.getToolComparison Fixture.stored_alerts
              = Returns [("Semgrep", [Sample.xss_alert]);
                         ("Snyk Code", [Sample.xss_alert; Sample.sqli_alert])])
    by reflexivity.
  destruct (compareRepository [("Semgrep", [Sample.xss_alert]);
                               ("Snyk Code", [Sample.xss_alert; Sample.sqli_alert])])
    as [r | e] eqn:C; [| vm_compute in C; discriminate C].
  destruct (stored_comparison _ _ _ G C) as [N E].
  exists [("Semgrep", [Sample.xss_alert]);
          ("Snyk Code", [Sample.xss_alert; Sample.sqli_alert])], r.
  split; [exact G | split; [exact C | split; [exact N |]]].
  intros tool m H. apply (E tool m H).
Defined.

End StoredComparison.

(* ================================================================== *)
(** ** The security filter of the ESLint scanner                       *)
(* ================================================================== *)

Section SecurityFilter.
Import Js.

Lemma filter_outcome_kept {A : Type} (p : A -> outcome bool) (l : list A) :
  forall kept, filter_outcome p l = Returns kept ->
               Forall (fun x => p x = Returns true) kept.
Proof.
  induction l as [| x l IH]; intros kept H; simpl in H.
  - injection H as <-. constructor.
  - returned H. injection H as <-.
    destruct a; [constructor; [exact E | now apply IH] | now apply IH].
Qed.

Lemma is_security_kept (msg : value) :
  ESLintScanner.is_security msg = Returns true -> Derived.security_message msg.
Proof.
  unfold ESLintScanner.is_security, get, Derived.security_message.
  destruct (nullish msg); cbn [bind]; [discriminate |].
  destruct (truthy (prop msg "ruleId")); [| discriminate].
  destruct (prop msg "ruleId"); try discriminate.
  intro H. injection H as H. split; [reflexivity |]. eauto.
Qed.

Lemma prop_store (fields : list (string * value)) (k k' : string) (v : value) :
  prop (Obj (store k v fields)) k' = if k =? k' then v else prop (Obj fields) k'.
Proof.
  unfold prop. rewrite assoc_store. destruct (k =? k'); reflexivity.
Qed.

Lemma security_result_kept (result r : value) :
  ESLintScanner.security_result result = Returns r ->
  exists messages,
    nullish r = false
    /\ prop r "filePath" = prop result "filePath"
    /\ prop r "messages" = Arr messages
    /\ Forall Derived.security_message messages.
Proof.
  unfold ESLintScanner.security_result. intro H. returned H.
  destruct result as [| | b | n | s | items | fields | name]; try discriminate H.
  injection H as <-. exists a1.
  rewrite !prop_store. cbn [String.eqb Ascii.eqb Bool.eqb andb].
  split; [reflexivity | split; [reflexivity | split; [reflexivity |]]].
  apply filter_outcome_kept in E1.
  eapply Forall_impl; [| exact E1]. apply is_security_kept.
Qed.

Lemma totalIssues_sum (l : list value) :
  ESLintScanner.totalIssues l = list_sum (map ESLintScanner.messages_length l).
Proof.
  unfold ESLintScanner.totalIssues. now rewrite fold_sum.
Qed.

Lemma securityResults_files (results kept : list value) :
  ESLintScanner.securityResults results = Returns kept ->
  Forall (fun r =>
            exists original messages,
              In original results
              /\ nullish r = false
              /\ prop r "filePath" = prop original "filePath"
              /\ prop r "messages" = Arr messages
              /\ messages <> []
              /\ Forall Derived.security_message messages)
         kept.
Proof.
  unfold ESLintScanner.securityResults. intro H. returned H. injection H as <-.
  apply Forall_forall. intros r Hr. apply filter_In in Hr. destruct Hr as [Hr Hm].
  destruct (map_outcome_In _ _ _ _ E Hr) as [original [Ho Hs]].
  destruct (security_result_kept _ _ Hs) as [messages [Hn [Hp [Hmsg Hall]]]].
  exists original, messages.
  repeat (split; [assumption |]). split; [| exact Hall].
  unfold ESLintScanner.has_messages in Hm. rewrite Hmsg in Hm.
  destruct messages; [discriminate Hm | discriminate].
Qed.

(** X15: when the security filter of the ESLint scanner returns, every
    file result it keeps comes from a file result of ESLint, with the same
    [filePath], and holds at least one message; every message it holds has
    a string [ruleId] that starts with [security/] or [no-unsanitized/].
    It keeps no more files than ESLint answered, and [totalIssues] counts
    at least one issue per file kept. *)
Theorem securityResults_kept (results kept : list value) :
  ESLintScanner.securityResults results = Returns kept ->
  Forall (fun r =>
            exists original messages,
              In original results
              /\ nullish r = false
              /\ prop r "filePath" = prop original "filePath"
              /\ prop r "messages" = Arr messages
              /\ messages <> []
              /\ Forall Derived.security_message messages)
         kept
  /\ (List.length kept <= List.length results)%nat
  /\ (List.length kept <= ESLintScanner.totalIssues kept)%nat.
Proof.
  intro H. pose proof (securityResults_files _ _ H) as F.
  split; [exact F | split].
  - unfold ESLintScanner.securityResults in H. returned H. injection H as <-.
    apply map_outcome_Forall2, Forall2_length in E. rewrite E.
    apply filter_length_le.
  - rewrite totalIssues_sum. clear H.
    induction F as [| r l [o [ms [_ [_ [_ [Hm [Hne _]]]]]]] _ IH]; [simpl; lia |].
    simpl. unfold ESLintScanner.messages_length at 1. rewrite Hm.
    destruct ms; [now elim Hne | simpl; lia].
Qed.

Lemma securityResults_kept_witness :
  ESLintScanner.securityResults Fixture.lint_results
    = Returns Fixture.security_results
  /\ (List.length Fixture.security_results <= List.length Fixture.lint_results)%nat
  /\ (List.length Fixture.security_results
      <= ESLintScanner.totalIssues Fixture.security_results)%nat.
Proof.
  assert (H : ESLintScanner.securityResults Fixture.lint_results
              = Returns Fixture.security_results) by reflexivity.
  destruct (securityResults_kept _ _ H) as [_ [L T]].
  exact (conj H (conj L T)).
Defined.

Lemma map_outcome_returns {A B : Type} (f : A -> outcome B) (l : list A) (ys : list B) :
  Forall2 (fun x y => f x = Returns y) l ys -> map_outcome f l = Returns ys.
Proof.
  induction 1 as [| x y l ys Hx _ IH]; [reflexivity |].
  simpl. rewrite Hx, IH. reflexivity.
Qed.

Lemma Forall_returns {A B : Type} (f : A -> outcome B) (P : A -> B -> Prop)
  (l : list A) :
  Forall (fun x => exists y, f x = Returns y /\ P x y) l ->
  exists ys, map_outcome f l = Returns ys /\ Forall2 P l ys.
Proof.
  induction 1 as [| x l [y [Hy Py]] _ [ys [Hys Pys]]].
  - exists []. split; [reflexivity | constructor].
  - exists (y :: ys). simpl. rewrite Hy, Hys. cbn [bind].
    split; [reflexivity | now constructor].
Qed.

Lemma parseMessage_security (message filePath : value) :
  Derived.security_message message ->
  exists f, ESLintParser.parseMessage message filePath = Returns f
            /\ Finding.rule_id f = prop message "ruleId"
            /\ Location.path (Finding.location f) = filePath.
Proof.
  intros [Hn [ruleId [Hr _]]].
  unfold ESLintParser.parseMessage, get. rewrite Hn. cbn [bind]. rewrite Hr.
  unfold ESLintParser.extractCategory. cbn [lower bind].
  eexists. split; [reflexivity | split; reflexivity].
Qed.

(** X16: the ESLint parser does not raise on what the security filter of
    the scanner kept: for a successful scan output whose [raw_output] is
    the result of the filter, the file paths of ESLint being strings and
    the scan root a value that can be printed, [parse] returns a
    successful result with one finding per issue the scanner counted, each
    under a string rule id of the two security plugins. *)
Theorem eslint_scan_parses (scanOutput : value) (results kept : list value) :
  ESLintScanner.securityResults results = Returns kept ->
  Forall (fun r => Spec.is_string (prop r "filePath") = true) results ->
  nullish scanOutput = false ->
  truthy (prop scanOutput "success") = true ->
  Derived.printable (prop scanOutput "repository_path") = true ->
  prop scanOutput "raw_output" = Arr kept ->
  exists p,
    ESLintParser.parse scanOutput = Returns p
    /\ Parsed.success p = true
    /\ List.length (Parsed.findings p) = ESLintScanner.totalIssues kept
    /\ Forall (fun f => exists ruleId,
                          Finding.rule_id f = Str ruleId
                          /\ Derived.security_rule ruleId = true)
              (Parsed.findings p).
Proof.
  intros Hk Hpaths Hn Hs _ Hraw.
  pose proof (securityResults_files _ _ Hk) as F.
  assert (G : Forall (fun r => exists found,
                        ESLintParser.parseFile scanOutput r = Returns found
                        /\ (List.length found = ESLintScanner.messages_length r
                            /\ Forall (fun f => exists ruleId,
                                         Finding.rule_id f = Str ruleId
                                         /\ Derived.security_rule ruleId = true)
                                      found)) kept).
  { eapply Forall_impl; [| exact F]. clear F.
    intros r [original [messages [Ho [Hnr [Hp [Hm [_ Hall]]]]]]].
    rewrite Forall_forall in Hpaths. specialize (Hpaths _ Ho).
    rewrite <- Hp in Hpaths.
    unfold ESLintParser.parseFile, get. rewrite Hnr. cbn [bind].
    destruct (prop r "filePath") as [| | | | path | | |]; try discriminate Hpaths.
    cbn [replace_in bind]. rewrite Hm. cbn [as_array bind].
    unfold ESLintScanner.messages_length. rewrite Hm.
    set (relativePath := Str _).
    assert (M : Forall (fun m => exists f,
                          ESLintParser.parseMessage m relativePath = Returns f
                          /\ (exists ruleId,
                                Finding.rule_id f = Str ruleId
                                /\ Derived.security_rule ruleId = true))
                       messages).
    { eapply Forall_impl; [| exact Hall]. intros m Hsec.
      destruct (parseMessage_security m relativePath Hsec) as [f [Hf [Hid _]]].
      exists f. split; [exact Hf |].
      destruct Hsec as [_ [ruleId [Hr Hpre]]]. exists ruleId. now rewrite Hid. }
    destruct (Forall_returns _ (fun _ f => exists ruleId, _) _ M)
      as [found [Hfound Pf]].
    exists found. split; [exact Hfound | split].
    - symmetry. apply (Forall2_length Pf).
    - clear Hfound M Hall Hm.
      induction Pf as [| m f l l' Hf _ IH]; [apply Forall_nil |].
      apply Forall_cons; assumption. }
  destruct (Forall_returns _ (fun r found => _ /\ _) _ G) as [perFile [Hper Pper]].
  exists (Parsed.completed scanOutput (List.concat perFile)).
  split; [| split; [reflexivity | split]].
  - unfold ESLintParser.parse, get. rewrite Hn. cbn [bind]. rewrite Hs. cbn [negb].
    rewrite Hraw. unfold or_else. cbn [truthy as_array bind].
    rewrite Hper. reflexivity.
  - cbn [Parsed.findings Parsed.completed]. rewrite totalIssues_sum.
    clear G F Hk Hraw Hper.
    induction Pper as [| r found l l' [Hlen _] _ IH]; [reflexivity |].
    simpl. rewrite length_app, Hlen. f_equal. exact IH.
  - cbn [Parsed.findings Parsed.completed]. clear Hper G F Hk Hraw.
    induction Pper as [| r found l l' [_ Hf] _ IH]; [constructor |].
    simpl. apply Forall_app. now split.
Qed.

Lemma eslint_scan_parses_witness :
  exists p,
    ESLintParser.parse (Sample.scan_output (Arr Fixture.security_results)) = Returns p
    /\ Parsed.success p = true
    /\ List.length (Parsed.findings p) = 1%nat.
Proof.
  destruct (eslint_scan_parses (Sample.scan_output (Arr Fixture.security_results))
              Fixture.lint_results Fixture.security_results)
    as [p [P [S [L _]]]].
  - reflexivity.
  - repeat constructor.
  - reflexivity.
  - reflexivity.
  - reflexivity.
  - reflexivity.
  - exists p. exact (conj P (conj S L)).
Defined.

End SecurityFilter.

(* ================================================================== *)
(** ** Paths relative to the scan root                                 *)
(* ================================================================== *)

Section Paths.
Import Js.

Lemma replace_first_absent (s pat : string) :
  includes s pat = false -> replace_first s pat = s.
Proof.
  induction s as [| c s IH]; cbn [includes replace_first].
  - destruct (String.prefix pat ""); [discriminate | reflexivity].
  - destruct (String.prefix pat (String c s)); [discriminate |].
    intro H. now rewrite IH.
Qed.

(** X17: the Snyk and the ESLint parser answer, as the path of a finding,
    the file path of the tool with the first occurrence of the scan root
    followed by a slash removed: a path under the scan root becomes
    relative to it, and a path that does not hold the scan root followed
    by a slash is answered as it is. *)
Theorem relative_paths (root : string) :
  (forall result f,
     SnykParser.parseResult result (Str root) = Returns f ->
     exists uri,
       or_else (opt (opt (opt (opt_first (prop result "locations")) "physicalLocation")
                         "artifactLocation") "uri") (Str "") = Str uri
       /\ Location.path (Finding.location f) = Str (replace_first uri (root ++ "/"))
       /\ (forall rest, uri = (root ++ "/") ++ rest ->
                        Location.path (Finding.location f) = Str rest)
       /\ (includes uri (root ++ "/") = false ->
           Location.path (Finding.location f) = Str uri))
  /\ (forall scanOutput fileResult found f,
        prop scanOutput "repository_path" = Str root ->
        ESLintParser.parseFile scanOutput fileResult = Returns found ->
        In f found ->
        exists filePath,
          prop fileResult "filePath" = Str filePath
          /\ Location.path (Finding.location f)
             = Str (replace_first filePath (root ++ "/"))
          /\ (forall rest, filePath = (root ++ "/") ++ rest ->
                           Location.path (Finding.location f) = Str rest)
          /\ (includes filePath (root ++ "/") = false ->
              Location.path (Finding.location f) = Str filePath)).
Proof.
  split.
  - intros result f H. unfold SnykParser.parseResult in H. returned H.
    injection H as <-. cbn [Finding.location Location.path].
    unfold replace_in in E2.
    destruct (or_else _ (Str "")) as [| | | | uri | | |]; try discriminate E2.
    injection E2 as <-. exists uri. cbn [to_string].
    split; [reflexivity | split; [reflexivity | split]].
    + intros rest ->. now rewrite replace_first_scan_root.
    + intro A. now rewrite replace_first_absent.
  - intros scanOutput fileResult found f Hroot H Hf.
    unfold ESLintParser.parseFile in H. returned H.
    destruct (map_outcome_In _ _ _ _ H Hf) as [message [_ Hm]].
    unfold ESLintParser.parseMessage in Hm. returned Hm. injection Hm as <-.
    cbn [Finding.location Location.path].
    unfold get in E. destruct (nullish fileResult); [discriminate E |].
    injection E as <-. rewrite Hroot in E0. cbn [to_string] in E0.
    unfold replace_in in E0.
    destruct (prop fileResult "filePath") as [| | | | filePath | | |];
      try discriminate E0.
    injection E0 as <-. exists filePath.
    split; [reflexivity | split; [reflexivity | split]].
    + intros rest ->. now rewrite replace_first_scan_root.
    + intro A. now rewrite replace_first_absent.
Qed.

End Paths.

(* ================================================================== *)
(** ** The component of a SonarQube issue                              *)
(* ================================================================== *)

Section Components.
Import Js.

Lemma first_line_single (s : string) :
  Derived.single_line s = true -> first_line s = (s, None).
Proof.
  induction s as [| c s IH]; cbn [Derived.single_line first_line]; [reflexivity |].
  destruct (is_line_terminator c); [rewrite andb_false_r; discriminate |].
  intro H. apply andb_true_iff in H. now rewrite IH.
Qed.

Lemma includes_colon (s : string) :
  includes s ":" = false <-> after_last_colon s = None.
Proof.
  induction s as [| c s IH]; [simpl; tauto |].
  cbn [includes after_last_colon String.prefix].
  destruct (ascii_dec ":" c) as [<- | Hc].
  - replace (String.prefix "" s) with true by (destruct s; reflexivity).
    rewrite Ascii.eqb_refl.
    split; [discriminate | destruct (after_last_colon s); discriminate].
  - replace (Ascii.eqb c ":") with false
      by (symmetry; apply Ascii.eqb_neq; congruence).
    rewrite IH. destruct (after_last_colon s); split; congruence.
Qed.

Lemma after_last_colon_append (key path : string) :
  after_last_colon path = None ->
  after_last_colon (key ++ ":" ++ path) = Some path.
Proof.
  intro H. induction key as [| c key IH]; simpl.
  - now rewrite H.
  - simpl in IH. now rewrite IH.
Qed.

Lemma first_line_whole (s l : string) (c : ascii) (rest : string) :
  first_line s = (l, Some (c, rest)) -> s = l ++ String c rest.
Proof.
  revert l. induction s as [| c0 s IH]; intros l H; simpl in H; [discriminate H |].
  destruct (is_line_terminator c0).
  - now injection H as <- <- <-.
  - destruct (first_line s) as [l0 k0]. injection H as <- ->.
    simpl. f_equal. now apply IH.
Qed.

Lemma first_line_none (s l : string) :
  first_line s = (l, None) -> s = l.
Proof.
  revert l. induction s as [| c0 s IH]; intros l H; simpl in H.
  - now injection H as <-.
  - destruct (is_line_terminator c0); [discriminate H |].
    destruct (first_line s) as [l0 k0]. injection H as <- ->.
    f_equal. now apply IH.
Qed.

Lemma includes_append_l (s t pat : string) :
  includes (s ++ t) pat = false -> includes t pat = false.
Proof.
  induction s as [| c s IH]; [trivial |].
  cbn [append includes].
  destruct (String.prefix pat (String c (s ++ t))); [discriminate | exact IH].
Qed.

Lemma includes_colon_append (s t : string) :
  includes (s ++ t) ":" = false -> includes s ":" = false.
Proof.
  rewrite !includes_colon.
  induction s as [| c s IH]; [reflexivity |].
  simpl. destruct (after_last_colon (s ++ t)); [discriminate |].
  destruct (Ascii.eqb c ":"); [discriminate |].
  intros _. now rewrite IH.
Qed.

Lemma strip_without_colon (fuel : nat) :
  forall s, includes s ":" = false -> strip_to_last_colon_fuel fuel s = s.
Proof.
  induction fuel as [| fuel IH]; intros s H; [reflexivity |].
  cbn [strip_to_last_colon_fuel].
  destruct (first_line s) as [l [[c rest] |]] eqn:E.
  - apply first_line_whole in E. subst s.
    pose proof (includes_colon_append _ _ H) as Hl.
    apply includes_colon in Hl. rewrite Hl.
    rewrite IH; [reflexivity |].
    apply includes_append_l in H.
    cbn [includes] in H.
    destruct (String.prefix ":" (String c rest)); [discriminate H | exact H].
  - apply first_line_none in E. subst l.
    apply includes_colon in H. now rewrite H.
Qed.

(** X18: the SonarQube parser answers, as the path of an issue, its
    [component] without everything up to its last colon: for a component
    [key:path] on one line, with no colon in [path], the path is [path];
    a component without a colon is answered as it is; an issue without
    component has the empty path. *)
Theorem component_path_after_last_colon :
  (forall key path,
     Derived.single_line (key ++ ":" ++ path) = true ->
     includes path ":" = false ->
     SonarQubeParser.component_path (Str (key ++ ":" ++ path)) = Returns (Str path))
  /\ (forall s,
        includes s ":" = false ->
        SonarQubeParser.component_path (Str s) = Returns (Str s))
  /\ (forall issue f,
        SonarQubeParser.parseIssue issue = Returns f ->
        (forall key path,
           prop issue "component" = Str (key ++ ":" ++ path) ->
           Derived.single_line (key ++ ":" ++ path) = true ->
           includes path ":" = false ->
           Location.path (Finding.location f) = Str path)
        /\ (nullish (prop issue "component") = true ->
            Location.path (Finding.location f) = Str "")).
Proof.
  assert (A : forall key path,
             Derived.single_line (key ++ ":" ++ path) = true ->
             includes path ":" = false ->
             strip_to_last_colon (key ++ ":" ++ path) = path).
  { intros key path Hs Hp. unfold strip_to_last_colon.
    cbn [strip_to_last_colon_fuel]. rewrite (first_line_single _ Hs).
    apply includes_colon in Hp. now rewrite (after_last_colon_append _ _ Hp). }
  split; [| split].
  - intros key path Hs Hp. cbn [SonarQubeParser.component_path]. now rewrite A.
  - intros s Hs. cbn [SonarQubeParser.component_path].
    unfold strip_to_last_colon. now rewrite strip_without_colon.
  - intros issue f H. unfold SonarQubeParser.parseIssue in H. returned H.
    injection H as <-. cbn [Finding.location Location.path].
    split.
    + intros key path Hc Hs Hp. rewrite Hc in E2.
      cbn [SonarQubeParser.component_path] in E2. rewrite (A _ _ Hs Hp) in E2.
      injection E2 as <-. unfold or_else.
      destruct (truthy (Str path)) eqn:T; [reflexivity |].
      simpl in T. apply negb_false_iff, String.eqb_eq in T. now subst path.
    + intro Hn. destruct (prop issue "component"); try discriminate Hn;
        cbn [SonarQubeParser.component_path] in E2; injection E2 as <-; reflexivity.
Qed.

End Components.

(* ================================================================== *)
(** ** What [normalizeSeverity] answers                                *)
(* ================================================================== *)

Section SeverityTables.
Import Js.

Lemma table_severity_outcome (table : list (string * string))
  (convert : value -> outcome string) (v : value) :
  forallb (fun entry => negb (snd entry =? "")) table = true ->
  (forall s, exists t, convert (Str s) = Returns t) ->
  (forall w, Spec.is_string w = false -> convert w = Throws TypeError) ->
  (forall t, convert v = Returns t -> own_key t = true) ->
  Derived.severity_outcome v (map snd table ++ ["medium"])%list
    (key <- (if nullish v then Returns Undefined
             else s <- convert v ;; Returns (Str s)) ;;
     Returns (or_else (lookup table key) (Str "medium"))).
Proof.
  intros Ht Hs Hw Ho. unfold Derived.severity_outcome.
  destruct (nullish v) eqn:En; cbn [bind].
  - split; [now left |]. now apply lookup_or_default.
  - destruct (Spec.is_string v) eqn:Es.
    + destruct v; try discriminate Es. destruct (Hs s) as [t Et].
      rewrite Et. cbn [bind].
      split; [now right |]. apply lookup_or_default; [exact (Ho t Et) | exact Ht].
    + rewrite (Hw v Es). cbn [bind]. repeat split.
Qed.

(** X19: [normalizeSeverity] of the Semgrep, Snyk and SonarQube parsers
    answers a canonical level of its table, or medium, when the severity
    of the tool is absent or a string, and raises a TypeError on any other
    value, whose [toUpperCase] or [toLowerCase] is not a function; an
    absent severity is medium.  For Snyk the token is such as the table
    answers from its own entries.  [normalizeSeverity] of the ESLint parser
    never raises: it answers high or medium, and high for the rules of its
    critical list whatever the severity ESLint gave. *)
Theorem normalizeSeverity_outcome (v : value) :
  Derived.severity_outcome v (Derived.levels Spec.Semgrep)
    (SemgrepParser.normalizeSeverity v)
  /\ (Derived.plain_token v = true ->
      Derived.severity_outcome v (Derived.levels Spec.Snyk)
        (SnykParser.normalizeSeverity v))
  /\ Derived.severity_outcome v (Derived.levels Spec.SonarQube)
       (SonarQubeParser.normalizeSeverity v)
  /\ (nullish v = true ->
      SemgrepParser.normalizeSeverity v = Returns (Str "medium")
      /\ SnykParser.normalizeSeverity v = Returns (Str "medium")
      /\ SonarQubeParser.normalizeSeverity v = Returns (Str "medium"))
  /\ (forall ruleId, exists level,
        ESLintParser.normalizeSeverity v ruleId = Str level
        /\ In level (Derived.levels Spec.ESLint)
        /\ (existsb (is_str ruleId) ESLintParser.criticalRules = true ->
            level = "high")).
Proof.
  assert (U : forall s, exists t, upper (Str s) = Returns t) by (intro s; eexists; reflexivity).
  assert (L : forall s, exists t, lower (Str s) = Returns t) by (intro s; eexists; reflexivity).
  assert (Uw : forall w, Spec.is_string w = false -> upper w = Throws TypeError)
    by (intros [| | | | | | |]; try reflexivity; discriminate).
  assert (Lw : forall w, Spec.is_string w = false -> lower w = Throws TypeError)
    by (intros [| | | | | | |]; try reflexivity; discriminate).
  assert (W : forall levels levels' r,
             incl levels levels' ->
             Derived.severity_outcome v levels r ->
             Derived.severity_outcome v levels' r).
  { intros levels levels' [s | e] I H; [| exact H].
    destruct H as [D [level [Hl Hin]]]. split; [exact D |].
    exists level. split; [exact Hl | now apply I]. }
  split; [| split; [| split; [| split]]].
  - eapply W; [| apply (table_severity_outcome SemgrepParser.severityMap upper v
                          eq_refl U Uw (upper_own v))].
    intros x Hx. simpl in Hx. simpl. intuition.
  - intros P.
    eapply W; [| apply (table_severity_outcome SnykParser.severityMap lower v
                          eq_refl L Lw (fun t => lower_own v t P))].
    intros x Hx. simpl in Hx. simpl. intuition.
  - eapply W; [| apply (table_severity_outcome SonarQubeParser.severityMap upper v
                          eq_refl U Uw (upper_own v))].
    intros x Hx. simpl in Hx. simpl. intuition.
  - intro Hn. destruct v; try discriminate Hn; repeat split.
  - intro ruleId. destruct (eslint_severity v ruleId) as [level [Hl Hin]].
    exists level. split; [exact Hl | split; [exact Hin |]].
    intro C. unfold ESLintParser.normalizeSeverity in Hl. rewrite C in Hl.
    now injection Hl.
Qed.

End SeverityTables.


(* ================================================================== *)
(** ** The two ends of the uniqueness rate                             *)
(* ================================================================== *)

Section RateEndpoints.
Import Js ComparisonAnalyzer.
Import Binary64.
Local Open Scope Z_scope.

Lemma toFixed2_zero (t : nat) :
  (0 < t)%nat -> Z.of_nat t < 2 ^ 53 ->
  toFixed2 (number_of_nat 0 / number_of_nat t * 100)%float = "0.00"%string.
Proof.
  intros Ht H53. unfold toFixed2.
  rewrite mul_spec, div_spec.
  pose proof (number_of_nat_holds t H53) as Hy.
  change (Prim2SF (number_of_nat 0)) with (S754_zero false).
  destruct (Prim2SF (number_of_nat t)) as [sy | sy | | sy m e]; simpl in Hy;
    try (exfalso; lia).
  destruct sy; [destruct Hy |].
  cbn [SFdiv xorb]. change (Prim2SF 100) with (S754_finite false 7036874417766400 (-46))%Z.
  reflexivity.
Qed.

Lemma new_location_zero (n : Z) : new_location n 0 = loc_Exact.
Proof.
  unfold new_location. destruct (Z.even n); reflexivity.
Qed.

Lemma SFdiv_same (m : positive) (e : Z) :
  Zpos (digits2_pos m) = 53 ->
  SFdiv prec emax (S754_finite false m e) (S754_finite false m e)
  = S754_finite false 4503599627370496 (-52).
Proof.
  intro D. cbn [SFdiv xorb]. unfold SFdiv_core_binary.
  change (Zdigits2 (Zpos m)) with (Zpos (digits2_pos m)). rewrite D.
  rewrite !Z.sub_diag.
  change (Z.min (fexp prec emax 0) 0) with (-53).
  change (0 - -53) with 53.
  cbv zeta.
  change (match 53 with 0 => Zpos m | Zpos _ => Z.shiftl (Zpos m) 53 | Zneg _ => 0 end)
    with (Z.shiftl (Zpos m) 53).
  rewrite Z.shiftl_mul_pow2 by lia.
  assert (E : Z.div_eucl (Zpos m * 2 ^ 53) (Zpos m) = (2 ^ 53, 0)).
  { pose proof (Z.div_mul (2 ^ 53) (Zpos m)) as Q.
    pose proof (Z.mod_mul (2 ^ 53) (Zpos m)) as R.
    rewrite (Z.mul_comm (Zpos m)).
    unfold Z.div, Z.modulo in Q, R.
    destruct (Z.div_eucl (2 ^ 53 * Zpos m) (Zpos m)) as [q r].
    simpl in Q, R. rewrite Q, R by discriminate. reflexivity. }
  rewrite E. rewrite new_location_zero. reflexivity.
Qed.

Lemma toFixed2_full (t : nat) :
  (0 < t)%nat -> Z.of_nat t < 2 ^ 53 ->
  toFixed2 (number_of_nat t / number_of_nat t * 100)%float = "100.00"%string.
Proof.
  intros Ht H53. unfold toFixed2.
  rewrite mul_spec, div_spec.
  pose proof (number_of_nat_holds t H53) as Hy.
  destruct (Prim2SF (number_of_nat t)) as [sy | sy | | sy m e]; simpl in Hy;
    try (exfalso; lia).
  destruct sy; [destruct Hy |]. destruct Hy as [_ [_ D]].
  unfold SF64mul, SF64div. rewrite (SFdiv_same m e D).
  reflexivity.
Qed.

(** X20: the ends of [uniqueness_rate], for a tool with fewer than 2^32
    alerts: it is the number 0 for a tool without detection, the text
    0.00 for a tool with detections none of which is unique, and the text
    100.00 for a tool all of whose detections are unique. *)
Theorem uniqueness_rate_endpoints (results : toolResults) (toolName : string)
  (m : metrics) :
  In (toolName, m) (calculateEffectiveness results (findOverlap results)) ->
  Z.of_nat (total_detections m) < 2 ^ 32 ->
  (total_detections m = 0%nat -> uniqueness_rate m = Num 0)
  /\ ((0 < total_detections m)%nat -> unique_detections m = 0%nat ->
      uniqueness_rate m = Str "0.00")
  /\ ((0 < total_detections m)%nat -> unique_detections m = total_detections m ->
      uniqueness_rate m = Str "100.00").
Proof.
  intros H L. unfold calculateEffectiveness in H.
  apply in_map_iff in H. destruct H as [[t alerts] [E _]].
  simpl in E. injection E as -> <-.
  cbn [total_detections unique_detections uniqueness_rate tool_metrics] in *.
  assert (L53 : Z.of_nat (List.length alerts) < 2 ^ 53)
    by (apply Z.lt_trans with (2 ^ 32); [exact L | reflexivity]).
  split; [| split].
  - intros ->. reflexivity.
  - intros P U. rewrite U. pose proof P as P'. apply Nat.ltb_lt in P'. rewrite P'.
    now rewrite toFixed2_zero.
  - intros P U. rewrite U. pose proof P as P'. apply Nat.ltb_lt in P'. rewrite P'.
    now rewrite toFixed2_full.
Qed.

Lemma uniqueness_rate_endpoints_witness :
  In ("A", mkMetrics 1 0 1 (Str "0.00"))
     (calculateEffectiveness Sample.scenario (findOverlap Sample.scenario))
  /\ Z.of_nat 1 < 2 ^ 32
  /\ uniqueness_rate (mkMetrics 1 0 1 (Str "0.00")) = Str "0.00".
Proof.
  assert (H : In ("A", mkMetrics 1 0 1 (Str "0.00"))
                 (calculateEffectiveness Sample.scenario (findOverlap Sample.scenario))).
  { left. vm_compute. reflexivity. }
  assert (L : Z.of_nat 1 < 2 ^ 32) by reflexivity.
  destruct (uniqueness_rate_endpoints Sample.scenario "A" _ H L) as [_ [Z _]].
  exact (conj H (conj L (Z Nat.lt_0_1 eq_refl))).
Defined.

End RateEndpoints.

(* ================================================================== *)
(** ** When two fingerprints are equal                                 *)
(* ================================================================== *)

Section FingerprintIdentity.
Import Js.

Lemma split_at_separator (x x' r r' : string) :
  includes x ":" = false -> includes x' ":" = false ->
  x ++ "::" ++ r = x' ++ "::" ++ r' -> x = x' /\ r = r'.
Proof.
  revert x'. induction x as [| c x IH]; intros [| c' x'] Hx Hx' H.
  - injection H as H. now split.
  - simpl in H. injection H as Hc _. subst c'.
    cbn [includes String.prefix] in Hx'.
    destruct (ascii_dec ":" ":") as [_ | N]; [| now elim N].
    replace (String.prefix "" x') with true in Hx' by (destruct x'; reflexivity).
    discriminate Hx'.
  - simpl in H. injection H as Hc _. subst c.
    cbn [includes String.prefix] in Hx.
    destruct (ascii_dec ":" ":") as [_ | N]; [| now elim N].
    replace (String.prefix "" x) with true in Hx by (destruct x; reflexivity).
    discriminate Hx.
  - simpl in H. injection H as -> H.
    cbn [includes] in Hx, Hx'.
    destruct (String.prefix ":" (String c' x)); [discriminate Hx |].
    destruct (String.prefix ":" (String c' x')); [discriminate Hx' |].
    destruct (IH x' Hx Hx' H) as [-> ->]. now split.
Qed.

(** X21: for two alerts whose rule id, path and start line print without
    a colon, the fingerprints are equal exactly when the four components
    print the same.  A colon in a component can make two different
    findings collide, and so can a start line that is a number in one
    alert and its decimal text in the other. *)
Theorem createFingerprint_injective :
  (forall a b,
     Derived.separable a = true -> Derived.separable b = true ->
     (ResultNormalizer.createFingerprint a = ResultNormalizer.createFingerprint b
      <-> join_piece (Alert.rule_id a) = join_piece (Alert.rule_id b)
          /\ join_piece (Location.path (Alert.location a))
             = join_piece (Location.path (Alert.location b))
          /\ join_piece (Location.start_line (Alert.location a))
             = join_piece (Location.start_line (Alert.location b))
          /\ join_piece (Alert.category a) = join_piece (Alert.category b)))
  /\ ResultNormalizer.createFingerprint
       (Sample.identity_alert (Str "a:") (Str "b") Null Undefined Undefined)
     = ResultNormalizer.createFingerprint
         (Sample.identity_alert (Str "a") (Str ":b") Null Undefined Undefined)
  /\ ResultNormalizer.createFingerprint
       (Sample.identity_alert (Str "r") (Str "p") (Num 15) Undefined Undefined)
     = ResultNormalizer.createFingerprint
         (Sample.identity_alert (Str "r") (Str "p") (Str "15") Null Undefined).
Proof.
  split; [| split; reflexivity].
  intros a b Ha Hb. unfold Derived.separable, Derived.colon_free in Ha, Hb.
  repeat (apply andb_true_iff in Ha; destruct Ha as [Ha ?]).
  repeat (apply andb_true_iff in Hb; destruct Hb as [Hb ?]).
  repeat match goal with
         | H : negb _ = true |- _ => apply negb_true_iff in H
         end.
  unfold ResultNormalizer.createFingerprint, join. cbn [map String.concat].
  split.
  - intro E.
    apply split_at_separator in E; [| assumption | assumption].
    destruct E as [E1 E].
    apply split_at_separator in E; [| assumption | assumption].
    destruct E as [E2 E].
    apply split_at_separator in E; [| assumption | assumption].
    tauto.
  - intros [-> [-> [-> ->]]]. reflexivity.
Qed.

End FingerprintIdentity.

(* ================================================================== *)
(** ** The records a parser can read                                   *)
(* ================================================================== *)

Section Records.
Import Js.
Import Derived.

Lemma needs_bind {A B : Type} (ok ok' : bool) (m : outcome A) (k : A -> outcome B) :
  needs ok m -> (forall a, needs ok' (k a)) -> needs (ok && ok') (bind m k).
Proof.
  unfold needs. intros Hm Hk. destruct m as [a | e]; cbn [bind].
  - specialize (Hk a). rewrite Hm. destruct (k a); simpl; tauto.
  - destruct Hm as [-> ->]. now split.
Qed.

Lemma needs_get {B : Type} (ok : bool) (v : value) (key : string)
  (k : value -> outcome B) :
  needs ok (k (prop v key)) ->
  needs (negb (nullish v) && ok) (bind (get v key) k).
Proof.
  unfold get. destruct (nullish v); cbn [bind negb andb]; [| tauto].
  intros _. now split.
Qed.

Lemma needs_ext {A : Type} (ok ok' : bool) (m : outcome A) :
  ok = ok' -> needs ok m -> needs ok' m.
Proof. now intros ->. Qed.

Lemma needs_lower (v : value) : needs (Spec.is_string v) (lower v).
Proof. destruct v; simpl; tauto. Qed.

Lemma needs_upper (v : value) : needs (Spec.is_string v) (upper v).
Proof. destruct v; simpl; tauto. Qed.

Lemma needs_replace_in (v : value) (pat : string) :
  needs (Spec.is_string v) (replace_in v pat).
Proof. destruct v; simpl; tauto. Qed.

Lemma needs_component_path (v : value) :
  needs (string_or_absent v) (SonarQubeParser.component_path v).
Proof. destruct v; simpl; tauto. Qed.

(** [table[v?.toUpperCase()] || 'medium'], and the same with
    [toLowerCase]. *)
Lemma needs_table_severity (table : list (string * string))
  (convert : value -> outcome string) (v : value) :
  (forall w, needs (Spec.is_string w) (convert w)) ->
  needs (string_or_absent v)
    (key <- (if nullish v then Returns Undefined
             else s <- convert v ;; Returns (Str s)) ;;
     Returns (or_else (lookup table key) (Str "medium"))).
Proof.
  intro H. unfold string_or_absent.
  destruct (nullish v); cbn [bind orb]; [reflexivity |].
  specialize (H v). unfold needs in *. destruct (convert v); cbn [bind]; exact H.
Qed.

Lemma needs_lower2 {B : Type} (a b : value) (k : string -> string -> B) :
  needs (Spec.is_string a && Spec.is_string b)
    (x <- lower a ;; y <- lower b ;; Returns (k x y)).
Proof. destruct a, b; simpl; tauto. Qed.

(** A field with a default is never absent. *)
Lemma string_or_absent_default (v : value) (d : string) :
  string_or_absent (or_else v (Str d)) = Spec.is_string (or_else v (Str d)).
Proof.
  unfold string_or_absent, or_else.
  destruct (truthy v) eqn:T; [| reflexivity].
  destruct v; try discriminate; reflexivity.
Qed.

Ltac booleans :=
  repeat match goal with
         | |- context [Spec.is_string ?v] =>
             let b := fresh "b" in generalize (Spec.is_string v); intro b
         | |- context [string_or_absent ?v] =>
             let b := fresh "b" in generalize (string_or_absent v); intro b
         | |- context [nullish ?v] =>
             let b := fresh "b" in generalize (nullish v); intro b
         end;
  repeat match goal with b : bool |- _ => destruct b end; reflexivity.

Lemma parseResult_needs (record : value) :
  needs (parsable Spec.Semgrep record) (SemgrepParser.parseResult record).
Proof.
  unfold parsable, SemgrepParser.parseResult, SemgrepParser.extractCategory,
    Spec.semgrep_shaped.
  cbv zeta. fold (string_or_absent (opt (prop record "extra") "severity")).
  eapply needs_ext; [| apply needs_get, needs_bind;
    [ apply (needs_table_severity SemgrepParser.severityMap upper), needs_upper
    | intro severity; apply needs_bind;
      [ apply needs_bind; [ apply needs_lower | intro; exact eq_refl ]
      | intro; exact eq_refl ] ] ].
  booleans.
Qed.

Lemma snyk_parseResult_needs (record repositoryPath : value) :
  needs (parsable Spec.Snyk record) (SnykParser.parseResult record repositoryPath).
Proof.
  unfold parsable, SnykParser.parseResult.
  eapply needs_ext; [| apply needs_get, needs_bind;
    [ apply (needs_table_severity SnykParser.severityMap lower), needs_lower
    | intro severity; apply needs_bind;
      [ apply (needs_lower2 _ _ (fun x y => Parsed.scan _ [x; y]))
      | intro category; apply needs_bind;
        [ apply needs_replace_in | intro; exact eq_refl ] ] ] ].
  rewrite string_or_absent_default. booleans.
Qed.

Lemma parseMessage_needs (record filePath : value) :
  needs (parsable Spec.ESLint record) (ESLintParser.parseMessage record filePath).
Proof.
  unfold parsable, ESLintParser.parseMessage, ESLintParser.extractCategory.
  eapply needs_ext; [| apply needs_get, needs_bind;
    [ apply needs_bind; [ apply needs_lower | intro; exact eq_refl ]
    | intro; exact eq_refl ] ].
  booleans.
Qed.

Lemma parseIssue_needs (record : value) :
  needs (parsable Spec.SonarQube record) (SonarQubeParser.parseIssue record).
Proof.
  unfold parsable, SonarQubeParser.parseIssue.
  eapply needs_ext; [| apply needs_get, needs_bind;
    [ apply (needs_table_severity SonarQubeParser.severityMap upper), needs_upper
    | intro severity; apply needs_bind;
      [ apply (needs_lower2 _ _ (fun x y => Parsed.scan _ [x; y]))
      | intro category; apply needs_bind;
        [ apply needs_component_path | intro; exact eq_refl ] ] ] ].
  rewrite string_or_absent_default. booleans.
Qed.

(** X22: the function of each parser that reads one raw record returns a
    finding exactly when the record is there and every field the parser
    calls a string method on is a string once the default of the parser is
    in place: the rule id (Semgrep and ESLint have no default for it, so
    that a record without rule id raises), the message and the severity
    token, the file path of Snyk and the component of SonarQube.  On any
    other record it raises a TypeError. *)
Theorem parse_one_outcome (tool : Spec.adapter) (record : value) (root : string) :
  match parse_one tool record root with
  | Returns _ => parsable tool record = true
  | Throws error => error = TypeError /\ parsable tool record = false
  end.
Proof.
  change (needs (parsable tool record) (parse_one tool record root)).
  destruct tool; unfold parse_one.
  - apply parseResult_needs.
  - apply snyk_parseResult_needs.
  - apply parseMessage_needs.
  - apply parseIssue_needs.
Qed.

Lemma needs_map {A B : Type} (f : A -> outcome B) (ok : A -> bool) (l : list A) :
  (forall x, needs (ok x) (f x)) -> needs (forallb ok l) (map_outcome f l).
Proof.
  intro H. induction l as [| x l IH]; [reflexivity |].
  cbn [map_outcome forallb].
  apply needs_bind; [apply H | intro y].
  eapply needs_ext; [apply andb_true_r |].
  apply needs_bind; [exact IH | intro; exact eq_refl].
Qed.

Lemma needs_array {B : Type} (ok : list value -> bool) (raw : value)
  (k : list value -> outcome B) :
  (forall items, needs (ok items) (k items)) ->
  needs (match raw with Arr items => ok items | _ => false end)
        (bind (as_array raw) k).
Proof.
  intro H. destruct raw; cbn [as_array bind]; try (now split). apply H.
Qed.

Lemma parseFile_needs (scanOutput fileResult : value) :
  needs (readable_file fileResult) (ESLintParser.parseFile scanOutput fileResult).
Proof.
  unfold readable_file, ESLintParser.parseFile.
  eapply needs_ext; [| apply needs_get, needs_bind;
    [ apply needs_replace_in
    | intro relativePath;
      apply (needs_array (forallb (parsable Spec.ESLint)));
      intro messages; apply needs_map; intro message;
      apply parseMessage_needs ] ].
  now rewrite andb_assoc.
Qed.

(** X23: a parser answers a scan output exactly when the scan output is
    there and either reports no success, or holds, where the parser looks
    for them, raw records that are an array (or nothing, which reads as no
    record) of records it can read; for ESLint, file results with a string
    path and an array of messages it can read.  On any other scan output
    the parser raises a TypeError: one record that cannot be read fails
    the whole scan output.  The scan root is a value that can be
    printed. *)
Theorem adapt_outcome (tool : Spec.adapter) (scanOutput : value) :
  printable (prop scanOutput "repository_path") = true ->
  match Spec.adapt tool scanOutput with
  | Returns _ => readable tool scanOutput = true
  | Throws error => error = TypeError /\ readable tool scanOutput = false
  end.
Proof.
  intros _.
  change (needs (readable tool scanOutput) (Spec.adapt tool scanOutput)).
  unfold readable.
  destruct tool; unfold Spec.adapt, raw_records;
    [ unfold SemgrepParser.parse | unfold SnykParser.parse
    | unfold ESLintParser.parse | unfold SonarQubeParser.parse ];
    apply needs_get;
    (destruct (truthy (prop scanOutput "success")); cbn [negb orb];
     [| reflexivity]);
    apply needs_array; intro items;
    (eapply needs_ext; [apply andb_true_r |]);
    (apply needs_bind; [| intro; exact eq_refl]);
    apply needs_map; intro record.
  - apply parseResult_needs.
  - apply snyk_parseResult_needs.
  - apply parseFile_needs.
  - apply parseIssue_needs.
Qed.

Lemma adapt_outcome_witness :
  exists r,
    Spec.adapt Spec.Semgrep Sample.semgrep_output = Returns r
    /\ readable Spec.Semgrep Sample.semgrep_output = true.
Proof.
  pose proof (adapt_outcome Spec.Semgrep Sample.semgrep_output eq_refl) as H.
  destruct (Spec.adapt Spec.Semgrep Sample.semgrep_output) as [r | e] eqn:G.
  - exists r. split; [reflexivity | exact H].
  - discriminate G.
Defined.

End Records.

(* ================================================================== *)
(** ** The breakdowns of the report                                    *)
(* ================================================================== *)

Section Breakdowns.
Import Js ComparisonAnalyzer.
Import Derived.

Lemma severity_buckets (alerts : list Alert.t) :
  (count_severity "critical" alerts + count_severity "high" alerts
   + count_severity "medium" alerts + count_severity "low" alerts
   + List.length (filter (fun a => negb (levelled a)) alerts))%nat
  = List.length alerts.
Proof.
  unfold count_severity, levelled.
  induction alerts as [| a alerts IH]; [reflexivity |].
  cbn [filter].
  destruct (Alert.security_severity a) as [| | | | s | | |];
    cbn [is_str orb negb List.length]; try lia.
  destruct (String.eqb_spec s "critical") as [-> | _];
    [cbn [String.eqb Ascii.eqb Bool.eqb andb orb negb List.length]; lia |].
  destruct (String.eqb_spec s "high") as [-> | _];
    [cbn [String.eqb Ascii.eqb Bool.eqb andb orb negb List.length]; lia |].
  destruct (String.eqb_spec s "medium") as [-> | _];
    [cbn [String.eqb Ascii.eqb Bool.eqb andb orb negb List.length]; lia |].
  destruct (s =? "low"); cbn [orb negb List.length]; lia.
Qed.

Lemma none_filtered {A : Type} (p : A -> bool) (l : list A) :
  List.length (filter (fun x => negb (p x)) l) = 0%nat <-> forallb p l = true.
Proof.
  induction l as [| x l IH]; [simpl; tauto |].
  cbn [filter forallb]. destruct (p x); cbn [negb andb List.length].
  - exact IH.
  - split; discriminate.
Qed.

(** X24: in the breakdowns of the report, the four severity counts of a
    tool never exceed the number of its alerts, and add up to it exactly
    when the [security_severity] of every alert is one of critical, high,
    medium and low: an alert with any other severity is counted in no
    bucket.  The category counts of a tool have one entry per category
    and add up to the number of its alerts, the categories being values
    that can be printed and no member of [Object.prototype]. *)
Theorem breakdowns_add_up (results : toolResults) :
  (forall tool counts,
     In (tool, counts) (analyzeBySeverity results) ->
     exists alerts,
       In (tool, alerts) results
       /\ (critical counts + high counts + medium counts + low counts
           <= List.length alerts)%nat
       /\ ((critical counts + high counts + medium counts + low counts)%nat
           = List.length alerts
           <-> forallb levelled alerts = true))
  /\ (forallb (fun entry => forallb categorised (snd entry)) results = true ->
      forall tool counts,
        In (tool, counts) (analyzeByCategory results) ->
        exists alerts,
          In (tool, alerts) results
          /\ NoDup (map fst counts)
          /\ list_sum (map snd counts) = List.length alerts).
Proof.
  split; [| intros _]; intros tool counts H.
  - unfold analyzeBySeverity in H. apply in_map_iff in H.
    destruct H as [[t alerts] [E I]]. cbn [fst snd] in E.
    injection E as <- <-. exists alerts. split; [exact I |].
    cbn [critical high medium low].
    pose proof (severity_buckets alerts) as B.
    pose proof (none_filtered levelled alerts) as N.
    split; [lia |]. rewrite <- N. lia.
  - unfold analyzeByCategory in H. apply in_map_iff in H.
    destruct H as [[t alerts] [E I]]. cbn [fst snd] in E.
    injection E as <- <-. exists alerts. split; [exact I |].
    unfold count_categories. split.
    + apply tally_NoDup. constructor.
    + now rewrite tally_sum.
Qed.

End Breakdowns.

(* ================================================================== *)
(** ** Partial records                                                 *)
(* ================================================================== *)

Section PartialRecords.
Import Js.
Import Derived.











End PartialRecords.
